(** * cross-tab-communicator: the handshake and framing protocol

    A shallow embedding of [dist/moe-cross-tabs.cjs.js] and the properties
    of its message codec, tab registry, parent coordinator and child
    coordinator.

    Layout: the host primitives the code relies on (strings, numbers,
    values), then the program's own definitions in the order of the source
    file, then the lemmas and theorems. *)

From Stdlib Require Import ZArith String Ascii Lia.
From Stdlib Require QArith Qround.
From Stdlib Require Import Numbers.DecimalString Numbers.HexadecimalString.
From stdpp Require Import base option list strings gmap.

(* ===================================================================== *)
(** * Host primitives *)
(* ===================================================================== *)

(** Strings are sequences of code units; [String.prefix], [String.length]
    and [+:+] are the Standard Library's. *)

Module JS.

(** ** [String.prototype.indexOf] and [String.prototype.split] *)

(** First position at which [sub] occurs in [s], if any. *)
Fixpoint find (sub s : string) : option nat :=
  if String.prefix sub s then Some 0
  else match s with
       | EmptyString => None
       | String _ s' => S <$> find sub s'
       end.

(** [s.indexOf(sub)]: the position of the first occurrence, or [-1]. *)
Definition indexOf (s sub : string) : Z :=
  match find sub s with
  | Some i => Z.of_nat i
  | None => (-1)%Z
  end.

(** [s.split(sep)] scans [s] from the left.  [skip] counts the code units
    of a matched separator that are still to be passed over and [cur] is
    the piece collected since the last separator. *)
Fixpoint split_go (sep : string) (skip : nat) (cur s : string) : list string :=
  match s with
  | EmptyString => [cur]
  | String c s' =>
      match skip with
      | S k => split_go sep k cur s'
      | O =>
          if String.prefix sep s
          then cur :: split_go sep (String.length sep - 1) "" s'
          else split_go sep 0 (cur +:+ String c "") s'
      end
  end.

(** With the empty separator [split] returns the code units one by one. *)
Fixpoint chars (s : string) : list string :=
  match s with
  | EmptyString => []
  | String c s' => String c "" :: chars s'
  end.

Definition split (s sep : string) : list string :=
  match sep with
  | EmptyString => chars s
  | _ => split_go sep 0 "" s
  end.

(** The text of [s] before the first occurrence of [sep] (all of [s] when
    [sep] does not occur). *)
Fixpoint before (sep s : string) : string :=
  if String.prefix sep s then ""
  else match s with
       | EmptyString => ""
       | String c s' => String c (before sep s')
       end.

(** ** Numbers read from strings: [isNaN] and [parseInt]

    Only integers are needed: a number is [NaN], an integer that a double
    holds exactly, or an infinity. *)

Inductive number :=
| NaN
| Num (z : Z)
| Infinity (negative : bool).

(** [a === b] on numbers: [NaN] differs from everything, itself included. *)
Definition number_seq (a b : number) : bool :=
  match a, b with
  | Num x, Num y => (x =? y)%Z
  | Infinity x, Infinity y => bool_decide (x = y)
  | _, _ => false
  end.

(** A non-negative integer rounded to the nearest double, ties to even
    (53 bits of precision, overflow to infinity at 2^1024). *)
Definition round_to_double (n : Z) : number :=
  let bits := (Z.log2 n + 1)%Z in
  if (bits <=? 53)%Z then Num n
  else
    let e := (bits - 53)%Z in
    let q := Z.shiftr n e in
    let r := (n - Z.shiftl q e)%Z in
    let half := Z.shiftl 1 (e - 1) in
    let q' := if (half <? r)%Z || ((r =? half)%Z && Z.odd q) then (q + 1)%Z else q in
    let v := Z.shiftl q' e in
    if (Z.shiftl 1 1024 <=? v)%Z then Infinity false else Num v.

Definition negate (x : number) : number :=
  match x with
  | NaN => NaN
  | Num z => Num (- z)
  | Infinity b => Infinity (negb b)
  end.

(** White space and line terminators among the code units below 256. *)
Definition is_ws (c : ascii) : bool :=
  Ascii.is_space c || bool_decide (c = "160"%char).

Definition is_digit (c : ascii) : bool :=
  match Ascii.is_nat c with Some _ => true | None => false end.

Definition is_hex_digit (c : ascii) : bool :=
  is_digit c ||
  match c with
  | "a" | "b" | "c" | "d" | "e" | "f"
  | "A" | "B" | "C" | "D" | "E" | "F" => true
  | _ => false
  end%char.

Definition is_octal_digit (c : ascii) : bool :=
  match c with
  | "0" | "1" | "2" | "3" | "4" | "5" | "6" | "7" => true
  | _ => false
  end%char.

Definition is_binary_digit (c : ascii) : bool :=
  match c with "0" | "1" => true | _ => false end%char.

Fixpoint trim_start (s : string) : string :=
  match s with
  | String c s' => if is_ws c then trim_start s' else s
  | EmptyString => ""
  end.

Definition trim (s : string) : string :=
  String.rev (trim_start (String.rev (trim_start s))).

(** The longest prefix of [s] whose code units satisfy [p], and the rest. *)
Fixpoint span (p : ascii → bool) (s : string) : string * string :=
  match s with
  | String c s' =>
      if p c then let '(a, b) := span p s' in (String c a, b) else ("", s)
  | EmptyString => ("", "")
  end.

Definition is_empty (s : string) : bool :=
  match s with EmptyString => true | _ => false end.

Definition strip_sign (s : string) : bool * string :=
  match s with
  | String "-" r => (true, r)
  | String "+" r => (false, r)
  | _ => (false, s)
  end%char.

(** [ExponentPart], optional and reaching the end of the text. *)
Definition exponent_ok (r : string) : bool :=
  match r with
  | EmptyString => true
  | String c r' =>
      match c with
      | "e" | "E" =>
          let '(ds, rest) := span is_digit (strip_sign r').2 in
          negb (is_empty ds) && is_empty rest
      | _ => false
      end%char
  end.

(** [StrUnsignedDecimalLiteral]. *)
Definition unsigned_decimal (s : string) : bool :=
  if String.eqb s "Infinity" then true
  else
    let '(int, r) := span is_digit s in
    match r with
    | String "."%char r' =>
        let '(frac, r'') := span is_digit r' in
        negb (is_empty int && is_empty frac) && exponent_ok r''
    | _ => negb (is_empty int) && exponent_ok r
    end.

(** [0x..], [0o..] and [0b..] literals (they take no sign). *)
Definition radix_literal (s : string) : bool :=
  match s with
  | String "0"%char (String c r) =>
      let all p := let '(ds, rest) := span p r in negb (is_empty ds) && is_empty rest in
      match c with
      | "x" | "X" => all is_hex_digit
      | "o" | "O" => all is_octal_digit
      | "b" | "B" => all is_binary_digit
      | _ => false
      end%char
  | _ => false
  end.

(** [isNaN(s)] for a string [s]: whether [ToNumber(s)] is [NaN].  The
    empty text and all-blank text convert to [0]. *)
Definition isNaN (s : string) : bool :=
  let t := trim s in
  if is_empty t then false
  else if radix_literal t then false
  else negb (unsigned_decimal (strip_sign t).2).

Fixpoint digits_value (acc : Z) (s : string) : Z :=
  match s with
  | String c s' =>
      match Ascii.is_nat c with
      | Some d => digits_value (10 * acc + Z.of_nat d) s'
      | None => acc
      end
  | EmptyString => acc
  end.

(** [parseInt(s, 10)]: leading blanks, a sign, then the longest run of
    decimal digits; [NaN] when there is none. *)
Definition parseInt (s : string) : number :=
  let '(neg, r) := strip_sign (trim_start s) in
  let '(ds, _) := span is_digit r in
  if is_empty ds then NaN
  else
    let v := round_to_double (digits_value 0 ds) in
    if neg then negate v else v.

End JS.

(** ** Values and serializers *)

Module Value.

(** The values that travel through the program: message payloads, the
    parsed identity, configuration entries. *)
#[warnings="-register-all"]
Inductive value :=
| VUndefined
| VNull
| VBool (b : bool)
| VNum (z : Z)
| VStr (s : string)
| VArr (items : list value)
| VObj (fields : list (string * value)).

(** [ToBoolean]. *)
Definition truthy (v : value) : bool :=
  match v with
  | VUndefined | VNull => false
  | VBool b => b
  | VNum z => negb (z =? 0)%Z
  | VStr s => negb (JS.is_empty s)
  | VArr _ | VObj _ => true
  end.

Fixpoint assoc (k : string) (fields : list (string * value)) : option value :=
  match fields with
  | [] => None
  | (k', v) :: rest => if String.eqb k k' then Some v else assoc k rest
  end.

(** [v.k] for a value that is neither [null] nor [undefined] and a key
    that no primitive wrapper defines ([id], [name], [parentName]). *)
Definition get (v : value) (k : string) : value :=
  match v with
  | VObj fields => default VUndefined (assoc k fields)
  | _ => VUndefined
  end.

(** [a && a.k]. *)
Definition and_get (a : value) (k : string) : value :=
  if truthy a then get a k else a.

(** [obj[k] = v]: replace in place, or append a new property. *)
Fixpoint obj_set (k : string) (v : value) (fields : list (string * value))
  : list (string * value) :=
  match fields with
  | [] => [(k, v)]
  | (k', v') :: rest =>
      if String.eqb k k' then (k, v) :: rest else (k', v') :: obj_set k v rest
  end.

(** What a call of the injected [stringify] can do: throw, return
    [undefined], or return a text. *)
Inductive stringified :=
| SThrows (message : string)
| SUndefined
| SText (s : string).

(** The injectable pair [parse] / [stringify]; [parse] returns [None]
    when it throws. *)
Record serializer := Serializer {
  parse : string → option value;
  stringify : value → stringified
}.

End Value.

Export Value.

(** ** The standard JSON object, on a fragment

    [Json.JSON] is used to run the program on concrete inputs.  It follows
    [JSON.stringify] and [JSON.parse] on values built from [null],
    booleans, integers below 10^21 in magnitude, strings of code units
    below 256, arrays and objects; [parse] does not read fractions,
    exponents or [\u] escapes above [\u00ff].  Every general statement
    below quantifies over the serializer instead. *)

Module Json.

Definition quote_char : ascii := "034"%char.
Definition backslash : ascii := "092"%char.

Definition hex_digit (n : nat) : ascii :=
  match n with
  | 0 => "0" | 1 => "1" | 2 => "2" | 3 => "3" | 4 => "4" | 5 => "5"
  | 6 => "6" | 7 => "7" | 8 => "8" | 9 => "9" | 10 => "a" | 11 => "b"
  | 12 => "c" | 13 => "d" | 14 => "e" | _ => "f"
  end%char.

(** One code unit inside [QuoteJSONString]. *)
Definition escape (c : ascii) : string :=
  let n := nat_of_ascii c in
  if bool_decide (c = quote_char) then String backslash (String quote_char "")
  else if bool_decide (c = backslash) then String backslash (String backslash "")
  else if n =? 8 then String backslash "b"
  else if n =? 12 then String backslash "f"
  else if n =? 10 then String backslash "n"
  else if n =? 13 then String backslash "r"
  else if n =? 9 then String backslash "t"
  else if n <? 32 then
    String backslash ("u00" +:+ String (hex_digit (n / 16)) (String (hex_digit (n mod 16)) ""))
  else String c "".

Fixpoint escape_all (s : string) : string :=
  match s with
  | EmptyString => ""
  | String c s' => escape c +:+ escape_all s'
  end.

Definition quote (s : string) : string :=
  String quote_char (escape_all s +:+ String quote_char "").

Definition decimal (z : Z) : string :=
  DecimalString.NilZero.string_of_int (Z.to_int z).

Fixpoint join (sep : string) (l : list string) : string :=
  match l with
  | [] => ""
  | [x] => x
  | x :: rest => x +:+ sep +:+ join sep rest
  end.

(** [JSON.stringify(v)]; [None] is [undefined]. *)
Fixpoint text (v : value) : option string :=
  match v with
  | VUndefined => None
  | VNull => Some "null"
  | VBool b => Some (if b then "true" else "false")
  | VNum z => Some (decimal z)
  | VStr s => Some (quote s)
  | VArr items =>
      let fix go (l : list value) : list string :=
        match l with
        | [] => []
        | x :: rest => default "null" (text x) :: go rest
        end in
      Some ("[" +:+ join "," (go items) +:+ "]")
  | VObj fields =>
      let fix go (l : list (string * value)) : list string :=
        match l with
        | [] => []
        | (k, x) :: rest =>
            match text x with
            | Some t => (quote k +:+ ":" +:+ t) :: go rest
            | None => go rest
            end
        end in
      Some ("{" +:+ join "," (go fields) +:+ "}")
  end.

Definition json_stringify (v : value) : stringified :=
  match text v with
  | Some t => SText t
  | None => SUndefined
  end.

Definition is_json_ws (c : ascii) : bool :=
  match c with
  | " " | "009" | "010" | "013" => true
  | _ => false
  end%char.

Fixpoint skip_ws (s : string) : string :=
  match s with
  | String c s' => if is_json_ws c then skip_ws s' else s
  | EmptyString => ""
  end.

Definition hex_value (c : ascii) : option nat :=
  match c with
  | "a" | "A" => Some 10 | "b" | "B" => Some 11 | "c" | "C" => Some 12
  | "d" | "D" => Some 13 | "e" | "E" => Some 14 | "f" | "F" => Some 15
  | _ => Ascii.is_nat c
  end%char.

(** The text after an opening quote: the string's content and what
    follows the closing quote. *)
Fixpoint string_body (n : nat) (s : string) : option (string * string) :=
  match n with
  | O => None
  | S n =>
      match s with
      | EmptyString => None
      | String c r =>
          if bool_decide (c = quote_char) then Some ("", r)
          else if bool_decide (c = backslash) then
            match r with
            | String e r' =>
                let lit (x : ascii) :=
                  '(a, rest) ← string_body n r'; Some (String x a, rest) in
                match e with
                | "b" => lit "008" | "f" => lit "012" | "n" => lit "010"
                | "r" => lit "013" | "t" => lit "009" | "/" => lit "/"
                | "u" =>
                    match r' with
                    | String "0" (String "0" (String h (String l r''))) =>
                        hi ← hex_value h; lo ← hex_value l;
                        '(a, rest) ← string_body n r'';
                        Some (String (ascii_of_nat (16 * hi + lo)) a, rest)
                    | _ => None
                    end
                | _ =>
                    if bool_decide (e = quote_char) then lit quote_char
                    else if bool_decide (e = backslash) then lit backslash
                    else None
                end%char
            | EmptyString => None
            end
          else if nat_of_ascii c <? 32 then None
          else '(a, rest) ← string_body n r; Some (String c a, rest)
      end
  end.

(** An integer literal: [-]? then [0] or a digit run without leading
    zero, followed by no fraction and no exponent. *)
Definition integer (s : string) : option (value * string) :=
  let '(neg, r) := match s with
                   | String "-"%char r => (true, r)
                   | _ => (false, s)
                   end in
  let '(ds, rest) := JS.span JS.is_digit r in
  let leading_zero := match ds with
                      | String "0"%char (String _ _) => true
                      | _ => false
                      end in
  let continues := match rest with
                   | String "."%char _ | String "e"%char _ | String "E"%char _ => true
                   | _ => false
                   end in
  if JS.is_empty ds || leading_zero || continues then None
  else
    let v := JS.digits_value 0 ds in
    Some (VNum (if neg then - v else v)%Z, rest).

Definition keyword (k : string) (v : value) (s : string) : option (value * string) :=
  if String.prefix k s
  then Some (v, String.substring (String.length k) (String.length s - String.length k) s)
  else None.

Fixpoint value_at (n : nat) (s : string) : option (value * string) :=
  match n with
  | O => None
  | S n =>
      match skip_ws s with
      | String "{"%char r =>
          match skip_ws r with
          | String "}"%char r' => Some (VObj [], r')
          | r1 => members n [] r1
          end
      | String "["%char r =>
          match skip_ws r with
          | String "]"%char r' => Some (VArr [], r')
          | r1 => elements n [] r1
          end
      | String "t"%char _ as t => keyword "true" (VBool true) t
      | String "f"%char _ as t => keyword "false" (VBool false) t
      | String "n"%char _ as t => keyword "null" VNull t
      | String c r as t =>
          if bool_decide (c = quote_char)
          then '(str, r') ← string_body (String.length r) r; Some (VStr str, r')
          else integer t
      | EmptyString => None
      end
  end
with members (n : nat) (acc : list (string * value)) (s : string)
  : option (value * string) :=
  match n with
  | O => None
  | S n =>
      match skip_ws s with
      | String c r =>
          if bool_decide (c = quote_char) then
            '(k, r1) ← string_body (String.length r) r;
            match skip_ws r1 with
            | String ":"%char r2 =>
                '(v, r3) ← value_at n r2;
                match skip_ws r3 with
                | String ","%char r4 => members n (obj_set k v acc) r4
                | String "}"%char r4 => Some (VObj (obj_set k v acc), r4)
                | _ => None
                end
            | _ => None
            end
          else None
      | EmptyString => None
      end
  end
with elements (n : nat) (acc : list value) (s : string)
  : option (value * string) :=
  match n with
  | O => None
  | S n =>
      '(v, r) ← value_at n s;
      match skip_ws r with
      | String ","%char r' => elements n (acc ++ [v]) r'
      | String "]"%char r' => Some (VArr (acc ++ [v]), r')
      | _ => None
      end
  end.

(** [JSON.parse(s)]; [None] when it throws. *)
Definition json_parse (s : string) : option value :=
  match value_at (S (String.length s)) s with
  | Some (v, rest) => if JS.is_empty (skip_ws rest) then Some v else None
  | None => None
  end.

Definition JSON : serializer := Serializer json_parse json_stringify.

End Json.

(** An operation either returns or throws an [Error] with a message. *)
Inductive result (A : Type) :=
| Ret (a : A)
| Throw (message : string).

Arguments Ret {A} a.
Arguments Throw {A} message.

(* ===================================================================== *)
(** * The program *)
(* ===================================================================== *)

(** ** Enumerations *)

Module PostMessageEventNamesEnum.

Definition LOADED : string := "__TAB__LOADED_EVENT__".
Definition CUSTOM : string := "__TAB__CUSTOM_EVENT__".
Definition HANDSHAKE : string := "__TAB__HANDSHAKE_EVENT__".
Definition ON_BEFORE_UNLOAD : string := "__TAB__ON_BEFORE_UNLOAD__".
Definition PARENT_DISCONNECTED : string := "__PARENT_DISCONNECTED__".
Definition HANDSHAKE_WITH_PARENT : string := "__HANDSHAKE_WITH_PARENT__".
Definition PARENT_COMMUNICATED : string := "__PARENT_COMMUNICATED__".

(** The fixed set of event tags. *)
Definition all : list string :=
  [LOADED; CUSTOM; HANDSHAKE; ON_BEFORE_UNLOAD; PARENT_DISCONNECTED;
   HANDSHAKE_WITH_PARENT; PARENT_COMMUNICATED].

End PostMessageEventNamesEnum.

Module returnPreferenceEnum.

Definition INDEX : string := "index".
Definition OBJECT : string := "object".
Definition BOTH : string := "both".

End returnPreferenceEnum.

Module TabStatusEnum.

Definition OPEN : string := "open".
Definition CLOSE : string := "close".

End TabStatusEnum.

Module WarningTextEnum.

Definition INVALID_JSON : string := "Invalid JSON Object!".
Definition INVALID_DATA : string := "Some wrong message is being sent by Parent.".
Definition CONFIG_REQUIRED : string :=
  "Configuration options required. Please read docs.".
Definition URL_REQUIRED : string :=
  "Url is needed for creating and opening a new window/tab. Please read docs.".

End WarningTextEnum.

(** ** Tab records *)

(** A [Tab] object as [Tab.create] leaves it.  [tab_obj] is the identity of
    the JavaScript object: the array [tabUtils.tabs] holds references, and
    an assignment through a reference changes that object wherever it is
    listed.  [tab_ref] is the handle returned by [window.open] ([None] when
    it returned [null]). *)
Record Tab := mkTab {
  tab_obj : nat;
  tab_id : string;
  tab_name : option string;
  tab_windowName : option string;
  tab_windowFeatures : option string;
  tab_url : option string;
  tab_status : string;
  tab_ref : option nat
}.

Definition set_status (status : string) (t : Tab) : Tab :=
  {| tab_obj := tab_obj t; tab_id := tab_id t; tab_name := tab_name t;
     tab_windowName := tab_windowName t;
     tab_windowFeatures := tab_windowFeatures t; tab_url := tab_url t;
     tab_status := status; tab_ref := tab_ref t |}.

(** [obj.field = ...] through a reference to the object [obj]. *)
Definition mutate (obj : nat) (f : Tab → Tab) (data : list Tab) : list Tab :=
  (λ t, if bool_decide (tab_obj t = obj) then f t else t) <$> data.

(** ** arrayUtils *)

Module arrayUtils.

(** The test of the search loop on one element: numbers are compared
    through [parseInt] when [value] converts to a number, texts exactly
    otherwise. *)
Definition key_matches (objkey value : string) : bool :=
  if negb (JS.isNaN value) && JS.number_seq (JS.parseInt objkey) (JS.parseInt value)
  then true
  else JS.isNaN value && String.eqb objkey value.

(** The [for] loop: the index of the first element that matches, or [-1]. *)
Fixpoint search_from (i : Z) (data : list Tab) (value : string) : Z :=
  match data with
  | [] => (-1)%Z
  | obj :: rest =>
      if key_matches (tab_id obj) value then i
      else search_from (i + 1) rest value
  end.

(** What [searchByKeyName] returns.  When nothing matches, the function
    stores a fresh empty object at [data[-1]] (a property of the array, not
    one of its elements) and [data[index]] is that object: [None] here. *)
Inductive found :=
| Index (index : Z)
| Object (obj : option Tab)
| Both (obj : option Tab) (index : Z).

(** [searchByKeyName(data, 'id', value, returnPreference)]; the preference
    is a text or [undefined], and anything but ['index'] and ['both'] gives
    the object.  Every call passes an array and the key ['id'], so the
    guard [!data || !key] does not fire. *)
Definition searchByKeyName (data : list Tab) (value : string)
    (returnPreference : option string) : found :=
  let index := search_from 0 data value in
  let obj := if (index =? -1)%Z then None else data !! Z.to_nat index in
  match returnPreference with
  | Some pref =>
      if String.eqb pref returnPreferenceEnum.INDEX then Index index
      else if String.eqb pref returnPreferenceEnum.BOTH then Both obj index
      else Object obj
  | None => Object obj
  end.

End arrayUtils.

(** [Array.prototype.splice(start, deleteCount)] with no inserted items: a
    negative [start] counts from the end. *)
Definition splice {A} (start deleteCount : Z) (l : list A) : list A :=
  let len := Z.of_nat (length l) in
  let actualStart :=
    if (start <? 0)%Z then Z.max (len + start) 0 else Z.min start len in
  let actualDeleteCount := Z.min (Z.max deleteCount 0) (len - actualStart) in
  take (Z.to_nat actualStart) l
    ++ drop (Z.to_nat (actualStart + actualDeleteCount)) l.

(** ** The parent page: configuration and state *)

(** The object handed to [new Parent(config)]; [None] is an absent
    property.  The callbacks are recorded by presence. *)
Record ParentOptions := mkParentOptions {
  opt_heartBeatInterval : option Z;
  opt_shouldInitImmediately : option bool;
  opt_removeClosedTabs : bool;
  opt_origin : option string;
  opt_parse : option (string → option value);
  opt_stringify : option (value → stringified);
  opt_onPollingCallback : bool;
  opt_onChildDisconnect : bool;
  opt_onHandshakeCallback : bool;
  opt_onChildCommunication : bool
}.

(** The configuration once the constructor has filled in the defaults.  It
    is both [tabUtils.config] and, through [Object.assign(this, config)],
    the fields of the [Parent] instance. *)
Record ParentConfig := mkParentConfig {
  heartBeatInterval : Z;
  shouldInitImmediately : bool;
  removeClosedTabs : bool;
  origin : option string;
  codec : serializer;
  onPollingCallback : bool;
  onChildDisconnect : bool;
  onHandshakeCallback : bool;
  onChildCommunication : bool
}.

(** The module-level variables of the bundle together with the window of
    the parent page. *)
Record State := mkState {
  tabs : list Tab;                      (* tabUtils.tabs *)
  config : option ParentConfig;         (* tabUtils.config; None is {} *)
  heartBeat : option nat;               (* undefined / null, or a timer id *)
  windowName : string;                  (* window.name *)
  newlyTabOpened : option (string * option string * option nat);
  closedWindows : gset nat;             (* handles whose .closed is true *)
  intervals : gmap nat ParentConfig;    (* running setInterval timers and
                                           the instance their callback
                                           closes over *)
  timersCreated : nat;
  objectsCreated : nat;
  openerDisabled : bool;                (* data-tab-opener elements *)
  attached : list ParentConfig;         (* instances whose init ran *)
  pollingCallbacks : nat                (* calls of onPollingCallback *)
}.

Definition set_tabs (l : list Tab) (st : State) : State :=
  mkState l (config st) (heartBeat st) (windowName st) (newlyTabOpened st)
    (closedWindows st) (intervals st) (timersCreated st) (objectsCreated st)
    (openerDisabled st) (attached st) (pollingCallbacks st).

Definition set_closedWindows (c : gset nat) (st : State) : State :=
  mkState (tabs st) (config st) (heartBeat st) (windowName st)
    (newlyTabOpened st) c (intervals st) (timersCreated st)
    (objectsCreated st) (openerDisabled st) (attached st)
    (pollingCallbacks st).

(** The state of a freshly loaded page. *)
Definition initialState (name : string) : State :=
  mkState [] None None name None ∅ ∅ 0 0 false [] 0.

(** [ref.closed]. *)
Definition closed (h : nat) (st : State) : bool :=
  bool_decide (h ∈ closedWindows st).

(** [ref.close()]; also the user closing the window. *)
Definition close (h : nat) (st : State) : State :=
  set_closedWindows ({[h]} ∪ closedWindows st) st.

(** ** tabUtils *)

Module tabUtils.

Definition _remove (tab : Tab) (st : State) : State :=
  match arrayUtils.searchByKeyName (tabs st) (tab_id tab)
          (Some returnPreferenceEnum.INDEX) with
  | arrayUtils.Index index => set_tabs (splice index 1 (tabs st)) st
  | _ => st
  end.

(** Returns the text to post, or [undefined] ([None]) when [stringify]
    returned it. *)
Definition _preProcessMessage (msg : value) (st : State) : result (option string) :=
  match config st with
  | None => Throw WarningTextEnum.INVALID_JSON
  | Some c =>
      match stringify (codec c) msg with
      | SThrows _ => Throw WarningTextEnum.INVALID_JSON
      | SUndefined => Ret None
      | SText msg =>
          if negb (JS.is_empty msg)
             && (JS.indexOf msg PostMessageEventNamesEnum.PARENT_COMMUNICATED =? -1)%Z
          then Ret (Some (PostMessageEventNamesEnum.PARENT_COMMUNICATED +:+ msg))
          else Ret (Some msg)
      end
  end.

Definition addNew (tab : Tab) (st : State) : State :=
  set_tabs (tabs st ++ [tab]) st.

Definition getOpened (st : State) : list Tab :=
  filter (λ tab, tab_status tab = TabStatusEnum.OPEN) (tabs st).

Definition getClosed (st : State) : list Tab :=
  filter (λ tab, tab_status tab = TabStatusEnum.CLOSE) (tabs st).

Definition getAll (st : State) : list Tab := tabs st.

Definition closeTab (id : string) (st : State) : State :=
  match arrayUtils.searchByKeyName (tabs st) id None with
  | arrayUtils.Object (Some tab) =>
      match tab_ref tab with
      | Some ref =>
          let st := close ref st in
          set_tabs (mutate (tab_obj tab) (set_status TabStatusEnum.CLOSE) (tabs st)) st
      | None => st
      end
  | _ => st
  end.

(** One round of the loop of [closeAll]. *)
Definition closeAll_step (st : State) (tab : Tab) : State :=
  match tab_ref tab with
  | Some ref =>
      let st := close ref st in
      set_tabs (mutate (tab_obj tab) (set_status TabStatusEnum.CLOSE) (tabs st)) st
  | None => st
  end.

Definition closeAll (st : State) : State :=
  foldl closeAll_step st (tabs st).

End tabUtils.

(** ** UUID *)

Module UUID.

(** [0 | (Math.random() * (1 << x))] for a draw [u] of [Math.random()]:
    scaling by a power of two is exact, and the product is below 2^31. *)
Definition scaled (u : QArith_base.Q) (x : Z) : Z :=
  Qround.Qfloor (QArith_base.Qmult u (QArith_base.inject_Z (Z.shiftl 1 x))).

(** [_getRandomInt(x)]; [random k] is the [k]-th result of
    [Math.random()] and the call draws from index [k] on. *)
Definition _getRandomInt (x : Z) (random : nat → QArith_base.Q) (k : nat)
    : JS.number :=
  if (x <? 0)%Z then JS.NaN
  else if (x <=? 30)%Z then JS.Num (scaled (random k) x)
  else if (x <=? 53)%Z then
    JS.Num (scaled (random k) 30
            + scaled (random (S k)) (x - 30) * Z.shiftl 1 30)
  else JS.NaN.

(** [num.toString(16)]. *)
Definition toString16 (num : JS.number) : string :=
  match num with
  | JS.NaN => "NaN"
  | JS.Num z => HexadecimalString.NilZero.string_of_int (Z.to_hex_int z)
  | JS.Infinity negative => if negative then "-Infinity" else "Infinity"
  end.

(** The padding loop of the aligner: [for (; i > 0; i >>>= 1, z += z)]. *)
Fixpoint align_loop (fuel : nat) (i : Z) (z str : string) : string :=
  match fuel with
  | O => str
  | S fuel =>
      if (0 <? i)%Z
      then align_loop fuel (Z.shiftr i 1) (z +:+ z)
             (if Z.odd i then z +:+ str else str)
      else str
  end.

(** [_hexAligner(num, length)]. *)
Definition _hexAligner (num : JS.number) (length : Z) : string :=
  let str := toString16 num in
  let i := (length - Z.of_nat (String.length str))%Z in
  align_loop (Z.to_nat i) i "0" str.

(** [a | b] for [a] and an integer [b] in the range of [int32]. *)
Definition bitor (a : Z) (b : JS.number) : JS.number :=
  match b with
  | JS.Num z => JS.Num (Z.lor a z)
  | _ => JS.Num a
  end.

(** [UUID.generate()]: seven draws of [Math.random()], two each for the
    32-bit and the 48-bit field. *)
Definition generate (random : nat → QArith_base.Q) : string :=
  let rand x k := _getRandomInt x random k in
  let hex := _hexAligner in
  hex (rand 32%Z 0) 8%Z
  +:+ "-" +:+ hex (rand 16%Z 2) 4%Z
  +:+ "-" +:+ hex (bitor 0x4000%Z (rand 12%Z 3)) 4%Z
  +:+ "-" +:+ hex (bitor 0x8000%Z (rand 14%Z 4)) 4%Z
  +:+ "-" +:+ hex (rand 48%Z 5) 12%Z.

End UUID.

(** ** Tab *)

(** The argument of [openNewTab] and [Tab.create]. *)
Record TabConfig := mkTabConfig {
  cfg_url : option string;
  cfg_windowName : option string;
  cfg_windowFeatures : option string;
  cfg_name : option string
}.

(** [a || b] on optional texts. *)
Definition or_else (a b : option string) : option string :=
  match a with
  | Some s => if JS.is_empty s then b else a
  | None => b
  end.

Module TabClass.

(** [new Tab()]: names the parent window if it has no name yet. *)
Definition constructor (st : State) : State :=
  mkState (tabs st) (config st) (heartBeat st)
    (if JS.is_empty (windowName st) then "PARENT_TAB" else windowName st)
    (newlyTabOpened st) (closedWindows st) (intervals st) (timersCreated st)
    (objectsCreated st) (openerDisabled st) (attached st)
    (pollingCallbacks st).

(** [tab.create(options)] on a new [Tab] object.  [random] are the draws of
    [Math.random()] and [opened] is what [window.open] returns: a window
    handle, or [null]. *)
Definition create (options : option TabConfig) (random : nat → QArith_base.Q)
    (opened : option nat) (st : State) : Tab * State :=
  let cfg := default (mkTabConfig None None None None) options in
  let generated := UUID.generate random in
  let id :=
    if JS.is_empty generated
    then Json.decimal (Z.of_nat (length (tabs st)) + 1)
    else generated in
  let this :=
    mkTab (objectsCreated st) id (cfg_name cfg) (cfg_windowName cfg)
      (cfg_windowFeatures cfg) (cfg_url cfg) "open" opened in
  let st :=
    mkState (tabs st) (config st) (heartBeat st) (windowName st)
      (Some (id, or_else (tab_name this) (tab_windowName this), opened))
      (closedWindows st) (intervals st) (timersCreated st)
      (S (objectsCreated st)) true (attached st) (pollingCallbacks st) in
  (this, tabUtils.addNew this st).

End TabClass.

(** ** Parent *)

Module Parent.

(** [addEventListeners()], reached through [init()]: the instance attaches
    its listeners to the window. *)
Definition init (this : ParentConfig) (st : State) : State :=
  mkState (tabs st) (config st) (heartBeat st) (windowName st)
    (newlyTabOpened st) (closedWindows st) (intervals st) (timersCreated st)
    (objectsCreated st) (openerDisabled st) (attached st ++ [this])
    (pollingCallbacks st).

(** [new Parent(options)]; [JSON] is the host's JSON object, the source of
    the default [parse] and [stringify]. *)
Definition constructor (JSON : serializer) (options : option ParentOptions)
    (st : State) : ParentConfig * State :=
  let o := default (mkParentOptions None None false None None None
                      false false false false) options in
  let this :=
    mkParentConfig
      (default 500%Z (opt_heartBeatInterval o))
      (default true (opt_shouldInitImmediately o))
      (opt_removeClosedTabs o)
      (opt_origin o)
      (Serializer (default (parse JSON) (opt_parse o))
                  (default (stringify JSON) (opt_stringify o)))
      (opt_onPollingCallback o) (opt_onChildDisconnect o)
      (opt_onHandshakeCallback o) (opt_onChildCommunication o) in
  (* reset tabs with every new Object *)
  let st :=
    mkState [] (Some this) (heartBeat st) (windowName st) (newlyTabOpened st)
      (closedWindows st) (intervals st) (timersCreated st) (objectsCreated st)
      (openerDisabled st) (attached st) (pollingCallbacks st) in
  (this, if shouldInitImmediately this then init this st else st).

(** [!heartBeat]. *)
Definition not_polling (st : State) : bool :=
  match heartBeat st with
  | None | Some O => true
  | Some (S _) => false
  end.

(** [heartBeat = window.setInterval(() => this.addInterval(), ...)]: timer
    ids are positive. *)
Definition startPollingTabs (this : ParentConfig) (st : State) : State :=
  let id := S (timersCreated st) in
  mkState (tabs st) (config st) (Some id) (windowName st) (newlyTabOpened st)
    (closedWindows st) (<[id := this]> (intervals st)) id (objectsCreated st)
    (openerDisabled st) (attached st) (pollingCallbacks st).

(** [window.clearInterval(heartBeat); heartBeat = null]. *)
Definition stopPolling (st : State) : State :=
  mkState (tabs st) (config st) None (windowName st) (newlyTabOpened st)
    (closedWindows st)
    (match heartBeat st with
     | Some id => delete id (intervals st)
     | None => intervals st
     end)
    (timersCreated st) (objectsCreated st) (openerDisabled st) (attached st)
    (pollingCallbacks st).

(** The status read off the window: [ref.closed ? CLOSE : OPEN]. *)
Definition liveStatus (ref : nat) (st : State) : string :=
  if closed ref st then TabStatusEnum.CLOSE else TabStatusEnum.OPEN.

(** [watchStatus(tab)]; [None] is an [undefined] argument. *)
Definition watchStatus (tab : option Tab) (st : State) : State :=
  match tab with
  | None => st
  | Some tab =>
      match tab_ref tab with
      | None => st
      | Some ref =>
          let newStatus := liveStatus ref st in
          let oldStatus := tab_status tab in
          if JS.is_empty newStatus || String.eqb newStatus oldStatus then st
          else if String.eqb oldStatus TabStatusEnum.OPEN
                  && String.eqb newStatus TabStatusEnum.CLOSE
          then tabUtils._remove tab st
          else st
      end
  end.

(** The body of the polling loop at index [i]. *)
Definition addInterval_body (this : ParentConfig) (i : nat) (st : State) : State :=
  let st := if removeClosedTabs this then watchStatus (tabs st !! i) st else st in
  match tabs st !! i with
  | Some tab =>
      match tab_ref tab with
      | Some ref =>
          set_tabs (mutate (tab_obj tab) (set_status (liveStatus ref st)) (tabs st)) st
      | None => st
      end
  | None => st
  end.

(** [for (i = 0; i < tabs.length; i++)] over the live array, whose length
    shrinks when [watchStatus] removes an element. *)
Fixpoint addInterval_loop (fuel : nat) (this : ParentConfig) (i : nat)
    (st : State) : State :=
  match fuel with
  | O => st
  | S fuel =>
      if bool_decide (i < length (tabs st))
      then addInterval_loop fuel this (S i) (addInterval_body this i st)
      else st
  end.

Definition addInterval (this : ParentConfig) (st : State) : State :=
  match tabUtils.getOpened st with
  | [] => stopPolling st
  | _ :: _ =>
      let st := addInterval_loop (length (tabs st)) this 0 st in
      if onPollingCallback this
      then mkState (tabs st) (config st) (heartBeat st) (windowName st)
             (newlyTabOpened st) (closedWindows st) (intervals st)
             (timersCreated st) (objectsCreated st) (openerDisabled st)
             (attached st) (S (pollingCallbacks st))
      else st
  end.

Definition getAllTabs (st : State) : list Tab := tabUtils.getAll st.
Definition getOpenedTabs (st : State) : list Tab := tabUtils.getOpened st.
Definition getClosedTabs (st : State) : list Tab := tabUtils.getClosed st.
Definition closeAllTabs (st : State) : State := tabUtils.closeAll st.
Definition closeTab (id : string) (st : State) : State := tabUtils.closeTab id st.

(** [!url]. *)
Definition url_missing (url : option string) : bool :=
  match url with
  | Some u => JS.is_empty u
  | None => true
  end.

Definition openNewTab (this : ParentConfig) (options : option TabConfig)
    (random : nat → QArith_base.Q) (opened : option nat) (st : State)
    : result Tab * State :=
  match options with
  | None => (Throw WarningTextEnum.CONFIG_REQUIRED, st)
  | Some o =>
      if url_missing (cfg_url o) then (Throw WarningTextEnum.URL_REQUIRED, st)
      else
        let st := TabClass.constructor st in
        let '(tab, st) := TabClass.create options random opened st in
        (* If polling is already there, don't set it again *)
        let st := if not_polling st then startPollingTabs this st else st in
        (Ret tab, st)
  end.

End Parent.

(** ** Histories of the parent page *)

(** What can happen on the parent page: calls of the public interface, a
    timer firing, and a child window closing on its own.  [CreateTab] is
    [new parent.Tab().create(options)], on a new object as in [openNewTab];
    [WatchStatus] and [Remove] take any object as argument. *)
Inductive Operation :=
| NewParent (options : option ParentOptions)
| OpenNewTab (this : ParentConfig) (options : option TabConfig)
    (random : nat → QArith_base.Q) (opened : option nat)
| CreateTab (options : option TabConfig)
    (random : nat → QArith_base.Q) (opened : option nat)
| CloseTab (id : string)
| CloseAllTabs
| IntervalFires (timer : nat)
| AddInterval (this : ParentConfig)
| WatchStatus (tab : option Tab)
| Remove (tab : Tab)
| WindowCloses (ref : nat).

Section Histories.

Variable JSON : serializer.

Definition step (st : State) (op : Operation) : State :=
  match op with
  | NewParent options => (Parent.constructor JSON options st).2
  | OpenNewTab this options random opened =>
      (Parent.openNewTab this options random opened st).2
  | CreateTab options random opened =>
      (TabClass.create options random opened (TabClass.constructor st)).2
  | CloseTab id => Parent.closeTab id st
  | CloseAllTabs => Parent.closeAllTabs st
  | IntervalFires timer =>
      match intervals st !! timer with
      | Some this => Parent.addInterval this st
      | None => st
      end
  | AddInterval this => Parent.addInterval this st
  | WatchStatus tab => Parent.watchStatus tab st
  | Remove tab => tabUtils._remove tab st
  | WindowCloses ref => close ref st
  end.

Definition run (st : State) (ops : list Operation) : State :=
  foldl step st ops.

End Histories.

(** ** Child *)

Module Child.

(** The object handed to [new Child(config)]; [None] is an absent
    property, and callbacks are recorded by presence. *)
Record Options := mkOptions {
  opt_handshakeExpiryLimit : option Z;
  opt_shouldInitImmediately : option bool;
  opt_origin : option string;
  opt_isSiteInsideFrame : value;
  opt_parse : option (string → option value);
  opt_stringify : option (value → stringified);
  opt_onReady : bool;
  opt_onInitialize : bool;
  opt_onHandShakeExpiry : bool;
  opt_onParentDisconnect : bool;
  opt_onParentCommunication : bool
}.

(** [this.config] once the constructor has filled in the defaults. *)
Record Config := mkConfig {
  handshakeExpiryLimit : Z;
  shouldInitImmediately : bool;
  origin : option string;
  isSiteInsideFrame : value;
  codec : serializer;
  onReady : bool;
  onInitialize : bool;
  onHandShakeExpiry : bool;
  onParentDisconnect : bool;
  onParentCommunication : bool
}.

(** A call of a user callback. *)
Inductive Callback :=
| Ready
| Initialize
| HandShakeExpiry
| ParentDisconnect
| ParentCommunication (data : value).

(** The assignable fields of the [Child] instance, and the window of the
    child page.  A function expression creates a new function object each
    time it is evaluated; [listeners] holds the identities of the functions
    registered for ['message'], in registration order. *)
Record Page := mkPage {
  tabName : value;
  tabId : value;
  tabParentName : value;
  isSessionStorageSupported : bool;
  timeout : option nat;
  windowName : string;                 (* window.name *)
  hasSessionStorage : bool;            (* 'sessionStorage' in window *)
  sessionStorage : gmap string string;
  hasOpener : bool;                    (* window.top.opener *)
  posted : list (string * string);     (* opener.postMessage(msg, origin) *)
  timeouts : gset nat;                 (* pending setTimeout timers *)
  timersCreated : nat;
  listeners : list nat;
  functionsCreated : nat;
  beforeUnloadHook : bool;             (* window.onbeforeunload is set *)
  calls : list Callback;
  uncaught : list string               (* errors reported by the event loop *)
}.

(** A page on which no script has run yet. *)
Definition freshPage (name : string) (storage : option (gmap string string))
    (opener : bool) : Page :=
  mkPage VUndefined VUndefined VUndefined false None name
    (bool_decide (is_Some storage)) (default ∅ storage) opener [] ∅ 0 [] 0
    false [] [].

(** An inbound [MessageEvent]. *)
Record Message := mkMessage {
  data : value;
  sender : string                      (* message.origin *)
}.

(** *** Statements: state and exceptions *)

Definition M (A : Type) : Type := Page → result A * Page.

Definition ret {A} (a : A) : M A := λ page, (Ret a, page).

Definition bind {A B} (m : M A) (k : A → M B) : M B :=
  λ page,
    match m page with
    | (Ret a, page') => k a page'
    | (Throw e, page') => (Throw e, page')
    end.

Definition throw {A} (e : string) : M A := λ page, (Throw e, page).
Definition gets {A} (f : Page → A) : M A := λ page, (Ret (f page), page).
Definition modify (f : Page → Page) : M unit := λ page, (Ret tt, f page).
Definition when (b : bool) (m : M unit) : M unit := if b then m else ret tt.

Notation "x <- m ;; k" := (bind m (λ x, k))
  (at level 100, m at next level, right associativity).
Notation "m ;;; k" := (bind m (λ _, k))
  (at level 100, right associativity).

Definition sessionStorageKey : string := "__vwo_new_tab_info__".

(** *** Window primitives *)

Definition set_identity (id name parentName : value) (p : Page) : Page :=
  mkPage name id parentName (isSessionStorageSupported p) (timeout p)
    (windowName p) (hasSessionStorage p) (sessionStorage p) (hasOpener p)
    (posted p) (timeouts p) (timersCreated p) (listeners p)
    (functionsCreated p) (beforeUnloadHook p) (calls p) (uncaught p).

Definition setItem (key item : string) (p : Page) : Page :=
  mkPage (tabName p) (tabId p) (tabParentName p) (isSessionStorageSupported p)
    (timeout p) (windowName p) (hasSessionStorage p)
    (<[key := item]> (sessionStorage p)) (hasOpener p) (posted p) (timeouts p)
    (timersCreated p) (listeners p) (functionsCreated p) (beforeUnloadHook p)
    (calls p) (uncaught p).

Definition postMessage (msg target : string) (p : Page) : Page :=
  mkPage (tabName p) (tabId p) (tabParentName p) (isSessionStorageSupported p)
    (timeout p) (windowName p) (hasSessionStorage p) (sessionStorage p)
    (hasOpener p) (posted p ++ [(msg, target)]) (timeouts p) (timersCreated p)
    (listeners p) (functionsCreated p) (beforeUnloadHook p) (calls p)
    (uncaught p).

Definition set_timers (pending : gset nat) (created : nat)
    (handle : option nat) (p : Page) : Page :=
  mkPage (tabName p) (tabId p) (tabParentName p) (isSessionStorageSupported p)
    handle (windowName p) (hasSessionStorage p) (sessionStorage p)
    (hasOpener p) (posted p) pending created (listeners p)
    (functionsCreated p) (beforeUnloadHook p) (calls p) (uncaught p).

(** [window.clearTimeout(handle)]; [None] is [undefined]. *)
Definition clearTimeout (handle : option nat) (p : Page) : Page :=
  match handle with
  | Some t => set_timers (timeouts p ∖ {[t]}) (timersCreated p) (timeout p) p
  | None => p
  end.

Definition set_listeners (l : list nat) (created : nat) (hook : bool)
    (p : Page) : Page :=
  mkPage (tabName p) (tabId p) (tabParentName p) (isSessionStorageSupported p)
    (timeout p) (windowName p) (hasSessionStorage p) (sessionStorage p)
    (hasOpener p) (posted p) (timeouts p) (timersCreated p) l created hook
    (calls p) (uncaught p).

(** [window.removeEventListener('message', evt => this.onCommunication(evt))]:
    the argument is a function created on the spot; the listeners with
    that identity are removed. *)
Definition removeEventListener_arrow (p : Page) : Page :=
  let f := functionsCreated p in
  set_listeners (filter (λ g, g ≠ f) (listeners p)) (S f) (beforeUnloadHook p) p.

(** [window.addEventListener('message', evt => this.onCommunication(evt))]. *)
Definition addEventListener_arrow (p : Page) : Page :=
  let f := functionsCreated p in
  set_listeners (listeners p ++ [f]) (S f) (beforeUnloadHook p) p.

Definition call (c : Callback) (p : Page) : Page :=
  mkPage (tabName p) (tabId p) (tabParentName p) (isSessionStorageSupported p)
    (timeout p) (windowName p) (hasSessionStorage p) (sessionStorage p)
    (hasOpener p) (posted p) (timeouts p) (timersCreated p) (listeners p)
    (functionsCreated p) (beforeUnloadHook p) (calls p ++ [c]) (uncaught p).

(** *** Methods *)

Definition _isSessionStorage : M bool := gets hasSessionStorage.

(** [_getData()]: [None] is the [false] of the guard, [Some None] the
    [null] of [getItem] for a missing key. *)
Definition _getData : M (option (option string)) :=
  supported <- gets isSessionStorageSupported;;
  if supported
  then item <- gets (λ p, sessionStorage p !! sessionStorageKey);; ret (Some item)
  else ret None.

Definition _setData (dataReceived : string) : M unit :=
  supported <- gets isSessionStorageSupported;;
  when supported (modify (setItem sessionStorageKey dataReceived)).

Definition _parseData (this : Config) (dataReceived : string) : M unit :=
  match parse (codec this) dataReceived with
  | Some actualData =>
      modify (set_identity (and_get actualData "id")
                (and_get actualData "name")
                (and_get actualData "parentName"))
  | None => throw WarningTextEnum.INVALID_DATA
  end.

(** The text a value read from the store stands for when it is parsed. *)
Definition stored_text (d : option (option string)) : string :=
  match d with
  | None => "false"
  | Some None => "null"
  | Some (Some s) => s
  end.

Definition _restoreData (this : Config) : M unit :=
  supported <- gets isSessionStorageSupported;;
  when supported
    (storedData <- _getData;; _parseData this (stored_text storedData)).

(** [split(...)[1]] as a text: [undefined] reads as ["undefined"]. *)
Definition text_of (piece : option string) : string :=
  default "undefined" piece.

(** [this.config.origin || '*']. *)
Definition targetOrigin (this : Config) : string :=
  default "*" (or_else (origin this) None).

(** The envelope built by [sendMessageToParent]:
    [type + this.config.stringify(msg)]. *)
Definition encode (this : Config) (type : string) (msg : value) : result string :=
  match stringify (codec this) msg with
  | SThrows e => Throw e
  | SUndefined => Ret (type +:+ "undefined")
  | SText text => Ret (type +:+ text)
  end.

(** Reading an envelope, as every receiving branch does:
    [data.split(tag)[1]], then [this.config.parse]. *)
Definition decode (this : Config) (data tag : string) : option value :=
  parse (codec this) (text_of (JS.split data tag !! 1)).

(** [sendMessageToParent(msg, _prefixType)]. *)
Definition sendMessageToParent (this : Config) (msg : value)
    (_prefixType : option string) : M unit :=
  let type := default PostMessageEventNamesEnum.CUSTOM (or_else _prefixType None) in
  match encode this type msg with
  | Throw e => throw e
  | Ret msg =>
      opener <- gets hasOpener;;
      when opener (modify (postMessage msg (targetOrigin this)))
  end.

Definition getTabInfo (this : Config) : M value :=
  gets (λ p, VObj [("id", tabId p); ("name", tabName p);
                   ("parentName", tabParentName p);
                   ("isSiteInsideFrame", isSiteInsideFrame this)]).

(** [!data || typeof data !== 'string'], then the origin check. *)
Definition accepted (this : Config) (message : Message) : bool :=
  match data message with
  | VStr d =>
      negb (JS.is_empty d)
      && negb (match or_else (origin this) None with
               | Some o => negb (String.eqb o (sender message))
               | None => false
               end)
  | _ => false
  end.

(** [data.indexOf(tag) > -1]. *)
Definition tagged (d tag : string) : bool := (-1 <? JS.indexOf d tag)%Z.

(** The block for [PARENT_DISCONNECTED]. *)
Definition onParentDisconnected (this : Config) : M unit :=
  when (onParentDisconnect this) (modify (call ParentDisconnect));;;
  (* remove postMessage listener since no Parent is there to communicate with *)
  modify removeEventListener_arrow.

(** The block for [HANDSHAKE_WITH_PARENT]. *)
Definition onHandshakeWithParent (this : Config) (d : string) : M unit :=
  let dataReceived :=
    text_of (JS.split d PostMessageEventNamesEnum.HANDSHAKE_WITH_PARENT !! 1) in
  _setData dataReceived;;;
  _parseData this dataReceived;;;
  id <- gets tabId;;
  sendMessageToParent this
    (VObj [("id", id); ("isSiteInsideFrame", isSiteInsideFrame this)])
    (Some PostMessageEventNamesEnum.HANDSHAKE);;;
  when (onInitialize this) (modify (call Initialize)).

(** The block for [PARENT_COMMUNICATED]. *)
Definition onParentCommunicated (this : Config) (d : string) : M unit :=
  match decode this d PostMessageEventNamesEnum.PARENT_COMMUNICATED with
  | None => throw WarningTextEnum.INVALID_JSON
  | Some dataReceived =>
      when (onParentCommunication this)
        (modify (call (ParentCommunication dataReceived)))
  end.

(** The three tests that follow the cancellation of the timer; they are
    not exclusive. *)
Definition dispatch (this : Config) (d : string) : M unit :=
  when (tagged d PostMessageEventNamesEnum.PARENT_DISCONNECTED)
    (onParentDisconnected this);;;
  when (tagged d PostMessageEventNamesEnum.HANDSHAKE_WITH_PARENT)
    (onHandshakeWithParent this d);;;
  when (tagged d PostMessageEventNamesEnum.PARENT_COMMUNICATED)
    (onParentCommunicated this d).

Definition onCommunication (this : Config) (message : Message) : M unit :=
  if negb (accepted this message) then ret tt
  else
    let d := match data message with VStr d => d | _ => "" end in
    (* cancel timeout *)
    handle <- gets timeout;;
    modify (clearTimeout handle);;;
    dispatch this d.

Definition addListeners : M unit :=
  modify (λ p, set_listeners (listeners p) (functionsCreated p) true p);;;
  modify removeEventListener_arrow;;;
  modify addEventListener_arrow.

(** [window.setTimeout(...)]: returns the new timer's positive id. *)
Definition setHandshakeExpiry : M nat :=
  created <- gets timersCreated;;
  modify (λ p, set_timers ({[S created]} ∪ timeouts p) (S created) (timeout p) p);;;
  ret (S created).

Definition init (this : Config) : M unit :=
  supported <- _isSessionStorage;;
  modify (λ p, mkPage (tabName p) (tabId p) (tabParentName p) supported
                 (timeout p) (windowName p) (hasSessionStorage p)
                 (sessionStorage p) (hasOpener p) (posted p) (timeouts p)
                 (timersCreated p) (listeners p) (functionsCreated p)
                 (beforeUnloadHook p) (calls p) (uncaught p));;;
  addListeners;;;
  _restoreData this;;;
  info <- getTabInfo this;;
  sendMessageToParent this info (Some PostMessageEventNamesEnum.LOADED);;;
  handle <- setHandshakeExpiry;;
  modify (λ p, set_timers (timeouts p) (timersCreated p) (Some handle) p);;;
  when (onReady this) (modify (call Ready)).

(** [new Child(options)]; [JSON] is the host's JSON object. *)
Definition constructor (JSON : serializer) (options : option Options) : M Config :=
  let o := default (mkOptions None None None VUndefined None None
                      false false false false false) options in
  let this :=
    mkConfig
      (default 5000%Z (opt_handshakeExpiryLimit o))
      (default true (opt_shouldInitImmediately o))
      (opt_origin o)
      (opt_isSiteInsideFrame o)
      (Serializer (default (parse JSON) (opt_parse o))
                  (default (stringify JSON) (opt_stringify o)))
      (opt_onReady o) (opt_onInitialize o) (opt_onHandShakeExpiry o)
      (opt_onParentDisconnect o) (opt_onParentCommunication o) in
  name <- gets windowName;;
  modify (set_identity VNull (VStr name) VNull);;;
  when (shouldInitImmediately this) (init this);;;
  ret this.

(** *** Events of the child page *)

(** The window receives a message: every registered listener runs
    [onCommunication] on it, and an exception is reported without stopping
    the others. *)
Definition listener (this : Config) (message : Message) (p : Page) (f : nat) : Page :=
  if bool_decide (f ∈ listeners p) then
    match onCommunication this message p with
    | (Ret _, p') => p'
    | (Throw e, p') =>
        mkPage (tabName p') (tabId p') (tabParentName p')
          (isSessionStorageSupported p') (timeout p') (windowName p')
          (hasSessionStorage p') (sessionStorage p') (hasOpener p')
          (posted p') (timeouts p') (timersCreated p') (listeners p')
          (functionsCreated p') (beforeUnloadHook p') (calls p')
          (uncaught p' ++ [e])
    end
  else p.

Definition receive (this : Config) (message : Message) (p : Page) : Page :=
  foldl (listener this message) p (listeners p).

(** A pending timer set by [setHandshakeExpiry] fires. *)
Definition expire (this : Config) (t : nat) (p : Page) : Page :=
  if bool_decide (t ∈ timeouts p) then
    let p := set_timers (timeouts p ∖ {[t]}) (timersCreated p) (timeout p) p in
    if onHandShakeExpiry this then call HandShakeExpiry p else p
  else p.

End Child.

(** ** Sample inputs

    Concrete configurations and payloads on which the program is run
    below; they use the standard JSON object. *)

Module Sample.

(** [new Child()] with every callback supplied. *)
Definition childOptions : Child.Options :=
  Child.mkOptions None None None VUndefined None None true true true true true.

Definition child : Child.Config :=
  Child.mkConfig 5000 true None VUndefined Json.JSON true true true true true.

(** A text payload that spells an event tag. *)
Definition tagText : value := VStr PostMessageEventNamesEnum.CUSTOM.

Definition identity : value :=
  VObj [("id", VStr "abc"); ("name", VStr "n"); ("parentName", VStr "p")].

(** [JSON.stringify(identity)]. *)
Definition identityText : string :=
  "{" +:+ Json.quote "id" +:+ ":" +:+ Json.quote "abc"
  +:+ "," +:+ Json.quote "name" +:+ ":" +:+ Json.quote "n"
  +:+ "," +:+ Json.quote "parentName" +:+ ":" +:+ Json.quote "p" +:+ "}".

(** [new Parent()], and one that removes closed tabs. *)
Definition parent : ParentConfig :=
  mkParentConfig 500 true false None Json.JSON false false false false.

Definition pruningParent : ParentConfig :=
  mkParentConfig 500 true true None Json.JSON false false false false.

(** Two sequences of [Math.random()] results. *)
Definition draws1 (k : nat) : QArith_base.Q :=
  QArith_base.Qmake (Z.of_nat (7 * k + 3)) 64.

Definition draws2 (k : nat) : QArith_base.Q :=
  QArith_base.Qmake (Z.of_nat (5 * k + 1)) 64.

Definition site (url : string) : option TabConfig :=
  Some (mkTabConfig (Some url) None None None).

(** A parent page that has opened two tabs, in windows 7 and 8. *)
Definition twoTabs : State :=
  run Json.JSON (initialState "")
    [NewParent None;
     OpenNewTab parent (site "https://x") draws1 (Some 7);
     OpenNewTab parent (site "https://y") draws2 (Some 8)].

(** The first tab of [twoTabs], once closed through [closeTab]. *)
Definition closedTab : Tab :=
  mkTab 0 (UUID.generate draws1) None None None (Some "https://x")
    TabStatusEnum.CLOSE (Some 7).

Definition openThenClose : list Operation :=
  [NewParent None;
   OpenNewTab parent (site "https://x") draws1 (Some 7);
   OpenNewTab parent (site "https://y") draws2 (Some 8);
   CloseTab (UUID.generate draws1)].

Definition keepPolling : list Operation :=
  [IntervalFires 1; AddInterval parent; WatchStatus (Some closedTab);
   IntervalFires 1].

(** A serializer that passes texts through unchanged. *)
Definition rawText : serializer :=
  Serializer (λ s, Some (VStr s))
             (λ v, match v with VStr s => SText s | _ => SUndefined end).

Definition rawParent : ParentConfig :=
  mkParentConfig 500 true false None rawText false false false false.

(** [new Parent({parse, stringify})] with the functions of [rawText], on
    a page on which no script has run. *)
Definition rawOptions : ParentOptions :=
  mkParentOptions None None false None (Some (parse rawText))
    (Some (stringify rawText)) false false false false.

Definition rawState : State :=
  (Parent.constructor Json.JSON (Some rawOptions) (initialState "")).2.

(** A broadcast that is already framed. *)
Definition framed : string :=
  PostMessageEventNamesEnum.PARENT_COMMUNICATED +:+ "hello".

Definition doublyFramed : string :=
  PostMessageEventNamesEnum.PARENT_COMMUNICATED
  +:+ PostMessageEventNamesEnum.PARENT_COMMUNICATED +:+ "hello".

(** A child page with session storage and an opener, after
    [new Child(childOptions)]; and one with neither. *)
Definition childPage : Child.Page :=
  (Child.constructor Json.JSON (Some childOptions)
     (Child.freshPage "kid" (Some ∅) true)).2.

Definition orphanPage : Child.Page :=
  (Child.constructor Json.JSON (Some childOptions)
     (Child.freshPage "kid" None false)).2.

(** The parent's acknowledgement of the handshake, carrying [identity]. *)
Definition ackText : string :=
  PostMessageEventNamesEnum.HANDSHAKE_WITH_PARENT +:+ identityText.

Definition ack : Child.Message :=
  Child.mkMessage (VStr ackText) "https://parent.example".

(** The acknowledgement that the parent sends for the tab it opened with
    [openNewTab({url})] and the draws [draws1]: the tab has no name, so
    the identity object has the fields [id] and [parentName] only. *)
Definition plainIdentity : value :=
  VObj [("id", VStr (UUID.generate draws1)); ("parentName", VStr "PARENT_TAB")].

Definition plainAckText : string :=
  PostMessageEventNamesEnum.HANDSHAKE_WITH_PARENT
  +:+ "{" +:+ Json.quote "id" +:+ ":" +:+ Json.quote (UUID.generate draws1)
  +:+ "," +:+ Json.quote "parentName" +:+ ":" +:+ Json.quote "PARENT_TAB" +:+ "}".

Definition plainAck : Child.Message :=
  Child.mkMessage (VStr plainAckText) "https://parent.example".

Definition plainReplyText : string :=
  PostMessageEventNamesEnum.HANDSHAKE
  +:+ "{" +:+ Json.quote "id" +:+ ":" +:+ Json.quote (UUID.generate draws1) +:+ "}".

(** The child's reply to it: the HANDSHAKE tag and [{"id":"abc"}]. *)
Definition replyText : string :=
  PostMessageEventNamesEnum.HANDSHAKE
  +:+ "{" +:+ Json.quote "id" +:+ ":" +:+ Json.quote "abc" +:+ "}".

Definition disconnect : Child.Message :=
  Child.mkMessage (VStr PostMessageEventNamesEnum.PARENT_DISCONNECTED)
    "https://parent.example".

(** A broadcast of the text [hi] sent after the disconnect notice. *)
Definition hello : Child.Message :=
  Child.mkMessage
    (VStr (PostMessageEventNamesEnum.PARENT_COMMUNICATED +:+ Json.quote "hi"))
    "https://parent.example".

(** A message whose payload is the empty text. *)
Definition emptyText : Child.Message :=
  Child.mkMessage (VStr "") "https://parent.example".

(** An accepted message with no event tag. *)
Definition untagged : Child.Message :=
  Child.mkMessage (VStr "ping") "https://elsewhere.example".

(** A parent that removes closed tabs has opened two tabs; the window of
    the first closes and a polling tick removes its record.  [staleTab] is
    that record as the caller of [openNewTab] still holds it. *)
Definition pruned : State :=
  run Json.JSON (initialState "")
    [NewParent None;
     OpenNewTab pruningParent (site "https://x") draws1 (Some 7);
     OpenNewTab pruningParent (site "https://y") draws2 (Some 8);
     WindowCloses 7;
     IntervalFires 1].

Definition staleTab : Tab :=
  mkTab 0 (UUID.generate draws1) None None None (Some "https://x")
    TabStatusEnum.OPEN (Some 7).

(** An object that is not in the registry. *)
Definition stranger : Tab :=
  mkTab 99 "no-such-id" None None None None "open" None.

End Sample.

(** ** Invariants *)

(** The registry is well formed: every status is OPEN or CLOSE, a closed
    record points at a closed window, object identities are older than the
    allocation counter, and two entries with the same identity are the same
    object. *)
Record Good (st : State) : Prop := mkGood {
  good_status : ∀ t, t ∈ tabs st →
    tab_status t = TabStatusEnum.OPEN ∨ tab_status t = TabStatusEnum.CLOSE;
  good_closed : ∀ t, t ∈ tabs st → tab_status t = TabStatusEnum.CLOSE →
    ∃ ref, tab_ref t = Some ref ∧ ref ∈ closedWindows st;
  good_fresh : ∀ t, t ∈ tabs st → tab_obj t < objectsCreated st;
  good_object : ∀ t1 t2, t1 ∈ tabs st → t2 ∈ tabs st →
    tab_obj t1 = tab_obj t2 → t1 = t2
}.

(** The objects selected by [K] exist already and are closed wherever the
    registry lists them. *)
Definition Sealed (K : nat → Prop) (st : State) : Prop :=
  (∀ k, K k → k < objectsCreated st)
  ∧ ∀ t, t ∈ tabs st → K (tab_obj t) → tab_status t = TabStatusEnum.CLOSE.

Definition Safe (K : nat → Prop) (st : State) : Prop := Good st ∧ Sealed K st.

(** The timer named by [heartBeat], if any, is a running interval timer. *)
Definition Polling (st : State) : Prop :=
  match heartBeat st with
  | Some id => 0 < id ∧ is_Some (intervals st !! id)
  | None => True
  end.

(** A statement of the child page keeps [I]; a state change keeps [I]. *)
Definition preserves {A} (I : Child.Page → Prop) (m : Child.M A) : Prop :=
  ∀ p, I p → I (m p).2.

Definition stable (I : Child.Page → Prop) (f : Child.Page → Child.Page) : Prop :=
  ∀ p, I p → I (f p).

(** Every registered listener is a function that exists already. *)
Definition listeners_exist (p : Child.Page) : Prop :=
  Forall (λ f, f < Child.functionsCreated p) (Child.listeners p).

(* ===================================================================== *)
(** * The rest of the program *)
(* ===================================================================== *)

From Stdlib Require Import Sorting.Sorted.

(** ** Conversions of values *)

Module Coerce.

(** [String(v)] for a value read from JSON: the elements of an array are
    joined by commas, [null] and [undefined] elements as the empty text;
    integers are below 10^21 in magnitude. *)
Fixpoint toString (v : value) : string :=
  match v with
  | VUndefined => "undefined"
  | VNull => "null"
  | VBool b => if b then "true" else "false"
  | VNum z => Json.decimal z
  | VStr s => s
  | VArr items =>
      let fix go (l : list value) : list string :=
        match l with
        | [] => []
        | x :: rest =>
            match x with
            | VUndefined | VNull => ""
            | _ => toString x
            end :: go rest
        end in
      Json.join "," (go items)
  | VObj _ => "[object Object]"
  end.

(** [isNaN(v)]: whether [ToNumber(v)] is [NaN]; objects and arrays convert
    through their text. *)
Definition isNaN (v : value) : bool :=
  match v with
  | VUndefined => true
  | VNull | VBool _ | VNum _ => false
  | VStr s => JS.isNaN s
  | VArr _ | VObj _ => JS.isNaN (toString v)
  end.

(** [parseInt(v, 10)]. *)
Definition parseInt (v : value) : JS.number := JS.parseInt (toString v).

(** [v.k]: a [TypeError] ([None]) on [null] and [undefined]. *)
Definition property (v : value) (k : string) : option value :=
  match v with
  | VUndefined | VNull => None
  | _ => Some (get v k)
  end.

(** The test of the search loop of [searchByKeyName] when the searched
    value is any value and the key of the element a text. *)
Definition key_matches (objkey : string) (v : value) : bool :=
  if negb (isNaN v) && JS.number_seq (JS.parseInt objkey) (parseInt v)
  then true
  else isNaN v && match v with
                  | VStr s => String.eqb objkey s
                  | _ => false
                  end.

Fixpoint search_from (i : Z) (data : list Tab) (v : value) : Z :=
  match data with
  | [] => (-1)%Z
  | obj :: rest =>
      if key_matches (tab_id obj) v then i else search_from (i + 1) rest v
  end.

(** [searchByKeyName(data, 'id', v)] with no preference: the element found,
    or the empty object ([None]). *)
Definition searchByKeyName (data : list Tab) (v : value) : option Tab :=
  let index := search_from 0 data v in
  if (index =? -1)%Z then None else data !! Z.to_nat index.

End Coerce.

(** ** Posting to child windows *)

(** Where a message is posted: to the top window behind a handle, or to
    one of the frames of that window. *)
Inductive Target :=
| Top (ref : nat)
| Frame (ref : nat) (index : nat).

(** A call of a user callback of the parent; [instance] is the position of
    the [Parent] instance among those whose [init] ran. *)
Inductive ParentCallback :=
| ChildDisconnect (detail : value)
| HandshakeCallback (tabInfo : value)
| ChildCommunication (tabInfo : value).

(** What the parent page does to the outside: [postMessage] on a window
    ([None] posts [undefined]) and calls of user callbacks. *)
Inductive Output :=
| Post (target : Target) (msg : option string) (targetOrigin : string)
| Call (instance : nat) (callback : ParentCallback).

(** What the windows behind the handles look like from the parent page:
    [ref.length], the number of frames, and whether [ref.top] is a
    window. *)
Record Frames := mkFrames {
  frameCount : nat → nat;
  hasTop : nat → bool
}.

(** The message of a [TypeError] raised by the engine. *)
Definition typeError : string := "TypeError".

Module Broadcast.

(** [tabUtils.config.origin || '*']. *)
Definition targetOrigin (st : State) : string :=
  default "*" (or_else (config st ≫= origin) None).

(** [tabUtils.sendMessage(target, msg, isSiteInsideFrame)]; [ref] is
    [target.ref], [None] when the target has none. *)
Definition sendMessage (fr : Frames) (st : State) (ref : option nat)
    (msg : option string) (isSiteInsideFrame : value) : result (list Output) :=
  let origin := targetOrigin st in
  let toTop :=
    match ref with
    | Some r => if hasTop fr r then [Post (Top r) msg origin] else []
    | None => []
    end in
  if truthy isSiteInsideFrame then
    match ref with
    | None => Throw typeError
    | Some r =>
        if bool_decide (0 < frameCount fr r)
        then Ret ((λ i, Post (Frame r i) msg origin) <$> seq 0 (frameCount fr r))
        else Ret toTop
    end
  else Ret toTop.

(** The loop of [broadCastAll]: what was posted, and whether a send
    threw. *)
Fixpoint sendAll (fr : Frames) (st : State) (targets : list Tab)
    (msg : option string) (isSiteInsideFrame : value)
    : result unit * list Output :=
  match targets with
  | [] => (Ret tt, [])
  | tab :: rest =>
      match sendMessage fr st (tab_ref tab) msg isSiteInsideFrame with
      | Throw e => (Throw e, [])
      | Ret out =>
          let '(r, outs) := sendAll fr st rest msg isSiteInsideFrame in
          (r, out ++ outs)
      end
  end.

(** [tabUtils.broadCastAll(msg, isSiteInsideFrame)]. *)
Definition broadCastAll (fr : Frames) (msg : value) (isSiteInsideFrame : value)
    (st : State) : result unit * list Output :=
  let tabs := tabUtils.getOpened st in
  match tabUtils._preProcessMessage msg st with
  | Throw e => (Throw e, [])
  | Ret msg => sendAll fr st tabs msg isSiteInsideFrame
  end.

(** [tabUtils.broadCastTo(id, msg, isSiteInsideFrame)]. *)
Definition broadCastTo (fr : Frames) (id : string) (msg : value)
    (isSiteInsideFrame : value) (st : State) : result unit * list Output :=
  let tabs := tabUtils.getAll st in
  match tabUtils._preProcessMessage msg st with
  | Throw e => (Throw e, [])
  | Ret msg =>
      let ref :=
        match arrayUtils.searchByKeyName tabs id None with
        | arrayUtils.Object (Some targetedTab) => tab_ref targetedTab
        | _ => None
        end in
      match sendMessage fr st ref msg isSiteInsideFrame with
      | Throw e => (Throw e, [])
      | Ret out => (Ret tt, out)
      end
  end.

(** [Parent.broadCastAll(msg)] and [Parent.broadCastTo(id, msg)] pass no
    frame flag. *)
Definition Parent_broadCastAll (fr : Frames) (msg : value) (st : State)
    : result unit * list Output :=
  broadCastAll fr msg VUndefined st.

Definition Parent_broadCastTo (fr : Frames) (id : string) (msg : value)
    (st : State) : result unit * list Output :=
  broadCastTo fr id msg VUndefined st.

(** [window.onbeforeunload] as [addEventListeners] sets it; it is set once
    some instance has run [init]. *)
Definition onbeforeunload (fr : Frames) (st : State) : result unit * list Output :=
  match attached st with
  | [] => (Ret tt, [])
  | _ :: _ =>
      Parent_broadCastAll fr (VStr PostMessageEventNamesEnum.PARENT_DISCONNECTED) st
  end.

End Broadcast.

(** ** PostMessageListener and the event handlers of the parent *)

Module Listener.

(** The parent page together with one more fact about its window:
    whether [window.newlyTabOpened] is the empty object that
    [searchByKeyName] hands out when it finds nothing (the field
    [newlyTabOpened] of the state is then out of date).

    A [Tab] object that [window.newlyTabOpened] refers to changes its
    [id], [name] and [ref] only while [_onLoad] makes it the value of
    [window.newlyTabOpened], so the copy of these fields in the state
    always agrees with the object. *)
Record Page := mkPage {
  state : State;
  newlyIsEmpty : bool
}.

(** [window.newlyTabOpened]: [undefined], the empty object, or an object
    with [id], [name || windowName] and [ref]. *)
Inductive Newly :=
| NoNewly
| EmptyNewly
| SomeNewly (id : string) (name : option string) (ref : option nat).

Definition newly (p : Page) : Newly :=
  if newlyIsEmpty p then EmptyNewly
  else match newlyTabOpened (state p) with
       | None => NoNewly
       | Some (id, name, ref) => SomeNewly id name ref
       end.

Definition set_newly (n : option (string * option string * option nat))
    (st : State) : State :=
  mkState (tabs st) (config st) (heartBeat st) (windowName st) n
    (closedWindows st) (intervals st) (timersCreated st) (objectsCreated st)
    (openerDisabled st) (attached st) (pollingCallbacks st).

(** [window.newlyTabOpened = tab] for a [Tab] object. *)
Definition refer_to (tab : Tab) (p : Page) : Page :=
  mkPage (set_newly (Some (tab_id tab,
                           or_else (tab_name tab) (tab_windowName tab),
                           tab_ref tab)) (state p))
         false.

(** [domUtils.enable('data-tab-opener')]. *)
Definition enable (st : State) : State :=
  mkState (tabs st) (config st) (heartBeat st) (windowName st)
    (newlyTabOpened st) (closedWindows st) (intervals st) (timersCreated st)
    (objectsCreated st) false (attached st) (pollingCallbacks st).

Definition set_id_name (id : string) (name : option string) (t : Tab) : Tab :=
  {| tab_obj := tab_obj t; tab_id := id; tab_name := name;
     tab_windowName := tab_windowName t;
     tab_windowFeatures := tab_windowFeatures t; tab_url := tab_url t;
     tab_status := tab_status t; tab_ref := tab_ref t |}.

(** *** Statements: state, exceptions and outputs

    A statement returns or throws, changes the page and produces outputs;
    [None] means that it assigns to a [Tab] a value that the records here
    cannot hold (an [id] that is not a text, a [name] that is neither a
    text nor [undefined]) and is not followed further. *)
Definition M (A : Type) : Type :=
  Page → option (result A * Page * list Output).

Definition ret {A} (a : A) : M A := λ p, Some (Ret a, p, []).

Definition bind {A B} (m : M A) (k : A → M B) : M B :=
  λ p,
    match m p with
    | None => None
    | Some (Throw e, p', out) => Some (Throw e, p', out)
    | Some (Ret a, p', out) =>
        match k a p' with
        | None => None
        | Some (r, p'', out') => Some (r, p'', out ++ out')
        end
    end.

Definition throw {A} (e : string) : M A := λ p, Some (Throw e, p, []).
Definition beyond {A} : M A := λ _, None.
Definition gets {A} (f : Page → A) : M A := λ p, Some (Ret (f p), p, []).
Definition modify (f : Page → Page) : M unit := λ p, Some (Ret tt, f p, []).
Definition emit (out : list Output) : M unit := λ p, Some (Ret tt, p, out).
Definition when (b : bool) (m : M unit) : M unit := if b then m else ret tt.

(** [try { m } catch (e) { throw new Error(message) }]. *)
Definition rethrow {A} (message : string) (m : M A) : M A :=
  λ p,
    match m p with
    | Some (Throw _, p', out) => Some (Throw message, p', out)
    | other => other
    end.

Notation "x <- m ;; k" := (bind m (λ x, k))
  (at level 100, m at next level, right associativity).
Notation "m ;;; k" := (bind m (λ _, k))
  (at level 100, right associativity).

(** [tabUtils.config.parse(text)]; calling it on the initial, empty
    configuration is a [TypeError]. *)
Definition parse_with_config (text : string) : M value :=
  c <- gets (λ p, config (state p));;
  match c with
  | None => throw typeError
  | Some c =>
      match parse (codec c) text with
      | Some v => ret v
      | None => throw "parse"
      end
  end.

(** [v.k], throwing the [TypeError] of the engine. *)
Definition property (v : value) (k : string) : M value :=
  match Coerce.property v k with
  | Some x => ret x
  | None => throw typeError
  end.

(** [window.dispatchEvent(event)]: the listeners that the instances added
    in [addEventListeners] run in the order of registration.  Each is an
    arrow function of its own, so [removeEventListener] never removed
    one. *)
Fixpoint dispatchEvent_from (i : nat) (instances : list ParentConfig)
    (handler : nat → ParentConfig → M unit) : M unit :=
  match instances with
  | [] => ret tt
  | this :: rest => handler i this;;; dispatchEvent_from (S i) rest handler
  end.

Definition dispatchEvent (handler : nat → ParentConfig → M unit) : M unit :=
  instances <- gets (λ p, attached (state p));;
  dispatchEvent_from 0 instances handler.

(** [Parent.onChildUnload(ev)]. *)
Definition onChildUnload (detail : value) (i : nat) (this : ParentConfig) : M unit :=
  when (onChildDisconnect this) (emit [Call i (ChildDisconnect detail)]).

(** [Parent.customEventUnListener(ev)] for the detail [{tabInfo, type}]. *)
Definition customEventUnListener (tabInfo : value) (type : string) (i : nat)
    (this : ParentConfig) : M unit :=
  modify (λ p, mkPage (enable (state p)) (newlyIsEmpty p));;;
  if String.eqb type PostMessageEventNamesEnum.HANDSHAKE && onHandshakeCallback this
  then emit [Call i (HandshakeCallback tabInfo)]
  else if String.eqb type PostMessageEventNamesEnum.CUSTOM
          && onChildCommunication this
  then emit [Call i (ChildCommunication tabInfo)]
  else ret tt.

(** The first block of [_onLoad], inside its [try]: parse the payload and,
    if it carries an id, make the last tab of the registry the newly
    opened one and give it that id and name. *)
Definition reassociate (piece : string) : M value :=
  tabInfo <- parse_with_config piece;;
  id <- property tabInfo "id";;
  when (truthy id)
    (registry <- gets (λ p, tabUtils.getAll (state p));;
     match last registry with
     | None => ret tt
     | Some tab =>
         let name := if truthy (get tabInfo "name")
                     then get tabInfo "name" else get tabInfo "windowName" in
         match id, name with
         | VStr id, VStr name =>
             modify (λ p,
               refer_to (set_id_name id (Some name) tab)
                 (mkPage (set_tabs (mutate (tab_obj tab)
                                      (set_id_name id (Some name))
                                      (tabs (state p))) (state p))
                         (newlyIsEmpty p)))
         | VStr id, VUndefined =>
             modify (λ p,
               refer_to (set_id_name id None tab)
                 (mkPage (set_tabs (mutate (tab_obj tab)
                                      (set_id_name id None)
                                      (tabs (state p))) (state p))
                         (newlyIsEmpty p)))
         | _, _ => beyond
         end
     end);;;
  ret tabInfo.

(** The second block of [_onLoad], inside its [try]: acknowledge to the
    newly opened tab. *)
Definition acknowledge (fr : Frames) (tabInfo : value) : M unit :=
  n <- gets newly;;
  match n with
  | NoNewly => ret tt
  | _ =>
      let '(id, name, ref) :=
        match n with
        | SomeNewly id name ref =>
            (VStr id, from_option VStr VUndefined name, ref)
        | _ => (VUndefined, VUndefined, None)
        end in
      st <- gets state;;
      match config st with
      | None => throw typeError
      | Some c =>
          match stringify (codec c)
                  (VObj [("id", id); ("name", name);
                         ("parentName", VStr (windowName st))]) with
          | SThrows e => throw e
          | s =>
              let text := match s with SText t => t | _ => "undefined" end in
              let dataToSend :=
                PostMessageEventNamesEnum.HANDSHAKE_WITH_PARENT +:+ text in
              flag <- property tabInfo "isSiteInsideFrame";;
              match Broadcast.sendMessage fr st ref (Some dataToSend) flag with
              | Throw e => throw e
              | Ret out => emit out
              end
          end
      end
  end.

(** [PostMessageListener._onLoad(data)]. *)
Definition _onLoad (fr : Frames) (data : string) : M unit :=
  let piece := Child.text_of (JS.split data PostMessageEventNamesEnum.LOADED !! 1) in
  tabInfo <- (if JS.is_empty piece then ret (VStr piece)
              else rethrow WarningTextEnum.INVALID_JSON (reassociate piece));;
  rethrow WarningTextEnum.INVALID_JSON (acknowledge fr tabInfo).

(** [PostMessageListener._onCustomMessage(data, type)]. *)
Definition _onCustomMessage (data type : string) : M unit :=
  let piece := Child.text_of (JS.split data type !! 1) in
  tabInfo <- rethrow WarningTextEnum.INVALID_JSON (parse_with_config piece);;
  dispatchEvent (customEventUnListener tabInfo type).

(** [PostMessageListener._onBeforeUnload(data)]. *)
Definition _onBeforeUnload (data : string) : M unit :=
  let piece :=
    Child.text_of (JS.split data PostMessageEventNamesEnum.ON_BEFORE_UNLOAD !! 1) in
  tabInfo <- rethrow WarningTextEnum.INVALID_JSON (parse_with_config piece);;
  registry <- gets (λ p, tabUtils.getAll (state p));;
  match registry with
  | [] => ret tt
  | _ :: _ =>
      id <- property tabInfo "id";;
      match Coerce.searchByKeyName registry id with
      | Some tab => modify (refer_to tab)
      | None => modify (λ p, mkPage (state p) true)
      end
  end;;;
  dispatchEvent (onChildUnload tabInfo).

(** [PostMessageListener.onNewTab(message)]. *)
Definition onNewTab (fr : Frames) (message : Child.Message) : M unit :=
  st <- gets state;;
  match Child.data message with
  | VStr data =>
      if JS.is_empty data || bool_decide (tabs st = []) then ret tt
      else if match or_else (config st ≫= origin) None with
              | Some o => negb (String.eqb o (Child.sender message))
              | None => false
              end
      then ret tt
      else if Child.tagged data PostMessageEventNamesEnum.LOADED
      then _onLoad fr data
      else if Child.tagged data PostMessageEventNamesEnum.CUSTOM
      then _onCustomMessage data PostMessageEventNamesEnum.CUSTOM
      else if Child.tagged data PostMessageEventNamesEnum.HANDSHAKE
      then _onCustomMessage data PostMessageEventNamesEnum.HANDSHAKE
      else if Child.tagged data PostMessageEventNamesEnum.ON_BEFORE_UNLOAD
      then _onBeforeUnload data
      else ret tt
  | _ => ret tt
  end.

(** The window of the parent receives a message: [onNewTab] is registered
    (once) as soon as some instance has run [init]. *)
Definition receive (fr : Frames) (message : Child.Message) : M unit :=
  instances <- gets (λ p, attached (state p));;
  match instances with
  | [] => ret tt
  | _ :: _ => onNewTab fr message
  end.

(** [openNewTab] on the page: a new object becomes
    [window.newlyTabOpened]. *)
Definition openNewTab (this : ParentConfig) (options : option TabConfig)
    (random : nat → QArith_base.Q) (opened : option nat) (p : Page)
    : result Tab * Page :=
  let '(r, st) := Parent.openNewTab this options random opened (state p) in
  (r, mkPage st (match r with Ret _ => false | Throw _ => newlyIsEmpty p end)).

End Listener.

(** ** Events of the child page *)

Module ChildEvents.

(** The function that [addListeners] assigns to [window.onbeforeunload]. *)
Definition onbeforeunload (this : Child.Config) : Child.M unit :=
  Child.bind (Child.gets Child.tabId)
    (λ id,
       Child.sendMessageToParent this
         (VObj [("id", id); ("isSiteInsideFrame", Child.isSiteInsideFrame this)])
         (Some PostMessageEventNamesEnum.ON_BEFORE_UNLOAD)).

(** The page is about to unload: the hook runs if it is set. *)
Definition unload (this : Child.Config) (p : Child.Page) : result unit * Child.Page :=
  if Child.beforeUnloadHook p then onbeforeunload this p else (Ret tt, p).

(** The page after a reload: a page on which no script has run, with the
    same window name, session store and opener. *)
Definition reload (p : Child.Page) : Child.Page :=
  Child.freshPage (Child.windowName p)
    (if Child.hasSessionStorage p then Some (Child.sessionStorage p) else None)
    (Child.hasOpener p).

End ChildEvents.

(** ** [create] on a [Tab] that exists *)

Module TabObject.

(** [Object.assign(this, config)]: the keys that [config] has replace the
    fields of [this]; a field of [TabConfig] that is [None] is a key that
    [config] does not have. *)
Definition assign (cfg : TabConfig) (this : Tab) : Tab :=
  let keep (new old : option string) :=
    match new with Some _ => new | None => old end in
  mkTab (tab_obj this) (tab_id this)
    (keep (cfg_name cfg) (tab_name this))
    (keep (cfg_windowName cfg) (tab_windowName this))
    (keep (cfg_windowFeatures cfg) (tab_windowFeatures this))
    (keep (cfg_url cfg) (tab_url this))
    (tab_status this) (tab_ref this).

(** [this.create(options)] for a [Tab] object [this] that was created
    before, such as the one [openNewTab] returned: the assignments go to
    that object, so they show in the registry wherever it is listed, and
    [addNew] pushes the object once more.  No [Tab] is constructed, so the
    name of the parent window is not touched. *)
Definition create (this : Tab) (options : option TabConfig)
    (random : nat → QArith_base.Q) (opened : option nat) (st : State)
    : Tab * State :=
  let cfg := default (mkTabConfig None None None None) options in
  let this := assign cfg this in
  let generated := UUID.generate random in
  let id :=
    if JS.is_empty generated
    then Json.decimal (Z.of_nat (length (tabs st)) + 1)
    else generated in
  let this :=
    mkTab (tab_obj this) id (tab_name this) (tab_windowName this)
      (tab_windowFeatures this) (tab_url this) "open" opened in
  let st :=
    mkState (mutate (tab_obj this) (λ _, this) (tabs st)) (config st)
      (heartBeat st) (windowName st)
      (Some (id, or_else (tab_name this) (tab_windowName this), opened))
      (closedWindows st) (intervals st) (timersCreated st)
      (objectsCreated st) true (attached st) (pollingCallbacks st) in
  (this, tabUtils.addNew this st).

End TabObject.

(** ** More invariants *)

(** Everything of a record but its status. *)
Definition ident (t : Tab) :=
  (tab_obj t, tab_id t, tab_name t, tab_windowName t, tab_windowFeatures t,
   tab_url t, tab_ref t).

(** The registry lists objects in the order of their creation. *)
Definition Ordered (st : State) : Prop :=
  StronglySorted lt (tab_obj <$> tabs st)
  ∧ Forall (λ t, tab_obj t < objectsCreated st) (tabs st).

(** The status that a polling tick gives a record. *)
Definition refreshed (st : State) (t : Tab) : Tab :=
  match tab_ref t with
  | Some ref => set_status (Parent.liveStatus ref st) t
  | None => t
  end.

(** From [st] to [st'] records were at most deleted: what is left is in
    the old order and differs at most in status; no object was created
    and no window reopened. *)
Definition Shrinks (st st' : State) : Prop :=
  (ident <$> tabs st') `sublist_of` (ident <$> tabs st)
  ∧ objectsCreated st' = objectsCreated st
  ∧ closedWindows st ⊆ closedWindows st'.

(** [closeAll] on one record: closed if it has a window. *)
Definition closedIfWindow (t : Tab) : Tab :=
  match tab_ref t with
  | Some _ => set_status TabStatusEnum.CLOSE t
  | None => t
  end.

(** The text of [n] zeros. *)
Fixpoint zeros (n : nat) : string :=
  match n with
  | O => ""
  | S n => String "0" (zeros n)
  end.

(** [onPollingCallback()] has run once more, if the instance has one. *)
Definition polled (this : ParentConfig) (st : State) : State :=
  if onPollingCallback this
  then mkState (tabs st) (config st) (heartBeat st) (windowName st)
         (newlyTabOpened st) (closedWindows st) (intervals st)
         (timersCreated st) (objectsCreated st) (openerDisabled st)
         (attached st) (S (pollingCallbacks st))
  else st.

(** The post that an unframed send makes to the window of [t], if it
    has a window with a top. *)
Definition topPost (fr : Frames) (st : State) (msg : option string) (t : Tab)
    : option Output :=
  ref ← tab_ref t;
  if hasTop fr ref then Some (Post (Top ref) msg (Broadcast.targetOrigin st))
  else None.

(** What [sendMessage] posts for [t] when it returns. *)
Definition postsFor (fr : Frames) (st : State) (msg : option string)
    (isSiteInsideFrame : value) (t : Tab) : list Output :=
  match Broadcast.sendMessage fr st (tab_ref t) msg isSiteInsideFrame with
  | Ret out => out
  | Throw _ => []
  end.


(** The origin test of [onNewTab] and of the child's [onCommunication]:
    no origin is configured, or it is the sender's. *)
Definition origin_ok (configured : option string) (sender : string) : bool :=
  match or_else configured None with
  | Some o => String.eqb o sender
  | None => true
  end.


(** The calls that an event produces: [cb] once for every attached
    instance that has the callback, in the order of attachment. *)
Definition callsOf (has : ParentConfig → bool) (cb : ParentCallback)
    (instances : list ParentConfig) : list Output :=
  omap id (imap (λ i this, if has this then Some (Call i cb) else None) instances).

(** The page once the elements marked [data-tab-opener] are enabled. *)
Definition enabled (p : Listener.Page) : Listener.Page :=
  Listener.mkPage (Listener.enable (Listener.state p)) (Listener.newlyIsEmpty p).

(** Everything of a record but its id and name. *)
Definition skeleton (t : Tab) :=
  (tab_obj t, tab_windowName t, tab_windowFeatures t, tab_url t, tab_status t,
   tab_ref t).

(** Everything of the state but the registry, [window.newlyTabOpened] and
    the opener elements. *)
Definition surroundings (st : State) :=
  (config st, heartBeat st, windowName st, closedWindows st, intervals st,
   timersCreated st, objectsCreated st, attached st, pollingCallbacks st).

(** From [p] to [p'] at most the id and name of the last record were
    rewritten. *)
Definition Relabels (p p' : Listener.Page) : Prop :=
  skeleton <$> tabs (Listener.state p') = skeleton <$> tabs (Listener.state p)
  ∧ surroundings (Listener.state p') = surroundings (Listener.state p)
  ∧ (NoDup (tab_obj <$> tabs (Listener.state p)) →
     ∀ i, S i < length (tabs (Listener.state p)) →
          tabs (Listener.state p') !! i = tabs (Listener.state p) !! i).

(** A statement of the parent page relates the page before and after it
    by [R], whenever it can be followed. *)
Definition respects (R : Listener.Page → Listener.Page → Prop) {A}
    (m : Listener.M A) : Prop :=
  ∀ p r p' out, m p = Some (r, p', out) → R p p'.

(** What the parent posts to its tabs when it unloads, under the standard
    JSON serializer: the JSON text of the PARENT_DISCONNECTED tag, framed
    as a broadcast. *)
Definition farewell : string :=
  PostMessageEventNamesEnum.PARENT_COMMUNICATED
  +:+ Json.quote PostMessageEventNamesEnum.PARENT_DISCONNECTED.

(** ** More fixtures *)

Module Fixtures.

(** The two tabs of [Sample.twoTabs], after the window of the first one
    was closed by its user. *)
Definition oneClosed : list Operation :=
  [NewParent None;
   OpenNewTab Sample.parent (Sample.site "https://x") Sample.draws1 (Some 7);
   OpenNewTab Sample.parent (Sample.site "https://y") Sample.draws2 (Some 8);
   WindowCloses 7].

(** Both windows closed and a polling tick has seen it. *)
Definition allClosed : State :=
  run Json.JSON (initialState "")
    (oneClosed ++ [WindowCloses 8; IntervalFires 1]).

(** An instance with a polling callback. *)
Definition watcher : ParentConfig :=
  mkParentConfig 500 true false None Json.JSON true false false false.

Definition tabConfig (url : string) : TabConfig :=
  mkTabConfig (Some url) None None None.

(** Window 8 shows two frames; every window has a top. *)
Definition windows : Frames :=
  mkFrames (λ ref, if ref =? 8 then 2 else 0) (λ _, true).

(** A page whose second [window.open] returned [null]. *)
Definition blocked : State :=
  run Json.JSON (initialState "")
    [NewParent None;
     OpenNewTab Sample.parent (Sample.site "https://x") Sample.draws1 (Some 7);
     OpenNewTab Sample.parent (Sample.site "https://y") Sample.draws2 None].

(** The second record of [blocked]. *)
Definition blockedTab : Tab :=
  mkTab 1 (UUID.generate Sample.draws2) None None None (Some "https://y")
    TabStatusEnum.OPEN None.

(** The broadcast of the text [hi], as posted. *)
Definition hi : option string :=
  Some (PostMessageEventNamesEnum.PARENT_COMMUNICATED +:+ Json.quote "hi").

(** A parent page on which [new Parent()] has run. *)
Definition parentPage : Listener.Page :=
  Listener.mkPage (run Json.JSON (initialState "") [NewParent None]) false.

(** The same page after it opened a tab in window 7. *)
Definition opened : Listener.Page :=
  (Listener.openNewTab Sample.parent (Some (tabConfig "https://x"))
     Sample.draws1 (Some 7) parentPage).2.

(** What a child page named [kid] reports when it has loaded and knows
    no id yet, and its JSON text. *)
Definition kidInfo : value :=
  VObj [("id", VNull); ("name", VStr "kid"); ("parentName", VNull)].

Definition kidText : string :=
  "{" +:+ Json.quote "id" +:+ ":null," +:+ Json.quote "name" +:+ ":"
  +:+ Json.quote "kid" +:+ "," +:+ Json.quote "parentName" +:+ ":null}".




(** Options with every callback, and the instance they make. *)
Definition callbacks : ParentOptions :=
  mkParentOptions None None false None None None true true true true.


(** A page with two instances, the second without callbacks; the first
    was created before the registry was reset by the second, which then
    opened a tab in window 7. *)
Definition twoInstances : Listener.Page :=
  Listener.mkPage
    (run Json.JSON (initialState "")
       [NewParent (Some callbacks); NewParent None;
        OpenNewTab Sample.parent (Sample.site "https://x") Sample.draws1 (Some 7)])
    false.

(** The JSON text of [{id}], which a child sends when it unloads and
    when it replies to the handshake. *)
Definition idText (id : string) : string :=
  "{" +:+ Json.quote "id" +:+ ":" +:+ Json.quote id +:+ "}".

Definition idInfo (id : string) : value := VObj [("id", VStr id)].

(** A child page that has completed the handshake with the identity
    [Sample.identity]. *)
Definition acquainted : Child.Page :=
  (Child.onCommunication Sample.child Sample.ack Sample.childPage).2.

(** A child page whose session store holds a text that is not JSON. *)
Definition garbled : Child.Page :=
  Child.freshPage "kid" (Some {[Child.sessionStorageKey := "{oops"]}) true.

(** The notice of a child that never learnt its id: [{"id":null}]. *)
Definition nullIdText : string := "{" +:+ Json.quote "id" +:+ ":null}".

Definition nullIdInfo : value := VObj [("id", VNull)].

(** A child page that completed the handshake for the tab opened with
    [Sample.draws1]. *)
Definition known : Child.Page :=
  (Child.onCommunication Sample.child Sample.plainAck Sample.childPage).2.

End Fixtures.

(* ===================================================================== *)
(** * Properties *)
(* ===================================================================== *)

(** ** Strings *)

Section StringFacts.

Implicit Types (s t sep cur : string) (c : ascii).

#[local] Arguments String.append !_ _ / : simpl nomatch.

Lemma app_empty_r s : s +:+ "" = s.
Proof. induction s as [|c s IH]; simpl; [done | by rewrite IH]. Qed.

Lemma app_assoc s t u : (s +:+ t) +:+ u = s +:+ (t +:+ u).
Proof. induction s as [|c s IH]; simpl; [done | by rewrite IH]. Qed.

Lemma prefix_app s t : String.prefix s (s +:+ t) = true.
Proof.
  induction s as [|c s IH]; simpl; [by destruct t |].
  destruct (ascii_dec c c); [exact IH | done].
Qed.

Lemma prefix_app_inv a b t :
  String.prefix (a +:+ b) (a +:+ t) = true → String.prefix b t = true.
Proof.
  induction a as [|c a IH]; simpl; [done |].
  by destruct (ascii_dec c c).
Qed.

Lemma prefix_find sub s : String.prefix sub s = true → JS.find sub s = Some 0.
Proof. intros H. destruct s; cbn [JS.find]; by rewrite H. Qed.

Lemma prefix_empty_r s : s ≠ "" → String.prefix s "" = false.
Proof. by destruct s. Qed.

Lemma is_empty_true s : JS.is_empty s = true ↔ s = "".
Proof. by destruct s. Qed.

Lemma is_empty_app s c t : JS.is_empty (s +:+ String c t) = false.
Proof. by destruct s. Qed.

(** A matched separator is passed over as a whole. *)
Lemma split_go_skip sep cur a s :
  JS.split_go sep (String.length a) cur (a +:+ s) = JS.split_go sep 0 cur s
  ∨ s = "" ∧ JS.split_go sep (String.length a) cur (a +:+ s) = [cur].
Proof.
  induction a as [|c a IH]; simpl.
  - destruct s; [right | left]; done.
  - exact IH.
Qed.

Lemma split_go_empty sep cur : JS.split_go sep 0 cur "" = [cur].
Proof. done. Qed.

(** The first piece of a split is the text before the first separator. *)
Lemma split_go_head sep cur s :
  sep ≠ "" → head (JS.split_go sep 0 cur s) = Some (cur +:+ JS.before sep s).
Proof.
  intros Hsep. revert cur. induction s as [|c s IH]; intros cur.
  - destruct sep; [done |]. simpl. by rewrite app_empty_r.
  - cbn [JS.split_go JS.before].
    destruct (String.prefix sep (String c s)); simpl.
    + by rewrite app_empty_r.
    + rewrite IH. by rewrite app_assoc.
Qed.

(** The second piece of [(sep + s).split(sep)] is the text of [s] before
    its first [sep]. *)
Lemma split_envelope sep s :
  sep ≠ "" → JS.split (sep +:+ s) sep !! 1 = Some (JS.before sep s).
Proof.
  intros Hsep. destruct sep as [|c sep]; [done |].
  unfold JS.split. cbn [String.append JS.split_go].
  change (String c (sep +:+ s)) with (String c sep +:+ s).
  rewrite prefix_app. cbn [String.length].
  replace (S (String.length sep) - 1) with (String.length sep) by lia.
  rewrite lookup_cons_ne_0 by done. cbn [Nat.pred]. rewrite <- head_lookup.
  destruct (split_go_skip (String c sep) "" sep s) as [-> | [-> ->]].
  - by rewrite split_go_head.
  - destruct sep; done.
Qed.

Lemma before_absent sep s : JS.find sep s = None → JS.before sep s = s.
Proof.
  induction s as [|c s IH].
  - by destruct sep.
  - cbn [JS.find JS.before].
    destruct (String.prefix sep (String c s)); [done |].
    destruct (JS.find sep s); [done |]. intros _. by rewrite IH.
Qed.

Lemma indexOf_absent s sub : JS.indexOf s sub = (-1)%Z ↔ JS.find sub s = None.
Proof.
  unfold JS.indexOf. destruct (JS.find sub s); split; intros; try done; lia.
Qed.

End StringFacts.

(** ** The message codec *)

Section Codec.

Variable this : Child.Config.

Lemma tag_nonempty T : T ∈ PostMessageEventNamesEnum.all → T ≠ "".
Proof.
  unfold PostMessageEventNamesEnum.all. rewrite !elem_of_cons, elem_of_nil.
  intros H ->. by repeat destruct H as [H|H].
Qed.

(** Decoding a fresh envelope parses what precedes the next occurrence of
    the tag in the serialized payload. *)
Lemma decode_envelope T text :
  T ≠ "" →
  Child.decode this (T +:+ text) T = parse (Child.codec this) (JS.before T text).
Proof.
  intros HT. unfold Child.decode. by rewrite split_envelope.
Qed.

(** C1 (amended). For every event tag [T] of the fixed set and every
    payload [P] that the injected serializer supports ([stringify] gives a
    text that [parse] reads back as [P]) and whose serialized text does not
    contain [T], decoding the envelope [T + stringify(P)] -- splitting on
    [T] and parsing the second piece -- yields [P]. *)
Theorem envelope_roundtrip T P text :
  T ∈ PostMessageEventNamesEnum.all →
  stringify (Child.codec this) P = SText text →
  parse (Child.codec this) text = Some P →
  JS.indexOf text T = (-1)%Z →
  ∃ envelope,
    Child.encode this T P = Ret envelope
    ∧ Child.decode this envelope T = Some P.
Proof.
  intros HT Hs Hp Habsent. exists (T +:+ text). split.
  - unfold Child.encode. by rewrite Hs.
  - rewrite decode_envelope by by apply tag_nonempty.
    apply indexOf_absent in Habsent. by rewrite before_absent.
Qed.

End Codec.

(** C1, witness: the identity object under the CUSTOM tag. *)
Lemma envelope_roundtrip_witness :
  PostMessageEventNamesEnum.CUSTOM ∈ PostMessageEventNamesEnum.all
  ∧ stringify (Child.codec Sample.child) Sample.identity = SText Sample.identityText
  ∧ parse (Child.codec Sample.child) Sample.identityText = Some Sample.identity
  ∧ JS.indexOf Sample.identityText PostMessageEventNamesEnum.CUSTOM = (-1)%Z
  ∧ ∃ envelope,
      Child.encode Sample.child PostMessageEventNamesEnum.CUSTOM Sample.identity
        = Ret envelope
      ∧ Child.decode Sample.child envelope PostMessageEventNamesEnum.CUSTOM
        = Some Sample.identity.
Proof.
  assert (H1 : PostMessageEventNamesEnum.CUSTOM ∈ PostMessageEventNamesEnum.all)
    by (unfold PostMessageEventNamesEnum.all; apply list_elem_of_further,
        list_elem_of_here).
  assert (H2 : stringify (Child.codec Sample.child) Sample.identity
               = SText Sample.identityText) by (vm_compute; reflexivity).
  assert (H3 : parse (Child.codec Sample.child) Sample.identityText
               = Some Sample.identity) by (vm_compute; reflexivity).
  assert (H4 : JS.indexOf Sample.identityText PostMessageEventNamesEnum.CUSTOM
               = (-1)%Z) by (vm_compute; reflexivity).
  exact (conj H1 (conj H2 (conj H3 (conj H4
           (envelope_roundtrip Sample.child _ _ _ H1 H2 H3 H4))))).
Defined.

(** C1 as stated fails: the text payload ["__TAB__CUSTOM_EVENT__"] is
    supported by the standard JSON serializer, yet its envelope under the
    CUSTOM tag does not decode to it -- [split] cuts the serialized text at
    the tag inside it and [parse] throws on the piece that is left. *)
Lemma envelope_roundtrip_counterexample :
  let T := PostMessageEventNamesEnum.CUSTOM in
  let P := Sample.tagText in
  T ∈ PostMessageEventNamesEnum.all
  ∧ stringify (Child.codec Sample.child) P = SText (Json.quote T)
  ∧ parse (Child.codec Sample.child) (Json.quote T) = Some P
  ∧ Child.encode Sample.child T P = Ret (T +:+ Json.quote T)
  ∧ Child.decode Sample.child (T +:+ Json.quote T) T = None.
Proof.
  cbv zeta. split.
  { unfold PostMessageEventNamesEnum.all.
    apply list_elem_of_further, list_elem_of_here. }
  repeat split; vm_compute; reflexivity.
Qed.

(** ** The tab registry *)

Section Registry.

Implicit Types (st : State) (tab t : Tab) (data : list Tab) (value id : string).

Lemma search_from_range i data value :
  arrayUtils.search_from i data value = (-1)%Z
  ∨ (i ≤ arrayUtils.search_from i data value
       < i + Z.of_nat (length data))%Z.
Proof.
  revert i. induction data as [|t data IH]; intros i; simpl; [by left |].
  destruct (arrayUtils.key_matches (tab_id t) value); [right; lia |].
  destruct (IH (i + 1)%Z) as [-> | ?]; [by left | right; lia].
Qed.

(** The loop returns [-1] exactly when no element matches. *)
Lemma search_from_absent i data value :
  (0 ≤ i)%Z →
  arrayUtils.search_from i data value = (-1)%Z
  ↔ Forall (λ t, arrayUtils.key_matches (tab_id t) value = false) data.
Proof.
  revert i. induction data as [|t data IH]; intros i Hi; simpl.
  - split; [constructor | done].
  - destruct (arrayUtils.key_matches (tab_id t) value) eqn:Hm.
    + split; [lia | by inversion 1; congruence].
    + rewrite IH by lia. split; [by constructor | by inversion 1].
Qed.

(** Otherwise it returns the position of the first element that matches. *)
Lemma search_from_first i data value n t :
  data !! n = Some t →
  arrayUtils.key_matches (tab_id t) value = true →
  (∀ k t', k < n → data !! k = Some t' →
           arrayUtils.key_matches (tab_id t') value = false) →
  arrayUtils.search_from i data value = (i + Z.of_nat n)%Z.
Proof.
  revert i n. induction data as [|t0 data IH]; intros i n Hn Hm Hfirst; [done |].
  destruct n as [|n]; simpl.
  - injection Hn as ->. rewrite Hm. lia.
  - rewrite (Hfirst 0 t0) by (done || lia).
    rewrite (IH (i + 1)%Z n); [lia | done | done |].
    intros k t' Hk Hk'. apply (Hfirst (S k) t'); [lia | done].
Qed.

Lemma splice_one {A} (l : list A) n :
  n < length l → splice (Z.of_nat n) 1 l = delete n l.
Proof.
  intros Hn. unfold splice.
  rewrite (proj2 (Z.ltb_ge _ _)) by lia.
  rewrite Z.min_l, Z.max_l, Z.min_l by lia.
  rewrite Nat2Z.id. replace (Z.to_nat (Z.of_nat n + 1)) with (S n) by lia.
  by rewrite delete_take_drop.
Qed.

Lemma splice_last {A} (l : list A) :
  splice (-1) 1 l = take (length l - 1) l.
Proof.
  unfold splice. change (-1 <? 0)%Z with true. cbv iota.
  destruct l as [|x l]; [done |].
  rewrite Z.max_l, Z.max_l, Z.min_l by (simpl length; lia).
  replace (Z.to_nat (Z.of_nat (length (x :: l)) + -1)) with (length (x :: l) - 1)
    by lia.
  replace (Z.to_nat _) with (length (x :: l)) by lia.
  by rewrite drop_all, app_nil_r.
Qed.

(** [_remove] deletes the first record whose id matches. *)
Lemma remove_first_match st tab n t :
  tabs st !! n = Some t →
  arrayUtils.key_matches (tab_id t) (tab_id tab) = true →
  (∀ k t', k < n → tabs st !! k = Some t' →
           arrayUtils.key_matches (tab_id t') (tab_id tab) = false) →
  tabs (tabUtils._remove tab st) = delete n (tabs st).
Proof.
  intros Hn Hm Hfirst. unfold tabUtils._remove, arrayUtils.searchByKeyName.
  rewrite (search_from_first 0 _ _ n t) by done. simpl.
  rewrite Z.add_0_l. apply splice_one. by eapply lookup_lt_Some.
Qed.

(** When no record matches, [_remove] deletes the last record: the index
    [-1] reaches [splice], which counts a negative start from the end. *)
Lemma remove_absent st tab :
  Forall (λ t, arrayUtils.key_matches (tab_id t) (tab_id tab) = false) (tabs st) →
  tabs (tabUtils._remove tab st) = take (length (tabs st) - 1) (tabs st).
Proof.
  intros Habsent. unfold tabUtils._remove, arrayUtils.searchByKeyName.
  rewrite (proj2 (search_from_absent 0 _ _ ltac:(done))) by done. simpl.
  apply splice_last.
Qed.

End Registry.

(** C3, on concrete registries.  Two tabs are registered, no record has
    the id ["no-such-id"], and [_remove] of an object with that id deletes
    the second tab instead of leaving the registry unchanged.  The same
    happens through the public interface: after a polling tick has removed
    the record of a closed tab, [watchStatus] on that stale record removes
    the record of the other tab, whose window is open. *)
Theorem remove_absent_id_drops_last_tab :
  (length (tabs Sample.twoTabs) = 2
   ∧ Forall (λ t, tab_id t ≠ tab_id Sample.stranger) (tabs Sample.twoTabs)
   ∧ tabs (tabUtils._remove Sample.stranger Sample.twoTabs)
     = take 1 (tabs Sample.twoTabs)
   ∧ tabs (tabUtils._remove Sample.stranger Sample.twoTabs)
     ≠ tabs Sample.twoTabs)
  ∧ (tab_ref <$> tabs Sample.pruned = [Some 8]
     ∧ tab_status <$> tabs Sample.pruned = [TabStatusEnum.OPEN]
     ∧ closed 8 Sample.pruned = false
     ∧ Forall (λ t, tab_id t ≠ tab_id Sample.staleTab) (tabs Sample.pruned)
     ∧ tabs (Parent.watchStatus (Some Sample.staleTab) Sample.pruned) = []).
Proof.
  assert (Hneq : ∀ id l,
            Forall (λ t, String.eqb (tab_id t) id = false) l →
            Forall (λ t, tab_id t ≠ id) l).
  { intros id l Hl. eapply Forall_impl; [exact Hl |].
    intros t. by apply String.eqb_neq. }
  split.
  - assert (Hl : length (tabs Sample.twoTabs) = 2) by (vm_compute; reflexivity).
    assert (Hr : tabs (tabUtils._remove Sample.stranger Sample.twoTabs)
                 = take 1 (tabs Sample.twoTabs)) by (vm_compute; reflexivity).
    split; [done |]. split; [apply Hneq; vm_compute; repeat constructor |].
    split; [done |]. rewrite Hr. intros Heq.
    apply (f_equal length) in Heq. rewrite length_take, Hl in Heq. simpl in Heq. lia.
  - split; [vm_compute; reflexivity |]. split; [vm_compute; reflexivity |].
    split; [vm_compute; reflexivity |].
    split; [apply Hneq; vm_compute; repeat constructor |].
    vm_compute; reflexivity.
Qed.

(** ** Opening a tab *)

Lemma generate_nonempty random : JS.is_empty (UUID.generate random) = false.
Proof.
  unfold UUID.generate.
  match goal with
  | |- JS.is_empty (?a +:+ "-" +:+ ?b) = false =>
      change (a +:+ "-" +:+ b) with (a +:+ String "-"%char b)
  end.
  apply is_empty_app.
Qed.

(** What [create] changes: it appends one record, which is open, carries
    the generated id, a new object identity and the handle of the opened
    window; timers and windows are untouched. *)
Lemma create_facts options random opened st :
  let '(tab, st') := TabClass.create options random opened st in
  tabs st' = tabs st ++ [tab]
  ∧ tab_status tab = TabStatusEnum.OPEN
  ∧ tab_id tab = UUID.generate random
  ∧ tab_obj tab = objectsCreated st
  ∧ tab_ref tab = opened
  ∧ objectsCreated st' = S (objectsCreated st)
  ∧ heartBeat st' = heartBeat st
  ∧ intervals st' = intervals st
  ∧ timersCreated st' = timersCreated st
  ∧ closedWindows st' = closedWindows st.
Proof.
  unfold TabClass.create. rewrite generate_nonempty. simpl. by repeat split.
Qed.

(** C6. [openNewTab] throws the CONFIG_REQUIRED error when [options] is
    missing and the URL_REQUIRED error when [options.url] is missing, and
    leaves the state unchanged in both cases; otherwise it returns a new
    record that is appended to the registry, whose status is OPEN and whose
    id is not empty, and it starts the polling timer for this instance
    unless one is already running. *)
Theorem openNewTab_outcome this options random opened st :
  match options with
  | None =>
      Parent.openNewTab this options random opened st
      = (Throw WarningTextEnum.CONFIG_REQUIRED, st)
  | Some o =>
      if Parent.url_missing (cfg_url o)
      then Parent.openNewTab this options random opened st
           = (Throw WarningTextEnum.URL_REQUIRED, st)
      else ∃ tab st',
          Parent.openNewTab this options random opened st = (Ret tab, st')
          ∧ tabs st' = tabs st ++ [tab]
          ∧ tab_status tab = TabStatusEnum.OPEN
          ∧ tab_id tab ≠ ""
          ∧ Parent.not_polling st' = false
          ∧ if Parent.not_polling st
            then heartBeat st' = Some (S (timersCreated st))
                 ∧ intervals st' = <[S (timersCreated st) := this]> (intervals st)
            else heartBeat st' = heartBeat st
                 ∧ intervals st' = intervals st
  end.
Proof.
  destruct options as [o|]; [| done].
  unfold Parent.openNewTab. destruct (Parent.url_missing (cfg_url o)); [done |].
  pose proof (create_facts (Some o) random opened (TabClass.constructor st))
    as Hcreate.
  destruct (TabClass.create (Some o) random opened (TabClass.constructor st))
    as [tab st1].
  destruct Hcreate as (Htabs & Hstatus & Hid & _ & _ & _ & Hhb & Hint & Htimers & _).
  simpl in Htabs, Hhb, Hint, Htimers.
  assert (Hpoll : Parent.not_polling st1 = Parent.not_polling st)
    by (unfold Parent.not_polling; by rewrite Hhb).
  eexists _, _. split; [reflexivity |].
  assert (Hne : tab_id tab ≠ "").
  { rewrite Hid. intros Hempty. pose proof (generate_nonempty random) as Hg.
    by rewrite Hempty in Hg. }
  rewrite Hpoll. destruct (Parent.not_polling st); simpl.
  - rewrite Htabs, Htimers, Hint. by repeat split.
  - by repeat split.
Qed.

(** ** Constructing a parent *)

(** C10. Whatever the registry held, after [new Parent(options)] the shared
    tab list is empty: [getAllTabs()] -- which reads the module-level list
    and no field of the instance it is called on -- returns the empty
    list. *)
Theorem constructor_resets_registry JSON options st :
  Parent.getAllTabs (Parent.constructor JSON options st).2 = [].
Proof.
  unfold Parent.constructor. cbn [snd].
  by destruct (shouldInitImmediately _).
Qed.

(** ** Framing of broadcasts *)

(** With the standard serializer a text message that contains the tag is
    serialized to a text that contains it too (the tag has no code unit
    that JSON escapes), so a framed text is never framed again. *)
Lemma prefix_split sub s :
  String.prefix sub s = true → ∃ b, s = sub +:+ b.
Proof.
  revert s. induction sub as [|c sub IH]; intros s; [by exists s |].
  destruct s as [|c' s]; simpl; [done |].
  destruct (ascii_dec c c') as [<- |]; [| done].
  intros [b ->]%IH. by exists b.
Qed.

Lemma find_split sub s i :
  JS.find sub s = Some i → ∃ a b, s = a +:+ sub +:+ b.
Proof.
  revert i. induction s as [|c s IH]; intros i; cbn [JS.find].
  - destruct (String.prefix sub "") eqn:Hp; [| done].
    intros _. destruct (prefix_split _ _ Hp) as [b ->]. by exists "", b.
  - destruct (String.prefix sub (String c s)) eqn:Hp.
    + intros _. destruct (prefix_split _ _ Hp) as [b ->]. by exists "", b.
    + destruct (JS.find sub s) as [j|] eqn:Hj; [| done].
      intros _. destruct (IH j eq_refl) as (a & b & ->).
      by exists (String c a), b.
Qed.

Lemma find_app a sub b : is_Some (JS.find sub (a +:+ sub +:+ b)).
Proof.
  induction a as [|c a IH].
  - change ("" +:+ sub +:+ b) with (sub +:+ b).
    rewrite (prefix_find _ _ (prefix_app sub b)). by eexists.
  - change (String c a +:+ sub +:+ b) with (String c (a +:+ sub +:+ b)).
    cbn [JS.find]. destruct (String.prefix sub _); [by eexists |].
    destruct IH as [j ->]. by eexists.
Qed.

Lemma escape_all_app a b :
  Json.escape_all (a +:+ b) = Json.escape_all a +:+ Json.escape_all b.
Proof.
  induction a as [|c a IH]; [done |].
  change (String c a +:+ b) with (String c (a +:+ b)).
  cbn [Json.escape_all]. by rewrite IH, app_assoc.
Qed.

Lemma quote_keeps_tag w :
  JS.indexOf w PostMessageEventNamesEnum.PARENT_COMMUNICATED ≠ (-1)%Z →
  JS.indexOf (Json.quote w) PostMessageEventNamesEnum.PARENT_COMMUNICATED ≠ (-1)%Z.
Proof.
  intros Hw Hq. apply indexOf_absent in Hq.
  destruct (JS.find PostMessageEventNamesEnum.PARENT_COMMUNICATED w) as [i|] eqn:Hi;
    [| by apply Hw, indexOf_absent].
  destruct (find_split _ _ _ Hi) as (a & b & ->).
  unfold Json.quote in Hq. rewrite !escape_all_app in Hq.
  change (Json.escape_all PostMessageEventNamesEnum.PARENT_COMMUNICATED)
    with PostMessageEventNamesEnum.PARENT_COMMUNICATED in Hq.
  rewrite !app_assoc in Hq.
  change (String Json.quote_char (Json.escape_all a +:+ ?rest))
    with (String Json.quote_char (Json.escape_all a) +:+ rest) in Hq.
  destruct (find_app (String Json.quote_char (Json.escape_all a))
              PostMessageEventNamesEnum.PARENT_COMMUNICATED
              (Json.escape_all b +:+ String Json.quote_char "")) as [j Hj].
  congruence.
Qed.

Lemma preProcessMessage_json_framed st c w :
  config st = Some c →
  stringify (codec c) = Json.json_stringify →
  JS.indexOf w PostMessageEventNamesEnum.PARENT_COMMUNICATED ≠ (-1)%Z →
  tabUtils._preProcessMessage (VStr w) st = Ret (Some (Json.quote w)).
Proof.
  intros Hc Hs Hw. unfold tabUtils._preProcessMessage. rewrite Hc, Hs.
  cbn [Json.json_stringify Json.text].
  apply quote_keeps_tag, Z.eqb_neq in Hw. by rewrite Hw, andb_false_r.
Qed.

(** C7 (amended). Framing is decided on the serialized text: a message
    whose serialized text contains the PARENT_COMMUNICATED tag is passed
    on as that text, without a tag in front; the result of the
    pre-processing step starts with two copies of the tag only when the
    serialized text itself does, never through prepending; and with the
    standard JSON serializer a text message that contains the tag is
    passed on as its JSON text, which begins with a quotation mark and so
    does not start with the tag at all. *)
Theorem preProcessMessage_frames_once st :
  (∀ msg c text,
      config st = Some c →
      stringify (codec c) msg = SText text →
      JS.indexOf text PostMessageEventNamesEnum.PARENT_COMMUNICATED ≠ (-1)%Z →
      tabUtils._preProcessMessage msg st = Ret (Some text))
  ∧ (∀ msg out,
      tabUtils._preProcessMessage msg st = Ret (Some out) →
      String.prefix (PostMessageEventNamesEnum.PARENT_COMMUNICATED
                     +:+ PostMessageEventNamesEnum.PARENT_COMMUNICATED) out = true →
      ∃ c, config st = Some c ∧ stringify (codec c) msg = SText out)
  ∧ (∀ c w,
      config st = Some c →
      stringify (codec c) = Json.json_stringify →
      JS.indexOf w PostMessageEventNamesEnum.PARENT_COMMUNICATED ≠ (-1)%Z →
      tabUtils._preProcessMessage (VStr w) st = Ret (Some (Json.quote w))
      ∧ String.prefix PostMessageEventNamesEnum.PARENT_COMMUNICATED (Json.quote w)
        = false).
Proof.
  split; [| split].
  - intros msg c text Hc Hs Htag. unfold tabUtils._preProcessMessage.
    rewrite Hc, Hs.
    destruct (Z.eqb_spec
                (JS.indexOf text PostMessageEventNamesEnum.PARENT_COMMUNICATED)
                (-1)); [done |].
    by rewrite andb_false_r.
  - intros msg out. unfold tabUtils._preProcessMessage.
    destruct (config st) as [c|]; [| done].
    destruct (stringify (codec c) msg) as [e| |text] eqn:Hs; [done | done |].
    destruct (negb (JS.is_empty text) && _) eqn:Hguard; intros [= <-] Hdouble.
    + exfalso. apply andb_true_iff in Hguard as [_ Habsent].
      apply Z.eqb_eq, indexOf_absent in Habsent.
      apply prefix_app_inv, prefix_find in Hdouble. congruence.
    + by exists c.
  - intros c w Hc Hs Hw. split; [by apply (preProcessMessage_json_framed st c) | done].
Qed.

(** C7, witness: a framed text under the standard JSON serializer, and a
    text with two tags under a serializer that passes texts through. *)
Lemma preProcessMessage_frames_once_witness :
  (config Sample.twoTabs = Some Sample.parent
   ∧ stringify (codec Sample.parent) (VStr Sample.framed)
     = SText (Json.quote Sample.framed)
   ∧ JS.indexOf (Json.quote Sample.framed)
       PostMessageEventNamesEnum.PARENT_COMMUNICATED ≠ (-1)%Z
   ∧ tabUtils._preProcessMessage (VStr Sample.framed) Sample.twoTabs
     = Ret (Some (Json.quote Sample.framed)))
  ∧ (tabUtils._preProcessMessage (VStr Sample.doublyFramed) Sample.rawState
     = Ret (Some Sample.doublyFramed)
     ∧ String.prefix (PostMessageEventNamesEnum.PARENT_COMMUNICATED
                      +:+ PostMessageEventNamesEnum.PARENT_COMMUNICATED)
         Sample.doublyFramed = true
     ∧ ∃ c, config Sample.rawState = Some c
            ∧ stringify (codec c) (VStr Sample.doublyFramed)
              = SText Sample.doublyFramed)
  ∧ (stringify (codec Sample.parent) = Json.json_stringify
     ∧ JS.indexOf Sample.framed PostMessageEventNamesEnum.PARENT_COMMUNICATED
       ≠ (-1)%Z
     ∧ tabUtils._preProcessMessage (VStr Sample.framed) Sample.twoTabs
       = Ret (Some (Json.quote Sample.framed))
     ∧ String.prefix PostMessageEventNamesEnum.PARENT_COMMUNICATED
         (Json.quote Sample.framed) = false).
Proof.
  assert (H1 : config Sample.twoTabs = Some Sample.parent) by reflexivity.
  split; [| split].
  - assert (H2 : stringify (codec Sample.parent) (VStr Sample.framed)
                 = SText (Json.quote Sample.framed)) by reflexivity.
    assert (H3 : JS.indexOf (Json.quote Sample.framed)
                   PostMessageEventNamesEnum.PARENT_COMMUNICATED ≠ (-1)%Z)
      by (vm_compute; discriminate).
    exact (conj H1 (conj H2 (conj H3
             (proj1 (preProcessMessage_frames_once Sample.twoTabs)
                _ _ _ H1 H2 H3)))).
  - assert (H4 : tabUtils._preProcessMessage (VStr Sample.doublyFramed)
                   Sample.rawState
                 = Ret (Some Sample.doublyFramed)) by (vm_compute; reflexivity).
    assert (H5 : String.prefix (PostMessageEventNamesEnum.PARENT_COMMUNICATED
                                +:+ PostMessageEventNamesEnum.PARENT_COMMUNICATED)
                   Sample.doublyFramed = true) by (vm_compute; reflexivity).
    exact (conj H4 (conj H5
             (proj1 (proj2 (preProcessMessage_frames_once Sample.rawState))
                _ _ H4 H5))).
  - assert (H6 : stringify (codec Sample.parent) = Json.json_stringify)
      by reflexivity.
    assert (H7 : JS.indexOf Sample.framed
                   PostMessageEventNamesEnum.PARENT_COMMUNICATED ≠ (-1)%Z)
      by (vm_compute; discriminate).
    exact (conj H6 (conj H7
             (proj2 (proj2 (preProcessMessage_frames_once Sample.twoTabs))
                _ _ H1 H6 H7))).
Defined.

(** C7 as stated fails: under a serializer that passes texts through, the
    text made of two tags and [hello] carries the framing, and the
    pre-processing step returns it as it is -- a result that starts with
    two copies of the tag. *)
Lemma preProcessMessage_frames_once_counterexample :
  let tag := PostMessageEventNamesEnum.PARENT_COMMUNICATED in
  config Sample.rawState = Some Sample.rawParent
  ∧ String.prefix tag Sample.doublyFramed = true
  ∧ tabUtils._preProcessMessage (VStr Sample.doublyFramed) Sample.rawState
    = Ret (Some Sample.doublyFramed)
  ∧ String.prefix (tag +:+ tag) Sample.doublyFramed = true.
Proof.
  cbv zeta. split; [reflexivity |]. repeat split; vm_compute; reflexivity.
Qed.

(** ** The life cycle of tab records *)

Section Lifecycle.

Implicit Types (st : State) (tab t : Tab) (K : nat → Prop).

(** Dropping records, closing windows and allocating objects keep a state
    safe. *)
Lemma Safe_shrink K st st' :
  Safe K st →
  tabs st' ⊆ tabs st →
  closedWindows st ⊆ closedWindows st' →
  objectsCreated st ≤ objectsCreated st' →
  Safe K st'.
Proof.
  intros [[H1 H2 H3 H4] [H5 H6]] Htabs Hclosed Hobjs. split; [split | split].
  - intros t Ht. apply H1, Htabs, Ht.
  - intros t Ht Hs. destruct (H2 t (Htabs _ Ht) Hs) as (ref & ? & ?).
    exists ref. split; [done |]. by apply Hclosed.
  - intros t Ht. specialize (H3 t (Htabs _ Ht)). lia.
  - intros t1 t2 Ht1 Ht2. apply H4; by apply Htabs.
  - intros k Hk. specialize (H5 k Hk). lia.
  - intros t Ht. apply H6, Htabs, Ht.
Qed.

Lemma Safe_frame K st st' :
  Safe K st →
  tabs st' = tabs st →
  closedWindows st' = closedWindows st →
  objectsCreated st' = objectsCreated st →
  Safe K st'.
Proof.
  intros HS Ht Hc Ho. apply (Safe_shrink K st); [done | | |].
  - by rewrite Ht.
  - by rewrite Hc.
  - by rewrite Ho.
Qed.

Lemma splice_subseteq {A} (start count : Z) (l : list A) : splice start count l ⊆ l.
Proof.
  unfold splice. intros x Hx. apply elem_of_app in Hx.
  destruct Hx as [Hx | Hx].
  - by eapply subseteq_take.
  - by eapply subseteq_drop.
Qed.

Lemma liveStatus_cases ref st :
  Parent.liveStatus ref st = TabStatusEnum.CLOSE ∧ ref ∈ closedWindows st
  ∨ Parent.liveStatus ref st = TabStatusEnum.OPEN ∧ ref ∉ closedWindows st.
Proof.
  unfold Parent.liveStatus, closed.
  destruct (decide (ref ∈ closedWindows st)) as [Hin | Hout].
  - left. by rewrite bool_decide_eq_true_2.
  - right. by rewrite bool_decide_eq_false_2.
Qed.

Lemma elem_of_mutate obj f data t' :
  t' ∈ mutate obj f data ↔
  ∃ t, t ∈ data ∧ t' = if bool_decide (tab_obj t = obj) then f t else t.
Proof.
  unfold mutate. rewrite list_elem_of_fmap.
  split; [intros (t & -> & Ht) | intros (t & Ht & ->)]; eauto.
Qed.

(** Refreshing the status of an object from its window keeps a state
    safe. *)
Lemma Safe_mutate K st obj ref :
  Safe K st →
  (∀ t, t ∈ tabs st → tab_obj t = obj → tab_ref t = Some ref) →
  Safe K (set_tabs (mutate obj (set_status (Parent.liveStatus ref st)) (tabs st)) st).
Proof.
  intros [[H1 H2 H3 H4] [H5 H6]] Href.
  assert (Hcase : ∀ t', t' ∈ mutate obj (set_status (Parent.liveStatus ref st)) (tabs st) →
            ∃ t, t ∈ tabs st ∧ tab_obj t' = tab_obj t ∧ tab_ref t' = tab_ref t
                 ∧ (tab_obj t ≠ obj ∧ t' = t
                    ∨ tab_obj t = obj
                      ∧ t' = set_status (Parent.liveStatus ref st) t)).
  { intros t' (t & Ht & ->)%elem_of_mutate. exists t. split; [done |].
    case_bool_decide; simpl; [by auto | by auto]. }
  split; [split | split]; simpl.
  - intros t' (t & Ht & _ & _ & [[_ ->] | [_ ->]])%Hcase; [by apply H1 |].
    simpl. destruct (liveStatus_cases ref st) as [[-> _] | [-> _]]; auto.
  - intros t' (t & Ht & _ & Hr & [[_ ->] | [Ho ->]])%Hcase Hs; [by apply H2 |].
    simpl in Hs. exists ref. split; [exact (Href t Ht Ho) |].
    destruct (liveStatus_cases ref st) as [[_ ?] | [Hopen _]]; [done |].
    by rewrite Hopen in Hs.
  - intros t' (t & Ht & -> & _)%Hcase. by apply H3.
  - intros t1' t2' (t1 & Ht1 & Ho1 & _ & Hc1)%Hcase (t2 & Ht2 & Ho2 & _ & Hc2)%Hcase Heq.
    assert (t1 = t2) as <- by (apply H4; [done | done | congruence]).
    by destruct Hc1 as [[? ->] | [? ->]], Hc2 as [[? ->] | [? ->]].
  - done.
  - intros t' (t & Ht & Ho & _ & [[_ ->] | [Hobj ->]])%Hcase HK; [by apply H6 |].
    simpl. rewrite Ho in HK. pose proof (H6 t Ht HK) as Hs.
    destruct (H2 t Ht Hs) as (ref' & Hr' & Hin).
    rewrite (Href t Ht Hobj) in Hr'. injection Hr' as <-.
    destruct (liveStatus_cases ref st) as [[-> _] | [_ ?]]; done.
Qed.

Lemma liveStatus_closed ref st :
  ref ∈ closedWindows st → Parent.liveStatus ref st = TabStatusEnum.CLOSE.
Proof.
  intros Hin. by destruct (liveStatus_cases ref st) as [[-> _] | [_ ?]].
Qed.

Lemma same_object st tab ref :
  Good st → tab ∈ tabs st → tab_ref tab = Some ref →
  ∀ t, t ∈ tabs st → tab_obj t = tab_obj tab → tab_ref t = Some ref.
Proof.
  intros HG Htab Href t Ht Hobj.
  by rewrite (good_object st HG t tab Ht Htab Hobj).
Qed.

Lemma Safe_close K st ref : Safe K st → Safe K (close ref st).
Proof.
  intros HS. apply (Safe_shrink K st); [done | done | | done].
  simpl. set_solver.
Qed.

Lemma Safe_remove K st tab : Safe K st → Safe K (tabUtils._remove tab st).
Proof.
  intros HS. unfold tabUtils._remove, arrayUtils.searchByKeyName. simpl.
  apply (Safe_shrink K st); [done | apply splice_subseteq | done | done].
Qed.

Lemma Safe_watchStatus K st (arg : option Tab) :
  Safe K st → Safe K (Parent.watchStatus arg st).
Proof.
  intros HS. unfold Parent.watchStatus.
  destruct arg as [tab|]; [| done]. destruct (tab_ref tab); [| done].
  destruct (_ || _); [done |]. destruct (_ && _); [| done].
  by apply Safe_remove.
Qed.

Lemma Safe_addInterval_body K this i st :
  Safe K st → Safe K (Parent.addInterval_body this i st).
Proof.
  intros HS. unfold Parent.addInterval_body.
  set (st1 := if removeClosedTabs this then _ else st).
  assert (HS1 : Safe K st1).
  { subst st1. destruct (removeClosedTabs this); [| done].
    by apply Safe_watchStatus. }
  clearbody st1. destruct (tabs st1 !! i) as [tab|] eqn:Hi; [| done].
  destruct (tab_ref tab) as [ref|] eqn:Href; [| done].
  apply Safe_mutate; [done |].
  apply same_object; [apply HS1 | by eapply list_elem_of_lookup_2 | done].
Qed.

Lemma Safe_addInterval_loop K this fuel i st :
  Safe K st → Safe K (Parent.addInterval_loop fuel this i st).
Proof.
  revert i st. induction fuel as [|fuel IH]; intros i st HS; simpl; [done |].
  case_bool_decide; [| done]. by apply IH, Safe_addInterval_body.
Qed.

Lemma Safe_addInterval K this st : Safe K st → Safe K (Parent.addInterval this st).
Proof.
  intros HS. unfold Parent.addInterval.
  destruct (tabUtils.getOpened st).
  - by apply (Safe_frame K st).
  - pose proof (Safe_addInterval_loop K this (length (tabs st)) 0 st HS) as HS'.
    destruct (onPollingCallback this); [| done].
    by apply (Safe_frame K _ _ HS').
Qed.

(** Closing through a reference: the window is closed first, so CLOSE is
    also what the window reports. *)
Lemma Safe_close_object K st obj ref :
  Safe K st →
  (∀ t, t ∈ tabs st → tab_obj t = obj → tab_ref t = Some ref) →
  Safe K (set_tabs (mutate obj (set_status TabStatusEnum.CLOSE)
                      (tabs (close ref st))) (close ref st)).
Proof.
  intros HS Href.
  rewrite <-(liveStatus_closed ref (close ref st)) by (simpl; set_solver).
  apply Safe_mutate; [by apply Safe_close | done].
Qed.

Lemma Safe_closeTab K id st : Safe K st → Safe K (tabUtils.closeTab id st).
Proof.
  intros HS. unfold tabUtils.closeTab, arrayUtils.searchByKeyName.
  destruct (_ =? -1)%Z; [done |].
  destruct (tabs st !! _) as [tab|] eqn:Hi; [| done].
  destruct (tab_ref tab) as [ref|] eqn:Href; [| done].
  apply Safe_close_object; [done |].
  apply same_object; [apply HS | by eapply list_elem_of_lookup_2 | done].
Qed.

Lemma Safe_closeAll_fold K l st :
  Safe K st →
  (∀ x t, x ∈ l → t ∈ tabs st → tab_obj t = tab_obj x → tab_ref t = tab_ref x) →
  Safe K (foldl tabUtils.closeAll_step st l).
Proof.
  revert st. induction l as [|x l IH]; intros st HS Hsame; simpl; [done |].
  assert (Hrest : ∀ st', (∀ t', t' ∈ tabs st' →
                            ∃ t, t ∈ tabs st ∧ tab_obj t' = tab_obj t
                                 ∧ tab_ref t' = tab_ref t) →
                  ∀ y t', y ∈ l → t' ∈ tabs st' → tab_obj t' = tab_obj y →
                          tab_ref t' = tab_ref y).
  { intros st' Hst' y t' Hy Ht' Hobj. destruct (Hst' t' Ht') as (t & Ht & Ho & ->).
    apply Hsame; [by right | done | congruence]. }
  apply IH.
  - unfold tabUtils.closeAll_step. destruct (tab_ref x) as [ref|] eqn:Href; [| done].
    apply Safe_close_object; [done |].
    intros t Ht Hobj. rewrite <- Href. apply Hsame; [by left | done | done].
  - apply Hrest. unfold tabUtils.closeAll_step.
    destruct (tab_ref x) as [ref|]; [| by eauto].
    intros t' (t & Ht & ->)%elem_of_mutate. exists t. split; [done |].
    by case_bool_decide.
Qed.

Lemma Safe_closeAll K st : Safe K st → Safe K (tabUtils.closeAll st).
Proof.
  intros HS. apply Safe_closeAll_fold; [done |].
  intros x t Hx Ht Hobj. by rewrite (good_object st (proj1 HS) t x Ht Hx Hobj).
Qed.

Lemma Safe_create K options random opened st :
  Safe K st → Safe K (TabClass.create options random opened st).2.
Proof.
  intros [[H1 H2 H3 H4] [H5 H6]].
  pose proof (create_facts options random opened st) as Hc.
  destruct (TabClass.create options random opened st) as [tab st'].
  destruct Hc as (Htabs & Hstatus & _ & Hobj & _ & Hobjs & _ & _ & _ & Hclosed).
  cbn [snd].
  assert (Hin : ∀ t, t ∈ tabs st' → t ∈ tabs st ∨ t = tab).
  { intros t. rewrite Htabs, elem_of_app, list_elem_of_singleton. tauto. }
  split; [split | split].
  - intros t [Ht | ->]%Hin; [by apply H1 | by left].
  - intros t [Ht | ->]%Hin Hs.
    + rewrite Hclosed. by apply H2.
    + by rewrite Hstatus in Hs.
  - intros t [Ht | ->]%Hin; [specialize (H3 t Ht) |]; lia.
  - intros t1 t2 [Ht1 | ->]%Hin [Ht2 | ->]%Hin Heq; [by apply H4 | | | done].
    + specialize (H3 t1 Ht1). lia.
    + specialize (H3 t2 Ht2). lia.
  - intros k Hk. specialize (H5 k Hk). lia.
  - intros t [Ht | ->]%Hin HK; [by apply H6 |].
    specialize (H5 _ HK). lia.
Qed.

Lemma Safe_openNewTab K this options random opened st :
  Safe K st → Safe K (Parent.openNewTab this options random opened st).2.
Proof.
  intros HS. unfold Parent.openNewTab.
  destruct options as [o|]; [| done].
  destruct (Parent.url_missing (cfg_url o)); [done |].
  assert (HS0 : Safe K (TabClass.constructor st)) by by apply (Safe_frame K st).
  pose proof (Safe_create K (Some o) random opened _ HS0) as HS1.
  destruct (TabClass.create (Some o) random opened (TabClass.constructor st))
    as [tab st1]. cbn [snd] in *.
  destruct (Parent.not_polling st1); [| done].
  by apply (Safe_frame K st1).
Qed.

Lemma Safe_constructor K JSON options st :
  Safe K st → Safe K (Parent.constructor JSON options st).2.
Proof.
  intros HS. unfold Parent.constructor. cbn [snd].
  destruct (shouldInitImmediately _);
    (apply (Safe_shrink K st); [done | | done | done]);
    simpl; apply list_subseteq_nil.
Qed.

Lemma Safe_step K JSON st op : Safe K st → Safe K (step JSON st op).
Proof.
  intros HS. destruct op; cbn [step].
  - by apply Safe_constructor.
  - by apply Safe_openNewTab.
  - apply Safe_create. by apply (Safe_frame K st).
  - by apply Safe_closeTab.
  - by apply Safe_closeAll.
  - destruct (intervals st !! timer); [by apply Safe_addInterval | done].
  - by apply Safe_addInterval.
  - by apply Safe_watchStatus.
  - by apply Safe_remove.
  - by apply Safe_close.
Qed.

Lemma Safe_run K JSON ops st : Safe K st → Safe K (run JSON st ops).
Proof.
  revert st. induction ops as [|op ops IH]; intros st HS; simpl; [done |].
  by apply IH, Safe_step.
Qed.

Lemma Safe_initial name : Safe (λ _, False) (initialState name).
Proof.
  split; [split | split]; simpl; try done;
    try (intros t Ht; by apply elem_of_nil in Ht).
  intros t1 t2 Ht1. by apply elem_of_nil in Ht1.
Qed.

(** Every state the page can reach is well formed. *)
Lemma Good_reachable JSON name ops : Good (run JSON (initialState name) ops).
Proof. apply (Safe_run (λ _, False)), Safe_initial. Qed.

End Lifecycle.

(** ** Loops run to completion *)

Lemma length_mutate obj f (data : list Tab) : length (mutate obj f data) = length data.
Proof. unfold mutate. by rewrite length_fmap. Qed.

Lemma length_splice {A} (start count : Z) (l : list A) :
  length (splice start count l) ≤ length l.
Proof.
  unfold splice. rewrite length_app, length_take, length_drop. lia.
Qed.

Lemma length_addInterval_body this i st :
  length (tabs (Parent.addInterval_body this i st)) ≤ length (tabs st).
Proof.
  unfold Parent.addInterval_body.
  set (st1 := if removeClosedTabs this then _ else st).
  assert (H1 : length (tabs st1) ≤ length (tabs st)).
  { subst st1. destruct (removeClosedTabs this); [| done].
    unfold Parent.watchStatus. destruct (tabs st !! i) as [tab|]; [| done].
    destruct (tab_ref tab); [| done]. destruct (_ || _); [done |].
    destruct (_ && _); [| done].
    unfold tabUtils._remove, arrayUtils.searchByKeyName. simpl.
    apply length_splice. }
  clearbody st1. destruct (tabs st1 !! i) as [tab|]; [| done].
  destruct (tab_ref tab); [| done]. simpl. by rewrite length_mutate.
Qed.

(** The polling loop stops because its index has passed the end of the
    array: the length of the registry at the start is fuel enough, and more
    fuel changes nothing. *)
Lemma addInterval_loop_enough this fuel fuel' i st :
  length (tabs st) - i ≤ fuel →
  length (tabs st) - i ≤ fuel' →
  Parent.addInterval_loop fuel this i st = Parent.addInterval_loop fuel' this i st.
Proof.
  revert fuel' i st. induction fuel as [|fuel IH]; intros [|fuel'] i st H1 H2; simpl;
    try done; try (case_bool_decide; [lia | done]).
  case_bool_decide; [| done].
  pose proof (length_addInterval_body this i st). apply IH; lia.
Qed.

(** The padding loop of the hex aligner halves [i] until it is zero. *)
Lemma align_loop_enough fuel fuel' i z str :
  (i < 2 ^ Z.of_nat fuel)%Z →
  (i < 2 ^ Z.of_nat fuel')%Z →
  UUID.align_loop fuel i z str = UUID.align_loop fuel' i z str.
Proof.
  revert fuel' i z str.
  induction fuel as [|fuel IH]; intros [|fuel'] i z str H1 H2; simpl; try done.
  - destruct (Z.ltb_spec 0 i); [| done]. simpl in H1. lia.
  - destruct (Z.ltb_spec 0 i); [| done]. simpl in H2. lia.
  - destruct (Z.ltb_spec 0 i); [| done].
    apply IH; rewrite Z.shiftr_div_pow2 by lia;
      apply Z.div_lt_upper_bound; try lia;
      rewrite <- Z.pow_succ_r by lia; by rewrite <- Nat2Z.inj_succ.
Qed.

Lemma align_fuel i : (i < 2 ^ Z.of_nat (Z.to_nat i))%Z.
Proof.
  destruct (Z.le_gt_cases i 0) as [Hi | Hi].
  - rewrite Z2Nat.nonpos by done. simpl. lia.
  - rewrite Z2Nat.id by lia. apply Z.pow_gt_lin_r; lia.
Qed.

(** ** The polling timer *)

Section PollingTimer.

Implicit Types (st : State).

(** The part of the state that [Polling] reads. *)
Let timers st : option nat * gmap nat ParentConfig := (heartBeat st, intervals st).

Lemma timers_remove tab st : timers (tabUtils._remove tab st) = timers st.
Proof. unfold tabUtils._remove, arrayUtils.searchByKeyName. by simpl. Qed.

Lemma timers_watchStatus arg st : timers (Parent.watchStatus arg st) = timers st.
Proof.
  unfold Parent.watchStatus. destruct arg as [tab|]; [| done].
  destruct (tab_ref tab); [| done]. destruct (_ || _); [done |].
  destruct (_ && _); [apply timers_remove | done].
Qed.

Lemma timers_addInterval_body this i st :
  timers (Parent.addInterval_body this i st) = timers st.
Proof.
  unfold Parent.addInterval_body.
  set (st1 := if removeClosedTabs this then _ else st).
  assert (H1 : timers st1 = timers st).
  { subst st1. destruct (removeClosedTabs this); [apply timers_watchStatus | done]. }
  clearbody st1. destruct (tabs st1 !! i) as [tab|]; [| done].
  by destruct (tab_ref tab).
Qed.

Lemma timers_addInterval_loop this fuel i st :
  timers (Parent.addInterval_loop fuel this i st) = timers st.
Proof.
  revert i st. induction fuel as [|fuel IH]; intros i st; simpl; [done |].
  case_bool_decide; [| done]. by rewrite IH, timers_addInterval_body.
Qed.

Lemma timers_closeTab id st : timers (tabUtils.closeTab id st) = timers st.
Proof.
  unfold tabUtils.closeTab, arrayUtils.searchByKeyName.
  destruct (_ =? -1)%Z; [done |]. destruct (tabs st !! _) as [tab|]; [| done].
  by destruct (tab_ref tab).
Qed.

Lemma timers_closeAll st : timers (tabUtils.closeAll st) = timers st.
Proof.
  unfold tabUtils.closeAll. generalize (tabs st) at 1 as l. intros l.
  revert st. induction l as [|x l IH]; intros st; simpl; [done |].
  rewrite IH. unfold tabUtils.closeAll_step. by destruct (tab_ref x).
Qed.

Lemma timers_create options random opened st :
  timers (TabClass.create options random opened st).2 = timers st.
Proof.
  pose proof (create_facts options random opened st) as H.
  destruct (TabClass.create options random opened st) as [tab st'].
  destruct H as (_ & _ & _ & _ & _ & _ & Hhb & Hint & _). simpl.
  unfold timers. by rewrite Hhb, Hint.
Qed.

Lemma Polling_timers st st' : timers st' = timers st → Polling st → Polling st'.
Proof. unfold timers, Polling. by intros [= -> ->]. Qed.

Lemma Polling_start this st : Polling (Parent.startPollingTabs this st).
Proof.
  unfold Polling, Parent.startPollingTabs. simpl. split; [lia |].
  rewrite lookup_insert_eq. by eexists.
Qed.

Lemma Polling_addInterval this st : Polling st → Polling (Parent.addInterval this st).
Proof.
  intros HP. unfold Parent.addInterval. destruct (tabUtils.getOpened st); [done |].
  pose proof (timers_addInterval_loop this (length (tabs st)) 0 st) as Hl.
  destruct (onPollingCallback this); by apply (Polling_timers st).
Qed.

Lemma Polling_step JSON st op : Polling st → Polling (step JSON st op).
Proof.
  intros HP. destruct op; cbn [step].
  - unfold Parent.constructor. cbn [snd]. by destruct (shouldInitImmediately _).
  - unfold Parent.openNewTab. destruct options as [o|]; [| done].
    destruct (Parent.url_missing (cfg_url o)); [done |].
    pose proof (timers_create (Some o) random opened (TabClass.constructor st)) as Hc.
    destruct (TabClass.create (Some o) random opened (TabClass.constructor st))
      as [tab st1]. cbn [snd] in *.
    destruct (Parent.not_polling st1); [apply Polling_start |].
    by apply (Polling_timers st).
  - apply (Polling_timers st); [| done].
    by rewrite timers_create.
  - apply (Polling_timers st); [apply timers_closeTab | done].
  - apply (Polling_timers st); [apply timers_closeAll | done].
  - destruct (intervals st !! timer); [by apply Polling_addInterval | done].
  - by apply Polling_addInterval.
  - apply (Polling_timers st); [apply timers_watchStatus | done].
  - apply (Polling_timers st); [apply timers_remove | done].
  - done.
Qed.

(** In every state the page can reach, a truthy [heartBeat] names a timer
    that is running: the test of [openNewTab] tells whether polling is on. *)
Lemma heartBeat_is_running JSON name ops :
  Polling (run JSON (initialState name) ops).
Proof.
  assert (H : ∀ st, Polling st → Polling (run JSON st ops)).
  { induction ops as [|op ops IH]; intros st HP; simpl; [done |].
    by apply IH, Polling_step. }
  by apply H.
Qed.

End PollingTimer.

(** ** The registry partition *)

Lemma filter_closed_complement (l : list Tab) :
  Forall (λ t, tab_status t = TabStatusEnum.OPEN
               ∨ tab_status t = TabStatusEnum.CLOSE) l →
  filter (λ t, tab_status t = TabStatusEnum.CLOSE) l
  = filter (λ t, ¬ tab_status t = TabStatusEnum.OPEN) l.
Proof.
  induction 1 as [|t l Ht _ IH]; [done |].
  rewrite !filter_cons, IH.
  destruct Ht as [Ht | Ht]; rewrite Ht;
    repeat (case_decide; try done).
Qed.

(** C5. After any sequence of operations on the parent page -- additions
    through [Tab.create], removals, and everything else the page can do --
    every record of [getAll()] has status OPEN or CLOSE, [getOpened()]
    followed by [getClosed()] is a rearrangement of [getAll()], and every
    record of [getAll()] is in exactly one of the two. *)
Theorem registry_partition JSON name ops :
  let st := run JSON (initialState name) ops in
  Forall (λ t, tab_status t = TabStatusEnum.OPEN
               ∨ tab_status t = TabStatusEnum.CLOSE) (tabUtils.getAll st)
  ∧ tabUtils.getOpened st ++ tabUtils.getClosed st ≡ₚ tabUtils.getAll st
  ∧ Forall (λ t, t ∈ tabUtils.getOpened st ∧ t ∉ tabUtils.getClosed st
                 ∨ t ∈ tabUtils.getClosed st ∧ t ∉ tabUtils.getOpened st)
      (tabUtils.getAll st).
Proof.
  intros st. pose proof (Good_reachable JSON name ops) as HG. fold st in HG.
  assert (Hstatus : Forall (λ t, tab_status t = TabStatusEnum.OPEN
                                 ∨ tab_status t = TabStatusEnum.CLOSE) (tabs st)).
  { apply Forall_forall. apply HG. }
  split; [done |]. split.
  - unfold tabUtils.getOpened, tabUtils.getClosed, tabUtils.getAll.
    rewrite filter_closed_complement by done. apply filter_app_complement.
  - apply Forall_forall. intros t Ht.
    unfold tabUtils.getOpened, tabUtils.getClosed, tabUtils.getAll in *.
    rewrite !list_elem_of_filter.
    destruct (good_status st HG t Ht) as [Hs | Hs]; rewrite Hs; [left | right];
      (split; [done | by intros [? _]]).
Qed.

(** ** Terminal status *)

(** C2. Once the status of a record of the registry is CLOSE, no later
    operation -- closing, a polling tick, [watchStatus], or any other
    operation of the page -- gives that object the status OPEN again:
    wherever the registry still lists it, its status is CLOSE.  (A window
    that is closed stays closed: [closedWindows] only grows, and a closed
    record always points at a closed window.) *)
Theorem closed_is_terminal JSON name ops1 ops2 t t' :
  t ∈ tabs (run JSON (initialState name) ops1) →
  tab_status t = TabStatusEnum.CLOSE →
  t' ∈ tabs (run JSON (run JSON (initialState name) ops1) ops2) →
  tab_obj t' = tab_obj t →
  tab_status t' = TabStatusEnum.CLOSE.
Proof.
  intros Ht Hs Ht' Hobj.
  pose proof (Good_reachable JSON name ops1) as HG.
  set (st := run JSON (initialState name) ops1) in *.
  assert (HS : Safe (λ k, k = tab_obj t) st).
  { split; [done |]. split.
    - intros k ->. by apply (good_fresh st HG).
    - intros t2 Ht2 Hk. by rewrite (good_object st HG t2 t Ht2 Ht Hk). }
  apply (Safe_run _ JSON ops2) in HS. destruct HS as [_ [_ Hsealed]].
  by apply Hsealed.
Qed.

(** C2, witness: a tab closed through [closeTab] stays closed through
    polling ticks and [watchStatus]. *)
Lemma closed_is_terminal_witness :
  Sample.closedTab ∈ tabs (run Json.JSON (initialState "") Sample.openThenClose)
  ∧ tab_status Sample.closedTab = TabStatusEnum.CLOSE
  ∧ Sample.closedTab
      ∈ tabs (run Json.JSON (run Json.JSON (initialState "") Sample.openThenClose)
                Sample.keepPolling)
  ∧ tab_status Sample.closedTab = TabStatusEnum.CLOSE.
Proof.
  assert (H1 : Sample.closedTab
                 ∈ tabs (run Json.JSON (initialState "") Sample.openThenClose)).
  { vm_compute. apply list_elem_of_here. }
  assert (H2 : tab_status Sample.closedTab = TabStatusEnum.CLOSE) by reflexivity.
  assert (H3 : Sample.closedTab
                 ∈ tabs (run Json.JSON
                           (run Json.JSON (initialState "") Sample.openThenClose)
                           Sample.keepPolling)).
  { vm_compute. apply list_elem_of_here. }
  exact (conj H1 (conj H2 (conj H3
           (closed_is_terminal Json.JSON "" Sample.openThenClose
              Sample.keepPolling Sample.closedTab Sample.closedTab
              H1 H2 H3 eq_refl)))).
Defined.

(** ** The child page *)

Section ChildStatements.

Context {A B : Type}.

Implicit Types (I : Child.Page → Prop) (p : Child.Page).

Lemma preserves_ret I (a : A) : preserves I (Child.ret a).
Proof. by intros p Hp. Qed.

Lemma preserves_throw I e : preserves I (@Child.throw A e).
Proof. by intros p Hp. Qed.

Lemma preserves_gets I (f : Child.Page → A) : preserves I (Child.gets f).
Proof. by intros p Hp. Qed.

Lemma preserves_modify I f : stable I f → preserves I (Child.modify f).
Proof. intros Hf p Hp. by apply Hf. Qed.

Lemma preserves_bind I (m : Child.M A) (k : A → Child.M B) :
  preserves I m → (∀ a, preserves I (k a)) → preserves I (Child.bind m k).
Proof.
  intros Hm Hk p Hp. unfold Child.bind. specialize (Hm p Hp).
  destruct (m p) as [[a|e] p']; [by apply Hk | done].
Qed.

End ChildStatements.

Lemma preserves_when I b m : preserves I m → preserves I (Child.when b m).
Proof. intros Hm. destruct b; [done | apply preserves_ret]. Qed.

Create HintDb frame.

#[local] Hint Resolve preserves_ret preserves_throw preserves_gets
  preserves_modify preserves_when : frame.

Ltac frame :=
  repeat first
    [ apply preserves_bind; [| intros ?]
    | progress eauto with frame ].

Section ChildBlocks.

Variable this : Child.Config.
Variable I : Child.Page → Prop.

Hypothesis stable_call : ∀ c, stable I (Child.call c).

Lemma preserves_onParentCommunicated d :
  preserves I (Child.onParentCommunicated this d).
Proof.
  unfold Child.onParentCommunicated. destruct (Child.decode this d _); frame.
Qed.

Lemma preserves_onParentDisconnected :
  stable I Child.removeEventListener_arrow →
  preserves I (Child.onParentDisconnected this).
Proof. intros Hremove. unfold Child.onParentDisconnected. frame. Qed.

Hypothesis stable_post : ∀ m o, stable I (Child.postMessage m o).

Lemma preserves_sendMessageToParent msg type :
  preserves I (Child.sendMessageToParent this msg type).
Proof.
  unfold Child.sendMessageToParent. destruct (Child.encode this _ msg); frame.
Qed.

Lemma preserves_onHandshakeWithParent d :
  (∀ k v, stable I (Child.setItem k v)) →
  (∀ a b c, stable I (Child.set_identity a b c)) →
  preserves I (Child.onHandshakeWithParent this d).
Proof.
  intros Hset Hid. unfold Child.onHandshakeWithParent, Child._setData, Child._parseData.
  destruct (parse (Child.codec this) _);
    frame; apply preserves_sendMessageToParent.
Qed.

End ChildBlocks.

(** A state change that leaves alone the fields [I] reads. *)
Ltac untouched := unfold stable; intros; simpl in *; auto.

Section ChildTheorems.

Variable this : Child.Config.

Lemma preserves_dispatch I d :
  (∀ c, stable I (Child.call c)) →
  (∀ m o, stable I (Child.postMessage m o)) →
  (∀ k v, stable I (Child.setItem k v)) →
  (∀ a b c, stable I (Child.set_identity a b c)) →
  stable I Child.removeEventListener_arrow →
  preserves I (Child.dispatch this d).
Proof.
  intros Hcall Hpost Hset Hid Hremove. unfold Child.dispatch.
  frame; eauto using preserves_onParentDisconnected,
    preserves_onHandshakeWithParent, preserves_onParentCommunicated with frame.
Qed.

(** An accepted message is a non-empty text; the timer is cleared and the
    text dispatched. *)
Lemma onCommunication_accepted message p :
  Child.accepted this message = true →
  ∃ d, Child.data message = VStr d
       ∧ Child.onCommunication this message p
         = Child.dispatch this d (Child.clearTimeout (Child.timeout p) p).
Proof.
  intros Hacc. unfold Child.onCommunication. rewrite Hacc. simpl.
  unfold Child.accepted in Hacc.
  destruct (Child.data message) as [| | | |d| |]; try done. by exists d.
Qed.

(** C8 (amended). For every inbound message whose payload is a non-empty
    text and whose origin is the configured one when an origin is
    configured, the handshake-expiry timer held in [this.timeout] is no
    longer pending afterwards, whatever tags the text carries or lacks. *)
Theorem expiry_timer_cancelled message p d t :
  Child.data message = VStr d →
  d ≠ "" →
  (∀ o, Child.origin this = Some o → o ≠ "" → o = Child.sender message) →
  Child.timeout p = Some t →
  t ∉ Child.timeouts (Child.onCommunication this message p).2.
Proof.
  intros Hd Hne Horigin Ht.
  assert (Hacc : Child.accepted this message = true).
  { unfold Child.accepted. rewrite Hd.
    destruct d as [|c d]; [done |]. cbn [JS.is_empty negb andb].
    destruct (Child.origin this) as [o|] eqn:Ho; [| done].
    destruct o as [|c' o]; [done |]. cbn [or_else JS.is_empty].
    rewrite (Horigin _ eq_refl) by done. by rewrite String.eqb_refl. }
  destruct (onCommunication_accepted message p Hacc) as (d' & _ & ->).
  apply (preserves_dispatch (λ q, t ∉ Child.timeouts q)); try by untouched.
  rewrite Ht. simpl. rewrite elem_of_difference, elem_of_singleton. tauto.
Qed.

End ChildTheorems.

(** C8, witness: a message without any event tag, from any origin. *)
Lemma expiry_timer_cancelled_witness :
  Child.data Sample.untagged = VStr "ping"
  ∧ "ping" ≠ ""
  ∧ Child.timeout Sample.childPage = Some 1
  ∧ 1 ∉ Child.timeouts
          (Child.onCommunication Sample.child Sample.untagged Sample.childPage).2.
Proof.
  assert (H1 : Child.data Sample.untagged = VStr "ping") by reflexivity.
  assert (H2 : "ping" ≠ "") by discriminate.
  assert (H3 : ∀ o, Child.origin Sample.child = Some o → o ≠ "" →
                    o = Child.sender Sample.untagged) by discriminate.
  assert (H4 : Child.timeout Sample.childPage = Some 1) by (vm_compute; reflexivity).
  exact (conj H1 (conj H2 (conj H4
           (expiry_timer_cancelled Sample.child Sample.untagged Sample.childPage
              "ping" 1 H1 H2 H3 H4)))).
Defined.

(** C8 as stated fails: the empty text is a string payload and, no origin
    being configured, passes the origin check; yet the child returns
    before it cancels the timer, the page is left as it was, and the timer
    fires later and calls [onHandShakeExpiry]. *)
Lemma expiry_timer_counterexample :
  let message := Sample.emptyText in
  let p' := (Child.onCommunication Sample.child message Sample.childPage).2 in
  Child.data message = VStr ""
  ∧ Child.origin Sample.child = None
  ∧ Child.timeout Sample.childPage = Some 1
  ∧ p' = Sample.childPage
  ∧ bool_decide (1 ∈ Child.timeouts p') = true
  ∧ Child.calls (Child.expire Sample.child 1 p')
    = Child.calls p' ++ [Child.HandShakeExpiry].
Proof. cbv zeta. repeat split; vm_compute; reflexivity. Qed.

Section ChildHandshake.

Variable this : Child.Config.

Lemma disconnected_returns b q :
  (Child.when b (Child.onParentDisconnected this) q).1 = Ret tt.
Proof.
  destruct b; [| done]. unfold Child.onParentDisconnected, Child.when, Child.bind.
  by destruct (Child.onParentDisconnect this).
Qed.

(** What the HANDSHAKE_WITH_PARENT block does when the piece after the tag
    parses and the reply serializes: store, adopt, reply, notify. *)
Lemma handshake_effects d q v reply :
  Child.decode this d PostMessageEventNamesEnum.HANDSHAKE_WITH_PARENT = Some v →
  Child.encode this PostMessageEventNamesEnum.HANDSHAKE
    (VObj [("id", and_get v "id");
           ("isSiteInsideFrame", Child.isSiteInsideFrame this)]) = Ret reply →
  let seg := Child.text_of
               (JS.split d PostMessageEventNamesEnum.HANDSHAKE_WITH_PARENT !! 1) in
  let q1 := if Child.isSessionStorageSupported q
            then Child.setItem Child.sessionStorageKey seg q else q in
  let q2 := Child.set_identity (and_get v "id") (and_get v "name")
              (and_get v "parentName") q1 in
  let q3 := if Child.hasOpener q
            then Child.postMessage reply (Child.targetOrigin this) q2 else q2 in
  let q4 := if Child.onInitialize this then Child.call Child.Initialize q3 else q3 in
  Child.onHandshakeWithParent this d q = (Ret tt, q4).
Proof.
  intros Hdec Henc. unfold Child.decode in Hdec. cbv zeta.
  unfold Child.onHandshakeWithParent, Child._setData, Child._parseData,
    Child.sendMessageToParent.
  rewrite Hdec. unfold Child.bind, Child.gets, Child.modify, Child.when, Child.ret.
  destruct (Child.isSessionStorageSupported q) eqn:Hs; cbn -[Child.encode];
    rewrite Henc; cbn;
    destruct (Child.hasOpener q), (Child.onInitialize this); reflexivity.
Qed.

(** The dispatch of a text with the HANDSHAKE_WITH_PARENT tag. *)
Lemma dispatch_handshake d q v reply :
  Child.tagged d PostMessageEventNamesEnum.HANDSHAKE_WITH_PARENT = true →
  Child.decode this d PostMessageEventNamesEnum.HANDSHAKE_WITH_PARENT = Some v →
  Child.encode this PostMessageEventNamesEnum.HANDSHAKE
    (VObj [("id", and_get v "id");
           ("isSiteInsideFrame", Child.isSiteInsideFrame this)])
    = Ret reply →
  let r := (Child.dispatch this d q).2 in
  let seg := Child.text_of
               (JS.split d PostMessageEventNamesEnum.HANDSHAKE_WITH_PARENT !! 1) in
  Child.tabId r = and_get v "id"
  ∧ Child.tabName r = and_get v "name"
  ∧ Child.tabParentName r = and_get v "parentName"
  ∧ Child.sessionStorage r
    = (if Child.isSessionStorageSupported q
       then <[Child.sessionStorageKey := seg]> (Child.sessionStorage q)
       else Child.sessionStorage q)
  ∧ Child.posted r
    = (if Child.hasOpener q
       then Child.posted q ++ [(reply, Child.targetOrigin this)]
       else Child.posted q)
  ∧ Child.timeouts r = Child.timeouts q.
Proof.
  intros Htag Hdec Henc. cbv zeta.
  (* the PARENT_DISCONNECTED block touches none of the fields concerned *)
  set (J := λ r : Child.Page,
         Child.isSessionStorageSupported r = Child.isSessionStorageSupported q
         ∧ Child.hasOpener r = Child.hasOpener q
         ∧ Child.posted r = Child.posted q
         ∧ Child.sessionStorage r = Child.sessionStorage q
         ∧ Child.timeouts r = Child.timeouts q).
  pose proof (preserves_when J
                (Child.tagged d PostMessageEventNamesEnum.PARENT_DISCONNECTED) _
                (preserves_onParentDisconnected this J ltac:(by untouched)
                   ltac:(by untouched)) q ltac:(done)) as HJA.
  pose proof (disconnected_returns
                (Child.tagged d PostMessageEventNamesEnum.PARENT_DISCONNECTED) q)
    as HretA.
  unfold Child.dispatch, Child.bind.
  destruct (Child.when _ (Child.onParentDisconnected this) q) as [rA qA].
  simpl in HretA, HJA. subst rA. destruct HJA as (Hs & Ho & Hp & Hst & Htm).
  (* the HANDSHAKE_WITH_PARENT block *)
  rewrite Htag. cbn [Child.when].
  rewrite (handshake_effects d qA _ reply Hdec Henc). rewrite Hs, Ho.
  (* the PARENT_COMMUNICATED block only calls back *)
  match goal with
  | |- context [(Child.when ?b ?m ?x).2] =>
      set (qB := x);
      set (L := λ r : Child.Page,
             Child.tabId r = Child.tabId qB
             ∧ Child.tabName r = Child.tabName qB
             ∧ Child.tabParentName r = Child.tabParentName qB
             ∧ Child.sessionStorage r = Child.sessionStorage qB
             ∧ Child.posted r = Child.posted qB
             ∧ Child.timeouts r = Child.timeouts qB);
      pose proof (preserves_when L b m
                    (preserves_onParentCommunicated this L ltac:(by untouched) d)
                    qB ltac:(done)) as (-> & -> & -> & -> & -> & ->)
  end.
  subst qB.
  destruct (Child.isSessionStorageSupported q), (Child.hasOpener q),
    (Child.onInitialize this); simpl; by rewrite ?Hp, ?Hst, ?Htm.
Qed.

(** C4 (amended). When the child receives an accepted message that
    carries the HANDSHAKE_WITH_PARENT tag and whose piece after the tag
    parses to a value [v], then: its identity fields become [v.id],
    [v.name] and [v.parentName] -- [undefined] for a field that [v] lacks,
    as [name] in the acknowledgement for a tab opened without a name, and
    [v] itself when it is [null]; that piece is written to the session
    store under the fixed key if session storage is supported, and the
    store is left as it was otherwise; the HANDSHAKE envelope of
    [{id, isSiteInsideFrame}] is posted to the opener if the window has
    one, and nothing is posted otherwise; and the expiry timer is no
    longer pending. *)
Theorem handshake_ack_effects message p d v reply :
  Child.data message = VStr d →
  Child.accepted this message = true →
  Child.tagged d PostMessageEventNamesEnum.HANDSHAKE_WITH_PARENT = true →
  Child.decode this d PostMessageEventNamesEnum.HANDSHAKE_WITH_PARENT = Some v →
  Child.encode this PostMessageEventNamesEnum.HANDSHAKE
    (VObj [("id", and_get v "id");
           ("isSiteInsideFrame", Child.isSiteInsideFrame this)])
    = Ret reply →
  let p' := (Child.onCommunication this message p).2 in
  let seg := Child.text_of
               (JS.split d PostMessageEventNamesEnum.HANDSHAKE_WITH_PARENT !! 1) in
  Child.tabId p' = and_get v "id"
  ∧ Child.tabName p' = and_get v "name"
  ∧ Child.tabParentName p' = and_get v "parentName"
  ∧ Child.sessionStorage p'
    = (if Child.isSessionStorageSupported p
       then <[Child.sessionStorageKey := seg]> (Child.sessionStorage p)
       else Child.sessionStorage p)
  ∧ Child.posted p'
    = (if Child.hasOpener p
       then Child.posted p ++ [(reply, Child.targetOrigin this)]
       else Child.posted p)
  ∧ ∀ t, Child.timeout p = Some t → t ∉ Child.timeouts p'.
Proof.
  intros Hd Hacc Htag Hdec Henc.
  destruct (onCommunication_accepted this message p Hacc) as (d' & Hd' & Hrun).
  rewrite Hd in Hd'. injection Hd' as <-. cbv zeta. rewrite Hrun. clear Hrun.
  destruct (dispatch_handshake d (Child.clearTimeout (Child.timeout p) p)
              v reply Htag Hdec Henc)
    as (-> & -> & -> & -> & -> & ->).
  assert (Hsame : ∀ h,
            Child.isSessionStorageSupported (Child.clearTimeout h p)
              = Child.isSessionStorageSupported p
            ∧ Child.hasOpener (Child.clearTimeout h p) = Child.hasOpener p
            ∧ Child.sessionStorage (Child.clearTimeout h p) = Child.sessionStorage p
            ∧ Child.posted (Child.clearTimeout h p) = Child.posted p)
    by (by intros [t|]).
  destruct (Hsame (Child.timeout p)) as (-> & -> & -> & ->).
  repeat split; try done.
  intros t ->. simpl. rewrite elem_of_difference, elem_of_singleton. tauto.
Qed.

End ChildHandshake.

(** C4, witness: the acknowledgement that the parent sends for a tab
    opened without a name, [{id, parentName}], on a page with session
    storage and an opener. *)
Lemma handshake_ack_effects_witness :
  Child.data Sample.plainAck = VStr Sample.plainAckText
  ∧ Child.accepted Sample.child Sample.plainAck = true
  ∧ Child.tagged Sample.plainAckText PostMessageEventNamesEnum.HANDSHAKE_WITH_PARENT
    = true
  ∧ Child.decode Sample.child Sample.plainAckText
      PostMessageEventNamesEnum.HANDSHAKE_WITH_PARENT
    = Some Sample.plainIdentity
  ∧ Child.encode Sample.child PostMessageEventNamesEnum.HANDSHAKE
      (VObj [("id", and_get Sample.plainIdentity "id");
             ("isSiteInsideFrame", Child.isSiteInsideFrame Sample.child)])
    = Ret Sample.plainReplyText
  ∧ let p' := (Child.onCommunication Sample.child Sample.plainAck
                 Sample.childPage).2 in
    let seg := Child.text_of
                 (JS.split Sample.plainAckText
                    PostMessageEventNamesEnum.HANDSHAKE_WITH_PARENT !! 1) in
    Child.tabId p' = VStr (UUID.generate Sample.draws1)
    ∧ Child.tabName p' = VUndefined
    ∧ Child.tabParentName p' = VStr "PARENT_TAB"
    ∧ Child.sessionStorage p'
      = (if Child.isSessionStorageSupported Sample.childPage
         then <[Child.sessionStorageKey := seg]>
                (Child.sessionStorage Sample.childPage)
         else Child.sessionStorage Sample.childPage)
    ∧ Child.posted p'
      = (if Child.hasOpener Sample.childPage
         then Child.posted Sample.childPage
                ++ [(Sample.plainReplyText, Child.targetOrigin Sample.child)]
         else Child.posted Sample.childPage)
    ∧ ∀ t, Child.timeout Sample.childPage = Some t → t ∉ Child.timeouts p'.
Proof.
  assert (H1 : Child.data Sample.plainAck = VStr Sample.plainAckText) by reflexivity.
  assert (H2 : Child.accepted Sample.child Sample.plainAck = true)
    by (vm_compute; reflexivity).
  assert (H3 : Child.tagged Sample.plainAckText
                 PostMessageEventNamesEnum.HANDSHAKE_WITH_PARENT = true)
    by (vm_compute; reflexivity).
  assert (H4 : Child.decode Sample.child Sample.plainAckText
                 PostMessageEventNamesEnum.HANDSHAKE_WITH_PARENT
               = Some Sample.plainIdentity)
    by (vm_compute; reflexivity).
  assert (H5 : Child.encode Sample.child PostMessageEventNamesEnum.HANDSHAKE
                 (VObj [("id", and_get Sample.plainIdentity "id");
                        ("isSiteInsideFrame", Child.isSiteInsideFrame Sample.child)])
               = Ret Sample.plainReplyText)
    by (vm_compute; reflexivity).
  exact (conj H1 (conj H2 (conj H3 (conj H4 (conj H5
           (handshake_ack_effects Sample.child Sample.plainAck Sample.childPage
              Sample.plainAckText Sample.plainIdentity Sample.plainReplyText
              H1 H2 H3 H4 H5)))))).
Defined.

(** C4 as stated fails: on a page without session storage and without an
    opener the child accepts the acknowledgement and adopts the identity,
    but nothing is written to the session store and no envelope is sent. *)
Lemma handshake_ack_counterexample :
  let p' := (Child.onCommunication Sample.child Sample.ack Sample.orphanPage).2 in
  Child.accepted Sample.child Sample.ack = true
  ∧ Child.decode Sample.child Sample.ackText
      PostMessageEventNamesEnum.HANDSHAKE_WITH_PARENT = Some Sample.identity
  ∧ Child.tabId p' = VStr "abc"
  ∧ Child.sessionStorage p' !! Child.sessionStorageKey = None
  ∧ Child.posted p' = [].
Proof. cbv zeta. repeat split; vm_compute; reflexivity. Qed.

(** ** After the parent disconnects *)

Lemma filter_older (l : list nat) f :
  Forall (λ g, g < f) l → filter (λ g, g ≠ f) l = l.
Proof.
  induction 1 as [|g l Hg _ IH]; [done |].
  rewrite filter_cons, IH. case_decide; [done | lia].
Qed.

(** Removing a function that was created for the occasion removes no
    listener. *)
Lemma removeEventListener_arrow_keeps p :
  listeners_exist p →
  Child.listeners (Child.removeEventListener_arrow p) = Child.listeners p
  ∧ listeners_exist (Child.removeEventListener_arrow p).
Proof.
  intros Hp. unfold listeners_exist, Child.removeEventListener_arrow in *. simpl.
  rewrite filter_older by done. split; [done |].
  eapply Forall_impl; [exact Hp |]. simpl. lia.
Qed.

Section ChildListeners.

Variable this : Child.Config.

Lemma preserves_onCommunication I message :
  (∀ c, stable I (Child.call c)) →
  (∀ m o, stable I (Child.postMessage m o)) →
  (∀ k v, stable I (Child.setItem k v)) →
  (∀ a b c, stable I (Child.set_identity a b c)) →
  stable I Child.removeEventListener_arrow →
  (∀ h, stable I (Child.clearTimeout h)) →
  preserves I (Child.onCommunication this message).
Proof.
  intros Hcall Hpost Hset Hid Hremove Hclear. unfold Child.onCommunication.
  destruct (negb _); [apply preserves_ret |].
  apply preserves_bind; [apply preserves_gets | intros h].
  apply preserves_bind; [by apply preserves_modify | intros _].
  by apply preserves_dispatch.
Qed.

(** No message makes [onCommunication] drop a listener. *)
Lemma onCommunication_keeps_listeners message p :
  listeners_exist p →
  Child.listeners (Child.onCommunication this message p).2 = Child.listeners p.
Proof.
  intros Hp.
  apply (preserves_onCommunication
           (λ q, Child.listeners q = Child.listeners p ∧ listeners_exist q));
    try by untouched.
  - intros q [Hq1 Hq2].
    destruct (removeEventListener_arrow_keeps q Hq2) as [-> ?]. done.
  - intros [t|] q Hq; [| done]. done.
Qed.

End ChildListeners.

(** C9, on a concrete page: the disconnect callback is called, but the
    listener registered by [addListeners] is still registered after the
    PARENT_DISCONNECTED message, and a later broadcast is processed -- the
    callback for parent messages is called with its payload. *)
Theorem listener_survives_parent_disconnect :
  let start := Child.freshPage "kid" (Some ∅) true in
  let p1 := (Child.constructor Json.JSON (Some Sample.childOptions) start).2 in
  let p2 := Child.receive Sample.child Sample.disconnect p1 in
  let p3 := Child.receive Sample.child Sample.hello p2 in
  (Child.constructor Json.JSON (Some Sample.childOptions) start).1
  = Ret Sample.child
  ∧ Child.listeners p1 = [1]
  ∧ Child.calls p2 = Child.calls p1 ++ [Child.ParentDisconnect]
  ∧ Child.listeners p2 = [1]
  ∧ Child.calls p3 = Child.calls p2 ++ [Child.ParentCommunication (VStr "hi")].
Proof.
  cbv zeta. split; [reflexivity |]. repeat split; vm_compute; reflexivity.
Qed.

(* ===================================================================== *)
(** * Further properties *)
(* ===================================================================== *)

(** ** Searching the registry *)

Lemma search_from_spec i data value :
  arrayUtils.search_from i data value = (-1)%Z
  ∧ Forall (λ t, arrayUtils.key_matches (tab_id t) value = false) data
  ∨ ∃ n t,
      arrayUtils.search_from i data value = (i + Z.of_nat n)%Z
      ∧ data !! n = Some t
      ∧ arrayUtils.key_matches (tab_id t) value = true
      ∧ Forall (λ t, arrayUtils.key_matches (tab_id t) value = false) (take n data).
Proof.
  revert i. induction data as [|t data IH]; intros i; simpl.
  - left. by split.
  - destruct (arrayUtils.key_matches (tab_id t) value) eqn:Hm.
    + right. exists 0, t. repeat split; [lia | done | constructor].
    + destruct (IH (i + 1)%Z) as [[-> Hall] | (n & t' & -> & Hn & Hm' & Hall)].
      * left. split; [done | by constructor].
      * right. exists (S n), t'. repeat split; [lia | done | done |].
        simpl. by constructor.
Qed.

(** X1. [searchByKeyName] returns the first element whose id matches the
    searched value: with the ['index'] preference its position, without a
    preference the element itself; when no element matches, it returns
    [-1], respectively the empty object. *)
Theorem searchByKeyName_first_match data value :
  ∃ index obj,
    arrayUtils.searchByKeyName data value (Some returnPreferenceEnum.INDEX)
    = arrayUtils.Index index
    ∧ arrayUtils.searchByKeyName data value None = arrayUtils.Object obj
    ∧ (index = (-1)%Z ∧ obj = None
       ∧ Forall (λ t, arrayUtils.key_matches (tab_id t) value = false) data
       ∨ ∃ n t,
           index = Z.of_nat n ∧ obj = Some t
           ∧ data !! n = Some t
           ∧ arrayUtils.key_matches (tab_id t) value = true
           ∧ Forall (λ t, arrayUtils.key_matches (tab_id t) value = false)
               (take n data)).
Proof.
  unfold arrayUtils.searchByKeyName. simpl.
  eexists _, _. split; [reflexivity |]. split; [reflexivity |].
  destruct (search_from_spec 0 data value) as [[-> Hall] | (n & t & -> & Hn & Hm & Hall)].
  - left. by repeat split.
  - right. exists n, t. rewrite Z.add_0_l.
    replace (Z.of_nat n =? -1)%Z with false by (symmetry; apply Z.eqb_neq; lia).
    rewrite Nat2Z.id. by repeat split.
Qed.

(** ** The shape of the registry *)

Section Shape.

Implicit Types (st : State) (tab t : Tab).

Lemma ident_mutate_status obj status (data : list Tab) :
  ident <$> mutate obj (set_status status) data = ident <$> data.
Proof.
  unfold mutate. rewrite <- list_fmap_compose. apply list_fmap_ext.
  intros i t _. simpl. by case_bool_decide.
Qed.

Lemma Shrinks_refl st : Shrinks st st.
Proof. by repeat split. Qed.

Lemma Shrinks_trans st1 st2 st3 : Shrinks st1 st2 → Shrinks st2 st3 → Shrinks st1 st3.
Proof.
  intros (H1 & H2 & H3) (H4 & H5 & H6). repeat split.
  - by etrans.
  - congruence.
  - by etrans.
Qed.

Lemma Shrinks_status st obj status :
  Shrinks st (set_tabs (mutate obj (set_status status) (tabs st)) st).
Proof. repeat split; simpl; [by rewrite ident_mutate_status | done]. Qed.

Lemma Shrinks_close st ref : Shrinks st (close ref st).
Proof. repeat split; simpl; [done | set_solver]. Qed.

Lemma splice_sublist {A} (start count : Z) (l : list A) :
  splice start count l `sublist_of` l.
Proof.
  unfold splice.
  set (actualStart := if (start <? 0)%Z then _ else _).
  assert (Hs : (0 ≤ actualStart ≤ Z.of_nat (length l))%Z)
    by (subst actualStart; destruct (Z.ltb_spec start 0); lia).
  set (a := Z.to_nat actualStart). set (b := Z.to_nat _).
  assert (Hab : a ≤ b) by (subst a b; lia).
  rewrite <- (take_drop a l) at 3. apply sublist_app; [done |].
  replace b with (a + (b - a)) by lia. rewrite <- drop_drop. apply sublist_drop.
Qed.

Lemma Shrinks_remove st tab : Shrinks st (tabUtils._remove tab st).
Proof.
  unfold tabUtils._remove, arrayUtils.searchByKeyName. simpl.
  repeat split; simpl; [| done]. apply fmap_sublist, splice_sublist.
Qed.

Lemma Shrinks_watchStatus st (arg : option Tab) :
  Shrinks st (Parent.watchStatus arg st).
Proof.
  unfold Parent.watchStatus. destruct arg as [tab|]; [| apply Shrinks_refl].
  destruct (tab_ref tab); [| apply Shrinks_refl].
  destruct (_ || _); [apply Shrinks_refl |].
  destruct (_ && _); [apply Shrinks_remove | apply Shrinks_refl].
Qed.

Lemma Shrinks_addInterval_body this i st :
  Shrinks st (Parent.addInterval_body this i st).
Proof.
  unfold Parent.addInterval_body.
  set (st1 := if removeClosedTabs this then _ else st).
  assert (H1 : Shrinks st st1).
  { subst st1. destruct (removeClosedTabs this);
      [apply Shrinks_watchStatus | apply Shrinks_refl]. }
  clearbody st1. destruct (tabs st1 !! i) as [tab|]; [| done].
  destruct (tab_ref tab); [| done].
  eapply Shrinks_trans; [exact H1 | apply Shrinks_status].
Qed.

Lemma Shrinks_addInterval_loop this fuel i st :
  Shrinks st (Parent.addInterval_loop fuel this i st).
Proof.
  revert i st. induction fuel as [|fuel IH]; intros i st; simpl;
    [apply Shrinks_refl |].
  case_bool_decide; [| apply Shrinks_refl].
  eapply Shrinks_trans; [apply Shrinks_addInterval_body | apply IH].
Qed.

Lemma Shrinks_frame st st' :
  tabs st' = tabs st → objectsCreated st' = objectsCreated st →
  closedWindows st' = closedWindows st → Shrinks st st'.
Proof. intros H1 H2 H3. unfold Shrinks. by rewrite H1, H2, H3. Qed.

Lemma Shrinks_addInterval this st : Shrinks st (Parent.addInterval this st).
Proof.
  unfold Parent.addInterval. destruct (tabUtils.getOpened st).
  - by apply Shrinks_frame.
  - eapply Shrinks_trans; [apply Shrinks_addInterval_loop |].
    destruct (onPollingCallback this); [by apply Shrinks_frame | apply Shrinks_refl].
Qed.

Lemma Shrinks_closeTab id st : Shrinks st (tabUtils.closeTab id st).
Proof.
  unfold tabUtils.closeTab, arrayUtils.searchByKeyName.
  destruct (_ =? -1)%Z; [apply Shrinks_refl |].
  destruct (tabs st !! _) as [tab|]; [| apply Shrinks_refl].
  destruct (tab_ref tab) as [ref|]; [| apply Shrinks_refl].
  eapply Shrinks_trans; [apply (Shrinks_close st ref) | apply Shrinks_status].
Qed.

Lemma Shrinks_closeAll_step st tab : Shrinks st (tabUtils.closeAll_step st tab).
Proof.
  unfold tabUtils.closeAll_step. destruct (tab_ref tab) as [ref|]; [| apply Shrinks_refl].
  eapply Shrinks_trans; [apply (Shrinks_close st ref) | apply Shrinks_status].
Qed.

Lemma Shrinks_closeAll st : Shrinks st (tabUtils.closeAll st).
Proof.
  unfold tabUtils.closeAll. generalize (tabs st) at 1 as l. intros l.
  revert st. induction l as [|x l IH]; intros st; simpl; [apply Shrinks_refl |].
  eapply Shrinks_trans; [apply Shrinks_closeAll_step | apply IH].
Qed.

(** X2. After any one operation of [Operation] -- [new Parent],
    [openNewTab], [create] on a newly constructed [Tab] (the way
    [openNewTab] calls it), [closeTab], [closeAllTabs], a polling tick,
    [watchStatus], [_remove], a window closing -- the registry is either
    the registry before with some records deleted -- the remaining ones in
    the same order, unchanged but for their status, no window reopened --
    or the registry before followed by one new record that is open.
    Calling [create] again on a [Tab] that is already registered is not
    one of these operations. *)
Theorem step_keeps_registry_shape JSON st op :
  Shrinks st (step JSON st op)
  ∨ ∃ tab,
      tabs (step JSON st op) = tabs st ++ [tab]
      ∧ tab_obj tab = objectsCreated st
      ∧ tab_status tab = TabStatusEnum.OPEN
      ∧ objectsCreated (step JSON st op) = S (objectsCreated st)
      ∧ closedWindows (step JSON st op) = closedWindows st.
Proof.
  assert (Hcreate : ∀ options random opened st0,
            tabs st0 = tabs st → objectsCreated st0 = objectsCreated st →
            closedWindows st0 = closedWindows st →
            ∃ tab,
              tabs (TabClass.create options random opened st0).2 = tabs st ++ [tab]
              ∧ tab_obj tab = objectsCreated st
              ∧ tab_status tab = TabStatusEnum.OPEN
              ∧ objectsCreated (TabClass.create options random opened st0).2
                = S (objectsCreated st)
              ∧ closedWindows (TabClass.create options random opened st0).2
                = closedWindows st).
  { intros options random opened st0 H1 H2 H3.
    pose proof (create_facts options random opened st0) as Hc.
    destruct (TabClass.create options random opened st0) as [tab st1].
    destruct Hc as (Ht & Hs & _ & Ho & _ & Hn & _ & _ & _ & Hcl).
    exists tab. simpl. rewrite Ht, Ho, Hn, Hcl, H1, H2, H3. by repeat split. }
  destruct op; cbn [step].
  - left. unfold Parent.constructor. cbn [snd].
    destruct (shouldInitImmediately _); repeat split; simpl;
      try done; apply sublist_nil_l.
  - unfold Parent.openNewTab. destruct options as [o|]; [| left; apply Shrinks_refl].
    destruct (Parent.url_missing (cfg_url o)); [left; apply Shrinks_refl |].
    right.
    destruct (Hcreate (Some o) random opened (TabClass.constructor st))
      as (tab & H); [done.. |].
    destruct (TabClass.create (Some o) random opened (TabClass.constructor st))
      as [tab' st1]. cbn [snd] in *.
    exists tab. by destruct (Parent.not_polling st1).
  - right. by apply Hcreate.
  - left. apply Shrinks_closeTab.
  - left. apply Shrinks_closeAll.
  - left. destruct (intervals st !! timer);
      [apply Shrinks_addInterval | apply Shrinks_refl].
  - left. apply Shrinks_addInterval.
  - left. apply Shrinks_watchStatus.
  - left. apply Shrinks_remove.
  - left. apply Shrinks_close.
Qed.

End Shape.

Section Order.

Implicit Types (st : State).

Lemma StronglySorted_sublist {A} (R : relation A) (l1 l2 : list A) :
  l1 `sublist_of` l2 → StronglySorted R l2 → StronglySorted R l1.
Proof.
  induction 1 as [|x l1 l2 Hsub IH|x l1 l2 Hsub IH]; intros Hs; [done | |].
  - apply StronglySorted_inv in Hs as [Hs Hall]. constructor; [by apply IH |].
    rewrite Forall_forall in *. intros y Hy. apply Hall.
    by eapply sublist_subseteq.
  - apply StronglySorted_inv in Hs as [Hs _]. by apply IH.
Qed.

Lemma StronglySorted_snoc {A} (R : relation A) (l : list A) (y : A) :
  StronglySorted R l → Forall (λ x, R x y) l → StronglySorted R (l ++ [y]).
Proof.
  induction 1 as [|x l Hs IH Hall]; intros Hy; simpl.
  - repeat constructor.
  - apply Forall_cons in Hy as [Hxy Hy]. constructor; [by apply IH |].
    apply Forall_app. split; [done | by apply Forall_singleton].
Qed.

Lemma objs_of_ident (l : list Tab) : tab_obj <$> l = (λ x, x.1.1.1.1.1.1) <$> (ident <$> l).
Proof. by rewrite <- list_fmap_compose. Qed.

Lemma Ordered_Shrinks st st' : Shrinks st st' → Ordered st → Ordered st'.
Proof.
  intros (Hsub & Hobjs & _) [Hsorted Hbound].
  assert (Hsub' : (tab_obj <$> tabs st') `sublist_of` (tab_obj <$> tabs st))
    by (rewrite !objs_of_ident; by apply fmap_sublist).
  split.
  - by eapply StronglySorted_sublist.
  - rewrite Forall_forall in *. intros t Ht. rewrite Hobjs.
    assert (Hin : tab_obj t ∈ tab_obj <$> tabs st).
    { eapply sublist_subseteq; [exact Hsub' |]. by apply list_elem_of_fmap_2. }
    apply list_elem_of_fmap in Hin as (t0 & -> & Ht0). by apply Hbound.
Qed.

Lemma Ordered_create options random opened st :
  Ordered st → Ordered (TabClass.create options random opened st).2.
Proof.
  intros [Hsorted Hbound].
  pose proof (create_facts options random opened st) as Hc.
  destruct (TabClass.create options random opened st) as [tab st1].
  destruct Hc as (Ht & _ & _ & Ho & _ & Hn & _). cbn [snd].
  split.
  - rewrite Ht, fmap_app. apply StronglySorted_snoc; [done |].
    rewrite Ho. by apply Forall_fmap.
  - rewrite Ht, Hn. apply Forall_app. split.
    + eapply Forall_impl; [exact Hbound |]. simpl. lia.
    + apply Forall_singleton. lia.
Qed.

Lemma Ordered_step JSON st op : Ordered st → Ordered (step JSON st op).
Proof.
  intros HO.
  assert (Hframe : Ordered (TabClass.constructor st)) by done.
  destruct op; cbn [step];
    try (eapply Ordered_Shrinks; [| exact HO];
         by eauto using Shrinks_closeTab, Shrinks_closeAll, Shrinks_addInterval,
              Shrinks_watchStatus, Shrinks_remove, Shrinks_close).
  - unfold Parent.constructor. cbn [snd]. destruct (shouldInitImmediately _);
      (split; simpl; [constructor | constructor]).
  - unfold Parent.openNewTab. destruct options as [o|]; [| done].
    destruct (Parent.url_missing (cfg_url o)); [done |].
    pose proof (Ordered_create (Some o) random opened _ Hframe) as H1.
    destruct (TabClass.create (Some o) random opened (TabClass.constructor st))
      as [tab st1]. cbn [snd] in *. by destruct (Parent.not_polling st1).
  - by apply Ordered_create.
  - destruct (intervals st !! timer); [| done].
    eapply Ordered_Shrinks; [apply Shrinks_addInterval | done].
Qed.

Lemma Ordered_run JSON ops st : Ordered st → Ordered (run JSON st ops).
Proof.
  revert st. induction ops as [|op ops IH]; intros st H0; simpl; [done |].
  by apply IH, Ordered_step.
Qed.

Lemma Ordered_NoDup st : Ordered st → NoDup (tab_obj <$> tabs st).
Proof.
  intros [Hs _]. induction Hs as [|o l Hs IH Hall]; [constructor |].
  constructor; [| done]. intros Hin.
  rewrite Forall_forall in Hall. specialize (Hall o Hin). lia.
Qed.

Lemma NoDup_reachable JSON name ops :
  NoDup (tab_obj <$> tabs (run JSON (initialState name) ops)).
Proof. apply Ordered_NoDup, Ordered_run. split; constructor. Qed.

(** X3. As long as [create] is only called on newly constructed [Tab]
    objects, as [openNewTab] does, the registry lists tabs in the order in
    which they were opened: in every state that the operations of
    [Operation] lead to from a page on which no script has run, the object
    identities of the records are strictly increasing and below the
    allocation counter, so no object is listed twice. *)
Theorem registry_in_open_order JSON name ops :
  let st := run JSON (initialState name) ops in
  StronglySorted lt (tab_obj <$> tabs st)
  ∧ Forall (λ t, tab_obj t < objectsCreated st) (tabs st)
  ∧ NoDup (tab_obj <$> tabs st).
Proof.
  intros st.
  assert (HO : Ordered st) by (apply Ordered_run; split; constructor).
  split; [apply HO |]. split; [apply HO |]. by apply Ordered_NoDup.
Qed.

End Order.

(** ** Closing tabs *)

Section Closing.

Implicit Types (st : State) (t : Tab).

(** A change through a reference is a change in one place when no object
    is listed twice. *)
Lemma mutate_insert (l : list Tab) n t f :
  NoDup (tab_obj <$> l) → l !! n = Some t →
  mutate (tab_obj t) f l = <[n := f t]> l.
Proof.
  intros Hnd Hn. apply list_eq. intros i. unfold mutate.
  rewrite list_lookup_fmap.
  destruct (decide (i = n)) as [-> | Hne].
  - rewrite Hn, list_lookup_insert_eq by by eapply lookup_lt_Some.
    simpl. by rewrite bool_decide_eq_true_2.
  - rewrite list_lookup_insert_ne by done.
    destruct (l !! i) as [x|] eqn:Hi; [| done]. simpl.
    rewrite bool_decide_eq_false_2; [done |]. intros Hobj.
    apply Hne. eapply NoDup_lookup; [exact Hnd | |];
      rewrite list_lookup_fmap; [by rewrite Hi; simpl; rewrite Hobj | by rewrite Hn].
Qed.

(** X4. [closeTab] with an id that no record matches changes nothing:
    no window is closed and the registry is as before (unlike [_remove],
    which then deletes the last record). *)
Theorem closeTab_unknown_id id st :
  Forall (λ t, arrayUtils.key_matches (tab_id t) id = false) (tabs st) →
  tabUtils.closeTab id st = st.
Proof.
  intros Habsent. unfold tabUtils.closeTab, arrayUtils.searchByKeyName.
  by rewrite (proj2 (search_from_absent 0 _ _ ltac:(done))) by done.
Qed.

(** X5. [closeTab] acts on the first record whose id matches: if it has
    a window, the window is closed and that record alone becomes CLOSE at
    once; if [window.open] had returned [null] for it, nothing changes and
    the record keeps its status. *)
Theorem closeTab_first_match id st n t :
  NoDup (tab_obj <$> tabs st) →
  tabs st !! n = Some t →
  arrayUtils.key_matches (tab_id t) id = true →
  Forall (λ t, arrayUtils.key_matches (tab_id t) id = false) (take n (tabs st)) →
  tabUtils.closeTab id st
  = match tab_ref t with
    | Some ref =>
        set_tabs (<[n := set_status TabStatusEnum.CLOSE t]> (tabs st)) (close ref st)
    | None => st
    end.
Proof.
  intros Hnd Hn Hm Hfirst. unfold tabUtils.closeTab, arrayUtils.searchByKeyName.
  rewrite (search_from_first 0 _ _ n t Hn Hm).
  - rewrite Z.add_0_l.
    replace (Z.of_nat n =? -1)%Z with false by (symmetry; apply Z.eqb_neq; lia).
    rewrite Nat2Z.id, Hn. destruct (tab_ref t) as [ref|]; [| done].
    simpl. by rewrite (mutate_insert _ n t) by done.
  - intros k t' Hk Hk'. rewrite Forall_forall in Hfirst. apply Hfirst.
    apply list_elem_of_lookup. exists k. by rewrite lookup_take_lt.
Qed.

Lemma closeAll_fold (l : list Tab) st :
  let marked := tab_obj <$> filter (λ t, is_Some (tab_ref t)) l in
  tabs (foldl tabUtils.closeAll_step st l)
  = (λ t, if bool_decide (tab_obj t ∈ marked)
          then set_status TabStatusEnum.CLOSE t else t) <$> tabs st
  ∧ closedWindows (foldl tabUtils.closeAll_step st l)
    = closedWindows st ∪ list_to_set (omap tab_ref l).
Proof.
  revert st. induction l as [|x l IH]; intros st; cbv zeta.
  - simpl. split; [| set_solver].
    rewrite <- (list_fmap_id (tabs st)) at 1. apply list_fmap_ext.
    by intros i t _.
  - simpl foldl. destruct (IH (tabUtils.closeAll_step st x)) as [-> ->].
    unfold tabUtils.closeAll_step. rewrite filter_cons.
    destruct (tab_ref x) as [ref|] eqn:Href; simpl; rewrite ?Href.
    + split; [| set_solver].
      unfold mutate. rewrite <- list_fmap_compose. apply list_fmap_ext.
      intros i t _. simpl.
      destruct (decide (tab_obj t = tab_obj x)) as [Heq | Hne].
      * rewrite (bool_decide_eq_true_2 (tab_obj t = tab_obj x)) by done. simpl.
        rewrite (bool_decide_eq_true_2 (tab_obj t ∈ tab_obj x :: _))
          by (rewrite Heq; left).
        by case_bool_decide.
      * rewrite (bool_decide_eq_false_2 (tab_obj t = tab_obj x)) by done.
        apply (f_equal (λ b : bool, if b then _ else _)).
        apply bool_decide_ext. rewrite elem_of_cons. tauto.
    + split; [done | set_solver].
Qed.

(** X6. In every state the page can reach, [closeAll] closes the window
    of every record that has one and makes exactly those records CLOSE,
    in place; afterwards the only records still OPEN are those for which
    [window.open] returned [null]. *)
Theorem closeAll_closes_every_window JSON name ops :
  let st := run JSON (initialState name) ops in
  let st' := tabUtils.closeAll st in
  tabs st' = closedIfWindow <$> tabs st
  ∧ closedWindows st' = closedWindows st ∪ list_to_set (omap tab_ref (tabs st))
  ∧ Forall (λ t, tab_ref t = None) (tabUtils.getOpened st').
Proof.
  intros st st'.
  pose proof (NoDup_reachable JSON name ops) as Hnd. fold st in Hnd.
  pose proof (Good_reachable JSON name ops) as HG. fold st in HG.
  destruct (closeAll_fold (tabs st) st) as [Htabs Hclosed].
  assert (Hmap : tabs st' = closedIfWindow <$> tabs st).
  { subst st'. unfold tabUtils.closeAll. rewrite Htabs.
    apply list_fmap_ext. intros i t Hi. simpl. unfold closedIfWindow.
    assert (Ht : t ∈ tabs st) by by eapply list_elem_of_lookup_2.
    destruct (tab_ref t) as [ref|] eqn:Href.
    - rewrite bool_decide_eq_true_2; [done |].
      apply list_elem_of_fmap_2, list_elem_of_filter. split; [by eexists | done].
    - rewrite bool_decide_eq_false_2; [done |].
      intros (t0 & Hobj & [[r Hr] Ht0]%list_elem_of_filter)%list_elem_of_fmap.
      rewrite (good_object st HG t t0 Ht Ht0 Hobj) in Href. congruence. }
  split; [done |]. split; [done |].
  unfold tabUtils.getOpened. rewrite Hmap. apply Forall_forall.
  intros t' [Hs (t & -> & Ht)%list_elem_of_fmap]%list_elem_of_filter.
  unfold closedIfWindow in *. by destruct (tab_ref t) eqn:Href.
Qed.

End Closing.

(** X4, witness. *)
Lemma closeTab_unknown_id_witness :
  Forall (λ t, arrayUtils.key_matches (tab_id t) "no-such-id" = false)
    (tabs Sample.twoTabs)
  ∧ tabUtils.closeTab "no-such-id" Sample.twoTabs = Sample.twoTabs.
Proof.
  assert (H : Forall (λ t, arrayUtils.key_matches (tab_id t) "no-such-id" = false)
                (tabs Sample.twoTabs)) by (vm_compute; repeat constructor).
  exact (conj H (closeTab_unknown_id "no-such-id" Sample.twoTabs H)).
Defined.

(** X5, witness. *)
Lemma closeTab_first_match_witness :
  NoDup (tab_obj <$> tabs Sample.twoTabs)
  ∧ tabs Sample.twoTabs !! 0 = Some Sample.staleTab
  ∧ tabUtils.closeTab (UUID.generate Sample.draws1) Sample.twoTabs
    = set_tabs (<[0 := Sample.closedTab]> (tabs Sample.twoTabs))
        (close 7 Sample.twoTabs).
Proof.
  assert (H1 : NoDup (tab_obj <$> tabs Sample.twoTabs))
    by (vm_compute; repeat constructor; set_solver).
  assert (H2 : tabs Sample.twoTabs !! 0 = Some Sample.staleTab)
    by (vm_compute; reflexivity).
  assert (H3 : arrayUtils.key_matches (tab_id Sample.staleTab)
                 (UUID.generate Sample.draws1) = true)
    by (vm_compute; reflexivity).
  assert (H4 : Forall (λ t, arrayUtils.key_matches (tab_id t)
                              (UUID.generate Sample.draws1) = false)
                 (take 0 (tabs Sample.twoTabs))) by constructor.
  exact (conj H1 (conj H2
           (closeTab_first_match _ Sample.twoTabs 0 Sample.staleTab H1 H2 H3 H4))).
Defined.

(** ** The polling tick *)

Section Tick.

Implicit Types (st : State) (t : Tab) (this : ParentConfig).

Lemma set_tabs_same st : set_tabs (tabs st) st = st.
Proof. by destruct st. Qed.

Lemma set_tabs_twice (l l' : list Tab) st :
  set_tabs l (set_tabs l' st) = set_tabs l st.
Proof. done. Qed.

Lemma refreshed_set_tabs (l : list Tab) st :
  refreshed (set_tabs l st) = refreshed st.
Proof. done. Qed.

Lemma take_S_insert {A} (l : list A) i x :
  i < length l → take (S i) (<[i := x]> l) = take i l ++ [x].
Proof.
  revert i. induction l as [|y l IH]; intros [|i] Hi; simpl in *; try lia;
    try done.
  by rewrite IH by lia.
Qed.

Lemma drop_S_insert {A} (l : list A) i x :
  drop (S i) (<[i := x]> l) = drop (S i) l.
Proof.
  revert i. induction l as [|y l IH]; intros [|i]; simpl; done.
Qed.

(** Without [removeClosedTabs] the loop rewrites the statuses from index
    [i] on, one record at a time. *)
Lemma addInterval_loop_refresh this fuel i st :
  removeClosedTabs this = false →
  NoDup (tab_obj <$> tabs st) →
  length (tabs st) - i ≤ fuel →
  Parent.addInterval_loop fuel this i st
  = set_tabs (take i (tabs st) ++ (refreshed st <$> drop i (tabs st))) st.
Proof.
  intros Hkeep. revert i st.
  induction fuel as [|fuel IH]; intros i st Hnd Hfuel; simpl.
  - rewrite drop_ge, app_nil_r, take_ge by lia. by rewrite set_tabs_same.
  - case_bool_decide as Hi.
    + destruct (lookup_lt_is_Some_2 (tabs st) i Hi) as [t Ht].
      assert (Hbody : Parent.addInterval_body this i st
                      = set_tabs (<[i := refreshed st t]> (tabs st)) st).
      { unfold Parent.addInterval_body. rewrite Hkeep, Ht. unfold refreshed.
        destruct (tab_ref t) as [ref|].
        - by rewrite (mutate_insert _ i t).
        - by rewrite list_insert_id, set_tabs_same. }
      rewrite Hbody, IH.
      * rewrite set_tabs_twice, refreshed_set_tabs. f_equal.
        change (tabs (set_tabs ?l _)) with l.
        rewrite take_S_insert, drop_S_insert by done.
        rewrite (drop_S (tabs st) t i Ht), fmap_cons.
        by rewrite <- List.app_assoc.
      * change (tabs (set_tabs ?l _)) with l.
        replace (tab_obj <$> <[i := refreshed st t]> (tabs st))
          with (tab_obj <$> tabs st); [done |].
        rewrite list_fmap_insert.
        replace (tab_obj (refreshed st t)) with (tab_obj t)
          by (unfold refreshed; by destruct (tab_ref t)).
        symmetry. apply list_insert_id. by rewrite list_lookup_fmap, Ht.
      * change (tabs (set_tabs ?l _)) with l. rewrite length_insert. lia.
    + rewrite drop_ge, app_nil_r, take_ge by lia. by rewrite set_tabs_same.
Qed.

Lemma pollingCallbacks_addInterval_loop this fuel i st :
  pollingCallbacks (Parent.addInterval_loop fuel this i st) = pollingCallbacks st.
Proof.
  revert i st. induction fuel as [|fuel IH]; intros i st; simpl; [done |].
  case_bool_decide; [| done]. rewrite IH. unfold Parent.addInterval_body.
  set (st1 := if removeClosedTabs this then _ else st).
  assert (H1 : pollingCallbacks st1 = pollingCallbacks st).
  { subst st1. destruct (removeClosedTabs this); [| done].
    unfold Parent.watchStatus. destruct (tabs st !! i) as [tab|]; [| done].
    destruct (tab_ref tab); [| done]. destruct (_ || _); [done |].
    by destruct (_ && _). }
  destruct (tabs st1 !! i) as [tab|]; [| done]. by destruct (tab_ref tab).
Qed.

(** X7. A polling tick of an instance without [removeClosedTabs], in a
    state the page can reach and with some tab OPEN, deletes nothing: every
    record that has a window gets the status of its window (CLOSE if
    closed, OPEN otherwise), a record without a window is left alone, the
    polling callback runs once, and nothing else changes. *)
Theorem tick_refreshes_statuses JSON name ops this :
  let st := run JSON (initialState name) ops in
  removeClosedTabs this = false →
  tabUtils.getOpened st ≠ [] →
  Parent.addInterval this st
  = polled this (set_tabs (refreshed st <$> tabs st) st).
Proof.
  intros st Hkeep Hopen. unfold Parent.addInterval.
  destruct (tabUtils.getOpened st) as [|t0 l0]; [done |].
  rewrite (addInterval_loop_refresh this _ 0 st Hkeep)
    by (apply NoDup_reachable || lia).
  by rewrite take_0, drop_0.
Qed.

(** X8. A polling tick that finds some tab OPEN keeps the timer: the
    callback runs exactly once if the instance has one, the interval stays
    registered even when this very tick found every window closed, and
    records are at most deleted. *)
Theorem tick_keeps_timer this st :
  tabUtils.getOpened st ≠ [] →
  let st' := Parent.addInterval this st in
  pollingCallbacks st'
  = pollingCallbacks st + (if onPollingCallback this then 1 else 0)
  ∧ heartBeat st' = heartBeat st
  ∧ intervals st' = intervals st
  ∧ Shrinks st st'.
Proof.
  intros Hopen st'. subst st'. unfold Parent.addInterval.
  destruct (tabUtils.getOpened st) as [|t0 l0]; [done |].
  pose proof (timers_addInterval_loop this (length (tabs st)) 0 st) as Ht.
  pose proof (pollingCallbacks_addInterval_loop this (length (tabs st)) 0 st) as Hp.
  pose proof (Shrinks_addInterval_loop this (length (tabs st)) 0 st) as Hs.
  cbv beta zeta in Ht. injection Ht as Hh Hi.
  destruct (onPollingCallback this); cbn [pollingCallbacks heartBeat intervals];
    rewrite Hp; (split; [lia |]); (split; [done |]); (split; [done |]);
    exact Hs.
Qed.

(** X9. A polling tick that finds no tab OPEN tears the timer down and
    does nothing else: no status is refreshed and the polling callback is
    not run.  The next successful [openNewTab] starts a new timer, which
    runs [addInterval] of the instance that opened the tab. *)
Theorem idle_tick_then_restart this this' o random opened st :
  tabUtils.getOpened st = [] →
  Parent.url_missing (cfg_url o) = false →
  let st1 := Parent.addInterval this st in
  let st2 := (Parent.openNewTab this' (Some o) random opened st1).2 in
  tabs st1 = tabs st
  ∧ pollingCallbacks st1 = pollingCallbacks st
  ∧ heartBeat st1 = None
  ∧ (∀ id, heartBeat st = Some id → intervals st1 !! id = None)
  ∧ heartBeat st2 = Some (S (timersCreated st))
  ∧ intervals st2 !! S (timersCreated st) = Some this'.
Proof.
  intros Hidle Hurl st1 st2.
  assert (H1 : st1 = Parent.stopPolling st)
    by (subst st1; unfold Parent.addInterval; by rewrite Hidle).
  split; [by rewrite H1 |]. split; [by rewrite H1 |]. split; [by rewrite H1 |].
  split.
  { intros id Hid. rewrite H1. unfold Parent.stopPolling. simpl.
    rewrite Hid. apply lookup_delete_eq. }
  subst st2. unfold Parent.openNewTab. rewrite Hurl.
  pose proof (create_facts (Some o) random opened (TabClass.constructor st1)) as Hc.
  destruct (TabClass.create _ _ _ _) as [tab st'].
  destruct Hc as (_ & _ & _ & _ & _ & _ & Hhb & Hint & Htc & _).
  cbn [snd]. replace (Parent.not_polling st') with true.
  - unfold Parent.startPollingTabs. cbn [heartBeat intervals].
    rewrite Htc, H1. cbn [timersCreated TabClass.constructor Parent.stopPolling].
    split; [done |]. apply lookup_insert_eq.
  - unfold Parent.not_polling. rewrite Hhb, H1. done.
Qed.

(** X10. A second [new Parent()] on a page that is already polling
    empties the registry but not the timer: after it opens a tab the same
    interval as before is running, still bound to the instance that
    started it, with that instance's [removeClosedTabs] and callback. *)
Theorem new_parent_inherits_timer JSON options o random opened st :
  Parent.not_polling st = false →
  Parent.url_missing (cfg_url o) = false →
  let this := (Parent.constructor JSON options st).1 in
  let st1 := (Parent.constructor JSON options st).2 in
  let st2 := (Parent.openNewTab this (Some o) random opened st1).2 in
  tabs st1 = []
  ∧ heartBeat st2 = heartBeat st
  ∧ intervals st2 = intervals st
  ∧ timersCreated st2 = timersCreated st.
Proof.
  intros Hrun Hurl this st1 st2.
  assert (Ht1 : tabs st1 = [] ∧ heartBeat st1 = heartBeat st
                ∧ intervals st1 = intervals st
                ∧ timersCreated st1 = timersCreated st).
  { subst st1. unfold Parent.constructor. cbn [snd].
    by destruct (shouldInitImmediately _). }
  destruct Ht1 as (Ht & Hh1 & Hi1 & Hc1). split; [done |].
  subst st2. unfold Parent.openNewTab. rewrite Hurl.
  pose proof (create_facts (Some o) random opened (TabClass.constructor st1)) as Hc.
  destruct (TabClass.create _ _ _ _) as [tab st'].
  destruct Hc as (_ & _ & _ & _ & _ & _ & Hhb & Hint & Htc & _).
  cbn [snd]. replace (Parent.not_polling st') with false.
  - rewrite Hhb, Hint, Htc. by repeat split.
  - unfold Parent.not_polling in *. rewrite Hhb.
    change (heartBeat (TabClass.constructor st1)) with (heartBeat st1).
    by rewrite Hh1.
Qed.

End Tick.

(** X7, witness. *)
Lemma tick_refreshes_statuses_witness :
  let st := run Json.JSON (initialState "") Fixtures.oneClosed in
  removeClosedTabs Fixtures.watcher = false
  ∧ tabUtils.getOpened st ≠ []
  ∧ Parent.addInterval Fixtures.watcher st
    = polled Fixtures.watcher (set_tabs (refreshed st <$> tabs st) st).
Proof.
  intros st.
  assert (H1 : removeClosedTabs Fixtures.watcher = false) by reflexivity.
  assert (H2 : tabUtils.getOpened st ≠ []) by (vm_compute; discriminate).
  exact (conj H1 (conj H2
           (tick_refreshes_statuses Json.JSON "" Fixtures.oneClosed
              Fixtures.watcher H1 H2))).
Defined.

(** X8, witness. *)
Lemma tick_keeps_timer_witness :
  let st := run Json.JSON (initialState "") Fixtures.oneClosed in
  let st' := Parent.addInterval Fixtures.watcher st in
  tabUtils.getOpened st ≠ []
  ∧ pollingCallbacks st' = pollingCallbacks st + 1
  ∧ heartBeat st' = heartBeat st
  ∧ intervals st' = intervals st
  ∧ Shrinks st st'.
Proof.
  intros st st'.
  assert (H : tabUtils.getOpened st ≠ []) by (vm_compute; discriminate).
  exact (conj H (tick_keeps_timer Fixtures.watcher st H)).
Defined.

(** X9, witness. *)
Lemma idle_tick_then_restart_witness :
  let st := Fixtures.allClosed in
  let st1 := Parent.addInterval Sample.parent st in
  let st2 := (Parent.openNewTab Fixtures.watcher
                (Some (Fixtures.tabConfig "https://z")) Sample.draws1 (Some 9)
                st1).2 in
  tabUtils.getOpened st = []
  ∧ Parent.url_missing (cfg_url (Fixtures.tabConfig "https://z")) = false
  ∧ tabs st1 = tabs st
  ∧ pollingCallbacks st1 = pollingCallbacks st
  ∧ heartBeat st1 = None
  ∧ (∀ id, heartBeat st = Some id → intervals st1 !! id = None)
  ∧ heartBeat st2 = Some (S (timersCreated st))
  ∧ intervals st2 !! S (timersCreated st) = Some Fixtures.watcher.
Proof.
  intros st st1 st2.
  assert (H1 : tabUtils.getOpened st = []) by (vm_compute; reflexivity).
  assert (H2 : Parent.url_missing (cfg_url (Fixtures.tabConfig "https://z")) = false)
    by reflexivity.
  exact (conj H1 (conj H2
           (idle_tick_then_restart Sample.parent Fixtures.watcher
              (Fixtures.tabConfig "https://z") Sample.draws1 (Some 9) st H1 H2))).
Defined.

(** X10, witness. *)
Lemma new_parent_inherits_timer_witness :
  let st := Sample.twoTabs in
  let this := (Parent.constructor Json.JSON None st).1 in
  let st1 := (Parent.constructor Json.JSON None st).2 in
  let st2 := (Parent.openNewTab this (Some (Fixtures.tabConfig "https://z"))
                Sample.draws1 (Some 9) st1).2 in
  Parent.not_polling st = false
  ∧ Parent.url_missing (cfg_url (Fixtures.tabConfig "https://z")) = false
  ∧ tabs st1 = []
  ∧ heartBeat st2 = heartBeat st
  ∧ intervals st2 = intervals st
  ∧ timersCreated st2 = timersCreated st.
Proof.
  intros st this st1 st2.
  assert (H1 : Parent.not_polling st = false) by (vm_compute; reflexivity).
  assert (H2 : Parent.url_missing (cfg_url (Fixtures.tabConfig "https://z")) = false)
    by reflexivity.
  exact (conj H1 (conj H2
           (new_parent_inherits_timer Json.JSON None
              (Fixtures.tabConfig "https://z") Sample.draws1 (Some 9) st H1 H2))).
Defined.

(** ** Identifiers *)

Section Aligner.

#[local] Arguments String.append !_ _ / : simpl nomatch.

Lemma zeros_app a b : zeros a +:+ zeros b = zeros (a + b).
Proof. induction a as [|a IH]; simpl; [done |]. by rewrite IH. Qed.

Lemma length_append s t :
  String.length (s +:+ t) = String.length s + String.length t.
Proof. induction s as [|c s IH]; simpl; [done |]. by rewrite IH. Qed.

Lemma length_zeros n : String.length (zeros n) = n.
Proof. induction n as [|n IH]; simpl; [done |]. by rewrite IH. Qed.

(** The loop prepends [z] once for every unit of [i], by doubling. *)
Lemma align_loop_pads fuel i k str :
  (0 ≤ i)%Z → (i < 2 ^ Z.of_nat fuel)%Z →
  UUID.align_loop fuel i (zeros k) str = zeros (k * Z.to_nat i) +:+ str.
Proof.
  revert i k str. induction fuel as [|fuel IH]; intros i k str H0 Hi.
  - simpl in *. replace i with 0%Z by lia. by rewrite Nat.mul_0_r.
  - cbn [UUID.align_loop]. destruct (Z.ltb_spec 0 i) as [Hpos | Hzero].
    + assert (Hhalf : (0 ≤ Z.shiftr i 1 < 2 ^ Z.of_nat fuel)%Z).
      { rewrite Z.shiftr_div_pow2 by lia. change (2 ^ 1)%Z with 2%Z.
        split; [apply Z.div_pos; lia |].
        apply Z.div_lt_upper_bound; [lia |].
        rewrite <- Z.pow_succ_r by lia. by rewrite <- Nat2Z.inj_succ. }
      rewrite zeros_app, IH by apply Hhalf.
      rewrite Z.shiftr_div_pow2 by lia. change (2 ^ 1)%Z with 2%Z.
      pose proof (Z.div_mod i 2 ltac:(lia)) as Hdm.
      rewrite Zmod_odd in Hdm. destruct (Z.odd i).
      * rewrite <- app_assoc, zeros_app. f_equal. f_equal.
        replace (Z.to_nat i) with (2 * Z.to_nat (i / 2) + 1) by lia. lia.
      * f_equal. f_equal.
        replace (Z.to_nat i) with (2 * Z.to_nat (i / 2)) by lia. lia.
    + replace i with 0%Z by lia. by rewrite Nat.mul_0_r.
Qed.

(** X11. [_hexAligner(num, length)] puts exactly as many zeros before the
    hexadecimal text of [num] as it is shorter than [length], and none if
    it is not shorter: the result is never truncated, and its length is
    the larger of the two. *)
Theorem hexAligner_pads num len :
  (len < 2 ^ 31)%Z →
  let str := UUID.toString16 num in
  let missing := Z.to_nat (len - Z.of_nat (String.length str)) in
  UUID._hexAligner num len = zeros missing +:+ str
  ∧ Z.of_nat (String.length (UUID._hexAligner num len))
    = Z.max len (Z.of_nat (String.length str)).
Proof.
  intros _ str missing.
  assert (H : UUID._hexAligner num len = zeros missing +:+ str).
  { unfold UUID._hexAligner. fold str.
    destruct (Z.le_gt_cases (len - Z.of_nat (String.length str)) 0) as [Hle | Hgt].
    - subst missing. by rewrite Z2Nat.nonpos by done.
    - change "0" with (zeros 1).
      rewrite align_loop_pads by (lia || apply align_fuel).
      by rewrite Nat.mul_1_l. }
  split; [done |]. rewrite H, length_append, length_zeros. subst missing. lia.
Qed.

End Aligner.

(** X11, witness. *)
Lemma hexAligner_pads_witness :
  (4 < 2 ^ 31)%Z
  ∧ UUID._hexAligner (JS.Num 0xab) 4 = zeros 2 +:+ "ab"
  ∧ Z.of_nat (String.length (UUID._hexAligner (JS.Num 0xab) 4))
    = Z.max 4 (Z.of_nat (String.length "ab")).
Proof.
  assert (H : (4 < 2 ^ 31)%Z) by reflexivity.
  exact (conj H (hexAligner_pads (JS.Num 0xab) 4 H)).
Defined.

(** ** Broadcasts of the parent *)

Section Broadcasts.

Implicit Types (st : State) (t : Tab) (fr : Frames).

Lemma sendMessage_unframed fr st t msg flag :
  truthy flag = false →
  Broadcast.sendMessage fr st (tab_ref t) msg flag
  = Ret (option_list (topPost fr st msg t)).
Proof.
  intros Hflag. unfold Broadcast.sendMessage, topPost. rewrite Hflag.
  destruct (tab_ref t) as [r|]; [| done]. simpl. by destruct (hasTop fr r).
Qed.

Lemma sendAll_unframed fr st l msg flag :
  truthy flag = false →
  Broadcast.sendAll fr st l msg flag = (Ret tt, omap (topPost fr st msg) l).
Proof.
  intros Hflag. induction l as [|t l IH]; [done |].
  cbn [Broadcast.sendAll]. rewrite (sendMessage_unframed _ _ _ _ _ Hflag), IH.
  simpl. by destruct (topPost fr st msg t).
Qed.

(** X12. [Parent.broadCastAll(msg)] posts the framed message once to the
    top window of every tab whose status is OPEN, in the order of the
    registry, and to no tab that is CLOSE; it throws the INVALID_JSON error
    before posting anything when [stringify] throws, and otherwise it does
    not throw, whatever the windows look like. *)
Theorem broadCastAll_reaches_open_tabs fr msg st :
  Broadcast.Parent_broadCastAll fr msg st
  = match tabUtils._preProcessMessage msg st with
    | Ret text => (Ret tt, omap (topPost fr st text) (tabUtils.getOpened st))
    | Throw e => (Throw WarningTextEnum.INVALID_JSON, [])
    end.
Proof.
  unfold Broadcast.Parent_broadCastAll, Broadcast.broadCastAll.
  destruct (tabUtils._preProcessMessage msg st) as [text | e] eqn:Hpre.
  - by apply sendAll_unframed.
  - unfold tabUtils._preProcessMessage in Hpre.
    destruct (config st) as [c|]; [| by injection Hpre as <-].
    destruct (stringify (codec c) msg); [by injection Hpre as <- | done |].
    by destruct (negb _ && _).
Qed.

(** X13. [broadCastTo] with an id that no record matches posts nothing;
    with the frame flag set it throws a [TypeError], because the empty
    object that the search returns has no window. *)
Theorem broadCastTo_unknown_id fr id msg flag st text :
  Forall (λ t, arrayUtils.key_matches (tab_id t) id = false) (tabs st) →
  tabUtils._preProcessMessage msg st = Ret text →
  Broadcast.broadCastTo fr id msg flag st
  = if truthy flag then (Throw typeError, []) else (Ret tt, []).
Proof.
  intros Habsent Hpre. unfold Broadcast.broadCastTo. rewrite Hpre.
  unfold arrayUtils.searchByKeyName, tabUtils.getAll.
  rewrite (proj2 (search_from_absent 0 _ _ ltac:(done))) by done. simpl.
  unfold Broadcast.sendMessage. by destruct (truthy flag).
Qed.

(** X14. [Parent.broadCastTo(id, msg)] posts to the first record whose id
    matches, whether its status is OPEN or CLOSE: a closed tab is still a
    target. *)
Theorem broadCastTo_first_match fr id msg st n t text :
  tabs st !! n = Some t →
  arrayUtils.key_matches (tab_id t) id = true →
  Forall (λ t, arrayUtils.key_matches (tab_id t) id = false) (take n (tabs st)) →
  tabUtils._preProcessMessage msg st = Ret text →
  Broadcast.Parent_broadCastTo fr id msg st
  = (Ret tt, option_list (topPost fr st text t)).
Proof.
  intros Hn Hm Hfirst Hpre.
  unfold Broadcast.Parent_broadCastTo, Broadcast.broadCastTo. rewrite Hpre.
  unfold arrayUtils.searchByKeyName, tabUtils.getAll.
  rewrite (search_from_first 0 _ _ n t Hn Hm).
  - rewrite Z.add_0_l.
    replace (Z.of_nat n =? -1)%Z with false by (symmetry; apply Z.eqb_neq; lia).
    rewrite Nat2Z.id, Hn. by rewrite sendMessage_unframed.
  - intros k t' Hk Hk'. rewrite Forall_forall in Hfirst. apply Hfirst.
    apply list_elem_of_lookup. exists k. by rewrite lookup_take_lt.
Qed.

Lemma sendAll_throws fr st l1 t l2 msg flag :
  truthy flag = true →
  tab_ref t = None →
  Forall (λ t, is_Some (tab_ref t)) l1 →
  Broadcast.sendAll fr st (l1 ++ t :: l2) msg flag
  = (Throw typeError, l1 ≫= postsFor fr st msg flag).
Proof.
  intros Hflag Hnone Hl1. induction Hl1 as [|x l1 [r Hr] _ IH].
  - simpl. unfold Broadcast.sendMessage. by rewrite Hflag, Hnone.
  - cbn [app Broadcast.sendAll]. rewrite IH, bind_cons.
    assert (Hsend : ∃ out, Broadcast.sendMessage fr st (tab_ref x) msg flag = Ret out).
    { unfold Broadcast.sendMessage. rewrite Hflag, Hr.
      case_bool_decide; by eexists. }
    destruct Hsend as [out Hout].
    assert (Hx : postsFor fr st msg flag x = out) by (unfold postsFor; by rewrite Hout).
    by rewrite Hout, Hx.
Qed.

(** X15. [broadCastAll(msg, true)] stops with a [TypeError] at the first
    OPEN tab for which [window.open] had returned [null]: the tabs before
    it have been posted to, those after it get nothing. *)
Theorem broadCastAll_framed_stops fr msg flag st text l1 t l2 :
  truthy flag = true →
  tabUtils._preProcessMessage msg st = Ret text →
  tabUtils.getOpened st = l1 ++ t :: l2 →
  tab_ref t = None →
  Forall (λ t, is_Some (tab_ref t)) l1 →
  Broadcast.broadCastAll fr msg flag st
  = (Throw typeError, l1 ≫= postsFor fr st text flag).
Proof.
  intros Hflag Hpre Hopen Hnone Hl1. unfold Broadcast.broadCastAll.
  rewrite Hpre, Hopen. by apply sendAll_throws.
Qed.

End Broadcasts.

(** X13, witness. *)
Lemma broadCastTo_unknown_id_witness :
  Forall (λ t, arrayUtils.key_matches (tab_id t) "no-such-id" = false)
    (tabs Sample.twoTabs)
  ∧ tabUtils._preProcessMessage (VStr "hi") Sample.twoTabs = Ret Fixtures.hi
  ∧ Broadcast.broadCastTo Fixtures.windows "no-such-id" (VStr "hi") (VBool true)
      Sample.twoTabs
    = (Throw typeError, []).
Proof.
  assert (H1 : Forall (λ t, arrayUtils.key_matches (tab_id t) "no-such-id" = false)
                 (tabs Sample.twoTabs)) by (vm_compute; repeat constructor).
  assert (H2 : tabUtils._preProcessMessage (VStr "hi") Sample.twoTabs
               = Ret Fixtures.hi) by (vm_compute; reflexivity).
  exact (conj H1 (conj H2
           (broadCastTo_unknown_id Fixtures.windows "no-such-id" (VStr "hi")
              (VBool true) Sample.twoTabs Fixtures.hi H1 H2))).
Defined.

(** X14, witness: the target was closed through [closeTab] before. *)
Lemma broadCastTo_first_match_witness :
  let st := run Json.JSON (initialState "") Sample.openThenClose in
  tabs st !! 0 = Some Sample.closedTab
  ∧ tabUtils._preProcessMessage (VStr "hi") st = Ret Fixtures.hi
  ∧ Broadcast.Parent_broadCastTo Fixtures.windows (UUID.generate Sample.draws1)
      (VStr "hi") st
    = (Ret tt, option_list (topPost Fixtures.windows st Fixtures.hi Sample.closedTab)).
Proof.
  intros st.
  assert (H1 : tabs st !! 0 = Some Sample.closedTab) by (vm_compute; reflexivity).
  assert (H2 : arrayUtils.key_matches (tab_id Sample.closedTab)
                 (UUID.generate Sample.draws1) = true) by (vm_compute; reflexivity).
  assert (H3 : Forall (λ t, arrayUtils.key_matches (tab_id t)
                              (UUID.generate Sample.draws1) = false)
                 (take 0 (tabs st))) by constructor.
  assert (H4 : tabUtils._preProcessMessage (VStr "hi") st = Ret Fixtures.hi)
    by (vm_compute; reflexivity).
  exact (conj H1 (conj H4
           (broadCastTo_first_match Fixtures.windows _ (VStr "hi") st 0
              Sample.closedTab Fixtures.hi H1 H2 H3 H4))).
Defined.

(** X15, witness. *)
Lemma broadCastAll_framed_stops_witness :
  truthy (VBool true) = true
  ∧ tabUtils._preProcessMessage (VStr "hi") Fixtures.blocked = Ret Fixtures.hi
  ∧ tabUtils.getOpened Fixtures.blocked
    = [Sample.staleTab] ++ Fixtures.blockedTab :: []
  ∧ Broadcast.broadCastAll Fixtures.windows (VStr "hi") (VBool true)
      Fixtures.blocked
    = (Throw typeError,
       [Sample.staleTab]
         ≫= postsFor Fixtures.windows Fixtures.blocked Fixtures.hi (VBool true)).
Proof.
  assert (H1 : truthy (VBool true) = true) by reflexivity.
  assert (H2 : tabUtils._preProcessMessage (VStr "hi") Fixtures.blocked
               = Ret Fixtures.hi) by (vm_compute; reflexivity).
  assert (H3 : tabUtils.getOpened Fixtures.blocked
               = [Sample.staleTab] ++ Fixtures.blockedTab :: [])
    by (vm_compute; reflexivity).
  assert (H4 : tab_ref Fixtures.blockedTab = None) by reflexivity.
  assert (H5 : Forall (λ t, is_Some (tab_ref t)) [Sample.staleTab])
    by (repeat constructor; by eexists).
  exact (conj H1 (conj H2 (conj H3
           (broadCastAll_framed_stops Fixtures.windows (VStr "hi") (VBool true)
              Fixtures.blocked Fixtures.hi [Sample.staleTab] Fixtures.blockedTab []
              H1 H2 H3 H4 H5)))).
Defined.


(** ** Messages from child tabs *)

Section ParentListener.

Implicit Types (st : State) (t : Tab) (fr : Frames) (p : Listener.Page).

#[local] Arguments String.append !_ _ / : simpl nomatch.

Lemma tagged_envelope T s : Child.tagged (T +:+ s) T = true.
Proof.
  unfold Child.tagged, JS.indexOf. by rewrite (prefix_find _ _ (prefix_app T s)).
Qed.

Lemma piece_envelope T s :
  T ≠ "" → JS.indexOf s T = (-1)%Z →
  Child.text_of (JS.split (T +:+ s) T !! 1) = s.
Proof.
  intros HT Habsent. rewrite split_envelope by done. simpl.
  apply before_absent. by apply indexOf_absent.
Qed.

Lemma bind_step {A B} (m : Listener.M A) (k : A → Listener.M B) p a p' out :
  m p = Some (Ret a, p', out) →
  Listener.bind m k p
  = match k a p' with
    | None => None
    | Some (r, p'', out') => Some (r, p'', out ++ out')
    end.
Proof. intros H. unfold Listener.bind. by rewrite H. Qed.

Lemma bind_pure {A B} (m : Listener.M A) (k : A → Listener.M B) p a p' :
  m p = Some (Ret a, p', []) → Listener.bind m k p = k a p'.
Proof.
  intros H. unfold Listener.bind. rewrite H. by destruct (k a p') as [[[? ?] ?]|].
Qed.

Lemma bind_throw {A B} (m : Listener.M A) (k : A → Listener.M B) p e p' out :
  m p = Some (Throw e, p', out) →
  Listener.bind m k p = Some (Throw e, p', out).
Proof. intros H. unfold Listener.bind. by rewrite H. Qed.

Lemma parse_with_config_ok p c text v :
  config (Listener.state p) = Some c →
  parse (codec c) text = Some v →
  Listener.parse_with_config text p = Some (Ret v, p, []).
Proof.
  intros Hc Hp. unfold Listener.parse_with_config, Listener.bind, Listener.gets.
  by rewrite Hc, Hp.
Qed.

Lemma bind_gets {A B} (f : Listener.Page → A) (k : A → Listener.M B) p :
  Listener.bind (Listener.gets f) k p = k (f p) p.
Proof.
  unfold Listener.bind, Listener.gets. by destruct (k (f p) p) as [[[? ?] ?]|].
Qed.

Lemma bind_modify {B} (f : Listener.Page → Listener.Page) (k : unit → Listener.M B) p :
  Listener.bind (Listener.modify f) k p = k tt (f p).
Proof.
  unfold Listener.bind, Listener.modify. by destruct (k tt (f p)) as [[[? ?] ?]|].
Qed.

Lemma bind_ret {A B} (a : A) (k : A → Listener.M B) p :
  Listener.bind (Listener.ret a) k p = k a p.
Proof.
  unfold Listener.bind, Listener.ret. by destruct (k a p) as [[[? ?] ?]|].
Qed.

(** The guards of [onNewTab] let a message through. *)
Lemma onNewTab_passes fr p c data sender :
  tabs (Listener.state p) ≠ [] →
  config (Listener.state p) = Some c →
  origin_ok (origin c) sender = true →
  JS.is_empty data = false →
  Listener.onNewTab fr (Child.mkMessage (VStr data) sender) p
  = (if Child.tagged data PostMessageEventNamesEnum.LOADED
     then Listener._onLoad fr data
     else if Child.tagged data PostMessageEventNamesEnum.CUSTOM
     then Listener._onCustomMessage data PostMessageEventNamesEnum.CUSTOM
     else if Child.tagged data PostMessageEventNamesEnum.HANDSHAKE
     then Listener._onCustomMessage data PostMessageEventNamesEnum.HANDSHAKE
     else if Child.tagged data PostMessageEventNamesEnum.ON_BEFORE_UNLOAD
     then Listener._onBeforeUnload data
     else Listener.ret tt) p.
Proof.
  intros Htabs Hc Ho He. unfold Listener.onNewTab. rewrite bind_gets.
  cbn [Child.data Child.sender]. rewrite He, Hc. cbn [orb mbind option_bind].
  rewrite bool_decide_eq_false_2 by done.
  unfold origin_ok in Ho. destruct (or_else (origin c) None) as [o|]; [| done].
  by rewrite Ho.
Qed.

Lemma receive_attached fr p message :
  attached (Listener.state p) ≠ [] →
  Listener.receive fr message p = Listener.onNewTab fr message p.
Proof.
  intros Ha. unfold Listener.receive. rewrite bind_gets.
  by destruct (attached (Listener.state p)).
Qed.


(** A LOADED message without an id leaves the registry alone. *)
Lemma reassociate_idless p c piece tabInfo idv :
  config (Listener.state p) = Some c →
  parse (codec c) piece = Some tabInfo →
  Coerce.property tabInfo "id" = Some idv →
  truthy idv = false →
  Listener.reassociate piece p = Some (Ret tabInfo, p, []).
Proof.
  intros Hc Hp Hid Hfalsy. unfold Listener.reassociate.
  rewrite (bind_step _ _ _ _ _ _ (parse_with_config_ok _ _ _ _ Hc Hp)).
  unfold Listener.property. rewrite Hid, bind_ret, Hfalsy.
  cbn [Listener.when]. by rewrite bind_ret.
Qed.

Lemma rethrow_returns {A} message (m : Listener.M A) p a p' out :
  m p = Some (Ret a, p', out) → Listener.rethrow message m p = Some (Ret a, p', out).
Proof. intros H. unfold Listener.rethrow. by rewrite H. Qed.




End ParentListener.


Section Reassociation.

Implicit Types (st : State) (t : Tab) (fr : Frames) (p : Listener.Page).


Lemma mutate_last (l : list Tab) t f :
  NoDup (tab_obj <$> l ++ [t]) → mutate (tab_obj t) f (l ++ [t]) = l ++ [f t].
Proof.
  intros Hnd.
  rewrite (mutate_insert _ (length l) t) by (done || by apply list_lookup_middle).
  rewrite insert_app_r_alt by done. by rewrite Nat.sub_diag.
Qed.


End Reassociation.


(** ** Events raised for the instances *)

Section Events.

Implicit Types (st : State) (fr : Frames) (p : Listener.Page).

(** Every instance runs its handler once, in the order of attachment. *)
Lemma dispatchEvent_from_calls (has : ParentConfig → bool) cb
    (f : Listener.Page → Listener.Page)
    (handler : nat → ParentConfig → Listener.M unit) :
  (∀ i this p,
      handler i this p = Some (Ret tt, f p, if has this then [Call i cb] else [])) →
  (∀ p, f (f p) = f p) →
  ∀ instances i p,
    Listener.dispatchEvent_from i instances handler p
    = Some (Ret tt, match instances with [] => p | _ :: _ => f p end,
            omap id (imap (λ j this, if has this then Some (Call (i + j) cb) else None)
                       instances)).
Proof.
  intros Hh Hf. induction instances as [|this rest IH]; intros i p; [done |].
  cbn [Listener.dispatchEvent_from].
  rewrite (bind_step _ _ _ _ _ _ (Hh i this p)), IH.
  rewrite imap_cons. cbn [omap list_omap]. rewrite Nat.add_0_r.
  assert (Hext : imap ((λ j this0, if has this0 then Some (Call (i + j) cb) else None) ∘ S) rest
                 = imap (λ j this0, if has this0 then Some (Call (S i + j) cb) else None) rest).
  { apply imap_ext. intros j x _. simpl. by rewrite Nat.add_succ_r. }
  rewrite Hext. destruct rest; rewrite ?Hf; by destruct (has this).
Qed.

Lemma dispatchEvent_calls (has : ParentConfig → bool) cb
    (f : Listener.Page → Listener.Page)
    (handler : nat → ParentConfig → Listener.M unit) p :
  (∀ i this p,
      handler i this p = Some (Ret tt, f p, if has this then [Call i cb] else [])) →
  (∀ p, f (f p) = f p) →
  attached (Listener.state p) ≠ [] →
  Listener.dispatchEvent handler p
  = Some (Ret tt, f p, callsOf has cb (attached (Listener.state p))).
Proof.
  intros Hh Hf Hatt. unfold Listener.dispatchEvent. rewrite bind_gets.
  rewrite (dispatchEvent_from_calls has cb f handler Hh Hf).
  by destruct (attached (Listener.state p)).
Qed.

Lemma customEventUnListener_custom v i this p :
  Listener.customEventUnListener v PostMessageEventNamesEnum.CUSTOM i this p
  = Some (Ret tt, enabled p,
          if onChildCommunication this then [Call i (ChildCommunication v)] else []).
Proof.
  unfold Listener.customEventUnListener. rewrite bind_modify.
  change (String.eqb PostMessageEventNamesEnum.CUSTOM PostMessageEventNamesEnum.HANDSHAKE)
    with false.
  change (String.eqb PostMessageEventNamesEnum.CUSTOM PostMessageEventNamesEnum.CUSTOM)
    with true.
  cbn [andb]. by destruct (onChildCommunication this).
Qed.


Lemma onChildUnload_calls detail i this p :
  Listener.onChildUnload detail i this p
  = Some (Ret tt, p,
          if onChildDisconnect this then [Call i (ChildDisconnect detail)] else []).
Proof. unfold Listener.onChildUnload. by destruct (onChildDisconnect this). Qed.

(** The path of a CUSTOM envelope through the parent page. *)
Lemma custom_envelope_dispatch fr p c sender text msg :
  attached (Listener.state p) ≠ [] →
  tabs (Listener.state p) ≠ [] →
  config (Listener.state p) = Some c →
  origin_ok (origin c) sender = true →
  Child.tagged (PostMessageEventNamesEnum.CUSTOM +:+ text)
    PostMessageEventNamesEnum.LOADED = false →
  JS.indexOf text PostMessageEventNamesEnum.CUSTOM = (-1)%Z →
  parse (codec c) text = Some msg →
  Listener.receive fr
    (Child.mkMessage (VStr (PostMessageEventNamesEnum.CUSTOM +:+ text)) sender) p
  = Some (Ret tt, enabled p,
          callsOf onChildCommunication (ChildCommunication msg)
            (attached (Listener.state p))).
Proof.
  intros Hatt Htabs Hc Ho Hload Habsent Hp.
  rewrite receive_attached by done.
  rewrite (onNewTab_passes fr p c _ sender) by done.
  rewrite Hload, tagged_envelope.
  unfold Listener._onCustomMessage. rewrite piece_envelope by done.
  rewrite (bind_step _ _ _ _ _ _
             (rethrow_returns _ _ _ _ _ _ (parse_with_config_ok _ _ _ _ Hc Hp))).
  by rewrite (dispatchEvent_calls onChildCommunication (ChildCommunication msg)
                enabled _ p (customEventUnListener_custom msg)).
Qed.



End Events.



(** ** Unload notices *)

Section UnloadNotice.

Implicit Types (st : State) (t : Tab) (fr : Frames) (p : Listener.Page).

Lemma coerce_search_absent i data v :
  Forall (λ t, Coerce.key_matches (tab_id t) v = false) data →
  Coerce.search_from i data v = (-1)%Z.
Proof.
  intros H. revert i. induction H as [|t data Ht _ IH]; intros i; simpl; [done |].
  by rewrite Ht.
Qed.

Lemma coerce_search_first i data v n t :
  data !! n = Some t →
  Coerce.key_matches (tab_id t) v = true →
  Forall (λ t, Coerce.key_matches (tab_id t) v = false) (take n data) →
  Coerce.search_from i data v = (i + Z.of_nat n)%Z.
Proof.
  revert i n. induction data as [|t0 data IH]; intros i n Hn Hm Hfirst; [done |].
  destruct n as [|n]; simpl.
  - injection Hn as ->. rewrite Hm. lia.
  - simpl in Hfirst. apply Forall_cons in Hfirst as [H0 Hrest].
    rewrite H0, (IH (i + 1)%Z n) by done. lia.
Qed.

Lemma coerce_searchByKeyName_first data v n t :
  data !! n = Some t →
  Coerce.key_matches (tab_id t) v = true →
  Forall (λ t, Coerce.key_matches (tab_id t) v = false) (take n data) →
  Coerce.searchByKeyName data v = Some t.
Proof.
  intros Hn Hm Hfirst. unfold Coerce.searchByKeyName.
  rewrite (coerce_search_first 0 data v n t) by done. rewrite Z.add_0_l.
  replace (Z.of_nat n =? -1)%Z with false by (symmetry; apply Z.eqb_neq; lia).
  by rewrite Nat2Z.id.
Qed.

(** The path of an unload notice up to the search. *)
Lemma onBeforeUnload_runs fr p c sender text detail idv :
  attached (Listener.state p) ≠ [] →
  tabs (Listener.state p) ≠ [] →
  config (Listener.state p) = Some c →
  origin_ok (origin c) sender = true →
  let data := PostMessageEventNamesEnum.ON_BEFORE_UNLOAD +:+ text in
  Child.tagged data PostMessageEventNamesEnum.LOADED = false →
  Child.tagged data PostMessageEventNamesEnum.CUSTOM = false →
  Child.tagged data PostMessageEventNamesEnum.HANDSHAKE = false →
  JS.indexOf text PostMessageEventNamesEnum.ON_BEFORE_UNLOAD = (-1)%Z →
  parse (codec c) text = Some detail →
  Coerce.property detail "id" = Some idv →
  Listener.receive fr (Child.mkMessage (VStr data) sender) p
  = Some (Ret tt,
          match Coerce.searchByKeyName (tabs (Listener.state p)) idv with
          | Some tab => Listener.refer_to tab p
          | None => Listener.mkPage (Listener.state p) true
          end,
          callsOf onChildDisconnect (ChildDisconnect detail)
            (attached (Listener.state p))).
Proof.
  intros Hatt Htabs Hc Ho data H1 H2 H3 Habsent Hp Hid.
  rewrite receive_attached by done.
  rewrite (onNewTab_passes fr p c _ sender) by done.
  rewrite H1, H2, H3. subst data. rewrite tagged_envelope.
  unfold Listener._onBeforeUnload. rewrite piece_envelope by done.
  rewrite (bind_step _ _ _ _ _ _
             (rethrow_returns _ _ _ _ _ _ (parse_with_config_ok _ _ _ _ Hc Hp))).
  rewrite bind_gets. unfold tabUtils.getAll.
  destruct (tabs (Listener.state p)) as [|t0 l0] eqn:Hl; [done |].
  unfold Listener.property. rewrite Hid.
  set (found := Coerce.searchByKeyName (t0 :: l0) idv).
  set (p1 := match found with
             | Some tab => Listener.refer_to tab p
             | None => Listener.mkPage (Listener.state p) true
             end).
  assert (Hatt1 : attached (Listener.state p1) = attached (Listener.state p))
    by (subst p1; by destruct found).
  rewrite (bind_step _ _ p tt p1 []).
  - rewrite (dispatchEvent_calls onChildDisconnect (ChildDisconnect detail)
               (λ p, p) _ p1 (onChildUnload_calls detail))
      by (done || by rewrite Hatt1).
    by rewrite Hatt1.
  - rewrite bind_ret. subst p1 found.
    by destruct (Coerce.searchByKeyName (t0 :: l0) idv).
Qed.

(** X20. A child that unloads is reported to the parent: the unload
    hook of a child page with an opener posts the ON_BEFORE_UNLOAD
    envelope of [{id, isSiteInsideFrame}]; the parent page that receives
    it makes the first record whose id matches the id of the notice the
    newly opened tab, to which the next handshake goes, and calls
    [onChildDisconnect] with the parsed notice once for every attached
    instance that has the callback (callbacks are taken to return without
    touching the library); the registry is not changed and the status of
    the record stays as it is. *)
Theorem unload_notice_selects_tab fr this q p c sender text detail idv n t :
  let data := PostMessageEventNamesEnum.ON_BEFORE_UNLOAD +:+ text in
  Child.beforeUnloadHook q = true →
  Child.hasOpener q = true →
  stringify (Child.codec this)
    (VObj [("id", Child.tabId q);
           ("isSiteInsideFrame", Child.isSiteInsideFrame this)]) = SText text →
  attached (Listener.state p) ≠ [] →
  config (Listener.state p) = Some c →
  origin_ok (origin c) sender = true →
  Child.tagged data PostMessageEventNamesEnum.LOADED = false →
  Child.tagged data PostMessageEventNamesEnum.CUSTOM = false →
  Child.tagged data PostMessageEventNamesEnum.HANDSHAKE = false →
  JS.indexOf text PostMessageEventNamesEnum.ON_BEFORE_UNLOAD = (-1)%Z →
  parse (codec c) text = Some detail →
  Coerce.property detail "id" = Some idv →
  tabs (Listener.state p) !! n = Some t →
  Coerce.key_matches (tab_id t) idv = true →
  Forall (λ t, Coerce.key_matches (tab_id t) idv = false)
    (take n (tabs (Listener.state p))) →
  ChildEvents.unload this q
  = (Ret tt, Child.postMessage data (Child.targetOrigin this) q)
  ∧ ∃ p',
      Listener.receive fr (Child.mkMessage (VStr data) sender) p
      = Some (Ret tt, p',
              callsOf onChildDisconnect (ChildDisconnect detail)
                (attached (Listener.state p)))
      ∧ tabs (Listener.state p') = tabs (Listener.state p)
      ∧ Listener.newly p'
        = Listener.SomeNewly (tab_id t) (or_else (tab_name t) (tab_windowName t))
            (tab_ref t).
Proof.
  intros data Hhook Hop Hstr Hatt Hc Ho H1 H2 H3 Habsent Hp Hid Hn Hm Hfirst.
  split.
  { unfold ChildEvents.unload, ChildEvents.onbeforeunload. rewrite Hhook.
    unfold Child.sendMessageToParent, Child.encode, Child.bind, Child.gets.
    cbn [or_else default JS.is_empty PostMessageEventNamesEnum.ON_BEFORE_UNLOAD].
    rewrite Hstr. unfold Child.when. by rewrite Hop. }
  exists (Listener.refer_to t p). split; [| done].
  assert (Htabs : tabs (Listener.state p) ≠ [])
    by (intros Hnil; by rewrite Hnil in Hn).
  subst data.
  rewrite (onBeforeUnload_runs fr p c sender text detail idv) by done.
  by rewrite (coerce_searchByKeyName_first _ _ n t).
Qed.

(** X21. An unload notice whose id matches no record leaves the empty
    object of the search in [window.newlyTabOpened]; [onChildDisconnect]
    is called all the same.  A LOADED message without an id that arrives
    in that state is answered with no post at all, so the child that
    loaded gets no handshake. *)
Theorem unload_notice_unknown_id_blocks_handshake fr p c sender text detail idv
    piece tabInfo lid flag :
  let notice := PostMessageEventNamesEnum.ON_BEFORE_UNLOAD +:+ text in
  let p' := Listener.mkPage (Listener.state p) true in
  attached (Listener.state p) ≠ [] →
  tabs (Listener.state p) ≠ [] →
  config (Listener.state p) = Some c →
  origin_ok (origin c) sender = true →
  Child.tagged notice PostMessageEventNamesEnum.LOADED = false →
  Child.tagged notice PostMessageEventNamesEnum.CUSTOM = false →
  Child.tagged notice PostMessageEventNamesEnum.HANDSHAKE = false →
  JS.indexOf text PostMessageEventNamesEnum.ON_BEFORE_UNLOAD = (-1)%Z →
  parse (codec c) text = Some detail →
  Coerce.property detail "id" = Some idv →
  Forall (λ t, Coerce.key_matches (tab_id t) idv = false) (tabs (Listener.state p)) →
  JS.is_empty piece = false →
  JS.indexOf piece PostMessageEventNamesEnum.LOADED = (-1)%Z →
  parse (codec c) piece = Some tabInfo →
  Coerce.property tabInfo "id" = Some lid → truthy lid = false →
  Coerce.property tabInfo "isSiteInsideFrame" = Some flag → truthy flag = false →
  (∀ e, stringify (codec c)
          (VObj [("id", VUndefined); ("name", VUndefined);
                 ("parentName", VStr (windowName (Listener.state p)))])
        ≠ SThrows e) →
  Listener.receive fr (Child.mkMessage (VStr notice) sender) p
  = Some (Ret tt, p',
          callsOf onChildDisconnect (ChildDisconnect detail)
            (attached (Listener.state p)))
  ∧ Listener.receive fr
      (Child.mkMessage (VStr (PostMessageEventNamesEnum.LOADED +:+ piece)) sender) p'
    = Some (Ret tt, p', []).
Proof.
  intros notice p' Hatt Htabs Hc Ho H1 H2 H3 Habsent Hp Hid Hnone
    He Hlabsent Hlp Hlid Hlidf Hflag Hflagf Hs.
  split.
  - subst notice.
    rewrite (onBeforeUnload_runs fr p c sender text detail idv) by done.
    unfold Coerce.searchByKeyName. by rewrite coerce_search_absent.
  - rewrite receive_attached by done.
    rewrite (onNewTab_passes fr p' c _ sender) by done.
    rewrite tagged_envelope. unfold Listener._onLoad.
    rewrite piece_envelope by done. rewrite He.
    assert (Hc' : config (Listener.state p') = Some c) by done.
    rewrite (bind_step _ _ _ _ _ _
               (rethrow_returns _ _ _ _ _ _
                  (reassociate_idless _ _ _ _ _ Hc' Hlp Hlid Hlidf))).
    assert (Hack : Listener.acknowledge fr tabInfo p' = Some (Ret tt, p', [])).
    { unfold Listener.acknowledge.
      rewrite bind_gets. change (Listener.newly p') with Listener.EmptyNewly.
      cbv beta iota zeta. rewrite bind_gets. cbn [Listener.state p']. rewrite Hc.
      destruct (stringify (codec c) _) as [e| |s] eqn:Hstr;
        [by destruct (Hs e) | |];
        unfold Listener.property; rewrite Hflag, bind_ret;
        unfold Broadcast.sendMessage; by rewrite Hflagf. }
    by rewrite (rethrow_returns _ _ _ _ _ _ Hack).
Qed.

End UnloadNotice.

(** X20, witness: the child that holds the id of the tab of
    [Fixtures.twoInstances] unloads. *)
Lemma unload_notice_selects_tab_witness :
  let id := UUID.generate Sample.draws1 in
  let data := PostMessageEventNamesEnum.ON_BEFORE_UNLOAD +:+ Fixtures.idText id in
  Child.tabId Fixtures.known = VStr id
  ∧ tabs (Listener.state Fixtures.twoInstances) !! 0 = Some Sample.staleTab
  ∧ parse Json.JSON (Fixtures.idText id) = Some (Fixtures.idInfo id)
  ∧ ChildEvents.unload Sample.child Fixtures.known
    = (Ret tt, Child.postMessage data (Child.targetOrigin Sample.child) Fixtures.known)
  ∧ ∃ p',
      Listener.receive Fixtures.windows
        (Child.mkMessage (VStr data) "https://kid.example") Fixtures.twoInstances
      = Some (Ret tt, p',
              callsOf onChildDisconnect (ChildDisconnect (Fixtures.idInfo id))
                (attached (Listener.state Fixtures.twoInstances)))
      ∧ tabs (Listener.state p') = tabs (Listener.state Fixtures.twoInstances)
      ∧ Listener.newly p'
        = Listener.SomeNewly (tab_id Sample.staleTab)
            (or_else (tab_name Sample.staleTab) (tab_windowName Sample.staleTab))
            (tab_ref Sample.staleTab).
Proof.
  intros id data.
  assert (K0 : Child.tabId Fixtures.known = VStr id) by (vm_compute; reflexivity).
  assert (K1 : Child.beforeUnloadHook Fixtures.known = true)
    by (vm_compute; reflexivity).
  assert (K2 : Child.hasOpener Fixtures.known = true) by (vm_compute; reflexivity).
  assert (K3 : stringify (Child.codec Sample.child)
                 (VObj [("id", Child.tabId Fixtures.known);
                        ("isSiteInsideFrame", Child.isSiteInsideFrame Sample.child)])
               = SText (Fixtures.idText id)) by (vm_compute; reflexivity).
  assert (H1 : attached (Listener.state Fixtures.twoInstances) ≠ []) by discriminate.
  assert (H2 : config (Listener.state Fixtures.twoInstances) = Some Sample.parent)
    by reflexivity.
  assert (H3 : origin_ok (origin Sample.parent) "https://kid.example" = true)
    by reflexivity.
  assert (H4 : Child.tagged data PostMessageEventNamesEnum.LOADED = false)
    by (vm_compute; reflexivity).
  assert (H5 : Child.tagged data PostMessageEventNamesEnum.CUSTOM = false)
    by (vm_compute; reflexivity).
  assert (H6 : Child.tagged data PostMessageEventNamesEnum.HANDSHAKE = false)
    by (vm_compute; reflexivity).
  assert (H7 : JS.indexOf (Fixtures.idText id)
                 PostMessageEventNamesEnum.ON_BEFORE_UNLOAD = (-1)%Z)
    by (vm_compute; reflexivity).
  assert (H8 : parse (codec Sample.parent) (Fixtures.idText id)
               = Some (Fixtures.idInfo id)) by (vm_compute; reflexivity).
  assert (H9 : Coerce.property (Fixtures.idInfo id) "id" = Some (VStr id))
    by reflexivity.
  assert (H10 : tabs (Listener.state Fixtures.twoInstances) !! 0
                = Some Sample.staleTab) by (vm_compute; reflexivity).
  assert (H11 : Coerce.key_matches (tab_id Sample.staleTab) (VStr id) = true)
    by (vm_compute; reflexivity).
  assert (H12 : Forall (λ t, Coerce.key_matches (tab_id t) (VStr id) = false)
                  (take 0 (tabs (Listener.state Fixtures.twoInstances))))
    by constructor.
  exact (conj K0 (conj H10 (conj H8
           (unload_notice_selects_tab Fixtures.windows Sample.child Fixtures.known
              Fixtures.twoInstances Sample.parent "https://kid.example"
              (Fixtures.idText id) (Fixtures.idInfo id) (VStr id) 0 Sample.staleTab
              K1 K2 K3 H1 H2 H3 H4 H5 H6 H7 H8 H9 H10 H11 H12)))).
Defined.

(** X21, witness: a child that never learnt its id unloads -- its notice
    carries the id [null], which matches no record -- and then a child
    loads. *)
Lemma unload_notice_unknown_id_blocks_handshake_witness :
  let p := Fixtures.twoInstances in
  let p' := Listener.mkPage (Listener.state p) true in
  let notice := PostMessageEventNamesEnum.ON_BEFORE_UNLOAD +:+ Fixtures.nullIdText in
  Forall (λ t, Coerce.key_matches (tab_id t) VNull = false)
    (tabs (Listener.state p))
  ∧ parse Json.JSON Fixtures.kidText = Some Fixtures.kidInfo
  ∧ Listener.receive Fixtures.windows
      (Child.mkMessage (VStr notice) "https://kid.example") p
    = Some (Ret tt, p',
            callsOf onChildDisconnect (ChildDisconnect (Fixtures.nullIdInfo))
              (attached (Listener.state p)))
  ∧ Listener.receive Fixtures.windows
      (Child.mkMessage
         (VStr (PostMessageEventNamesEnum.LOADED +:+ Fixtures.kidText))
         "https://kid.example") p'
    = Some (Ret tt, p', []).
Proof.
  intros p p' notice.
  assert (H1 : attached (Listener.state p) ≠ []) by discriminate.
  assert (H1' : tabs (Listener.state p) ≠ []) by (vm_compute; discriminate).
  assert (H2 : config (Listener.state p) = Some Sample.parent) by reflexivity.
  assert (H3 : origin_ok (origin Sample.parent) "https://kid.example" = true)
    by reflexivity.
  assert (H4 : Child.tagged notice PostMessageEventNamesEnum.LOADED = false)
    by (vm_compute; reflexivity).
  assert (H5 : Child.tagged notice PostMessageEventNamesEnum.CUSTOM = false)
    by (vm_compute; reflexivity).
  assert (H6 : Child.tagged notice PostMessageEventNamesEnum.HANDSHAKE = false)
    by (vm_compute; reflexivity).
  assert (H7 : JS.indexOf (Fixtures.nullIdText)
                 PostMessageEventNamesEnum.ON_BEFORE_UNLOAD = (-1)%Z)
    by (vm_compute; reflexivity).
  assert (H8 : parse (codec Sample.parent) (Fixtures.nullIdText)
               = Some (Fixtures.nullIdInfo)) by (vm_compute; reflexivity).
  assert (H9 : Coerce.property (Fixtures.nullIdInfo) "id" = Some VNull)
    by reflexivity.
  assert (H10 : Forall (λ t, Coerce.key_matches (tab_id t) VNull = false)
                  (tabs (Listener.state p))) by (vm_compute; repeat constructor).
  assert (H11 : JS.is_empty Fixtures.kidText = false) by reflexivity.
  assert (H12 : JS.indexOf Fixtures.kidText PostMessageEventNamesEnum.LOADED
                = (-1)%Z) by (vm_compute; reflexivity).
  assert (H13 : parse (codec Sample.parent) Fixtures.kidText = Some Fixtures.kidInfo)
    by (vm_compute; reflexivity).
  assert (H14 : Coerce.property Fixtures.kidInfo "id" = Some VNull) by reflexivity.
  assert (H15 : truthy VNull = false) by reflexivity.
  assert (H16 : Coerce.property Fixtures.kidInfo "isSiteInsideFrame"
                = Some VUndefined) by reflexivity.
  assert (H17 : truthy VUndefined = false) by reflexivity.
  assert (H18 : ∀ e, stringify (codec Sample.parent)
                       (VObj [("id", VUndefined); ("name", VUndefined);
                              ("parentName", VStr (windowName (Listener.state p)))])
                     ≠ SThrows e) by (intros e; vm_compute; discriminate).
  exact (conj H10 (conj H13
           (unload_notice_unknown_id_blocks_handshake Fixtures.windows p
              Sample.parent "https://kid.example" (Fixtures.nullIdText)
              (Fixtures.nullIdInfo) VNull Fixtures.kidText
              Fixtures.kidInfo VNull VUndefined
              H1 H1' H2 H3 H4 H5 H6 H7 H8 H9 H10 H11 H12 H13 H14 H15 H16 H17 H18))).
Defined.

(** ** What a message cannot do *)

Section Relabelling.

Implicit Types (st : State) (t : Tab) (fr : Frames) (p : Listener.Page).

Lemma Relabels_refl p : Relabels p p.
Proof. by repeat split. Qed.

Lemma Relabels_trans p1 p2 p3 : Relabels p1 p2 → Relabels p2 p3 → Relabels p1 p3.
Proof.
  intros (Hs1 & Hf1 & Hl1) (Hs2 & Hf2 & Hl2). split; [congruence |].
  split; [congruence |]. intros Hnd i Hi.
  assert (Hobj : tab_obj <$> tabs (Listener.state p2)
                 = tab_obj <$> tabs (Listener.state p1)).
  { apply (f_equal (fmap (λ x, x.1.1.1.1.1))) in Hs1.
    by rewrite <- !list_fmap_compose in Hs1. }
  assert (Hlen : length (tabs (Listener.state p2)) = length (tabs (Listener.state p1))).
  { apply (f_equal length) in Hs1. by rewrite !length_fmap in Hs1. }
  rewrite Hl2, Hl1; try done; by rewrite ?Hobj, ?Hlen.
Qed.

Section Respect.

Variable R : Listener.Page → Listener.Page → Prop.
Hypothesis R_refl : ∀ p, R p p.
Hypothesis R_trans : ∀ p1 p2 p3, R p1 p2 → R p2 p3 → R p1 p3.

Lemma respects_ret {A} (a : A) : respects R (Listener.ret a).
Proof. intros p r p' out [= <- <- <-]. apply R_refl. Qed.

Lemma respects_throw {A} e : respects R (Listener.throw (A := A) e).
Proof. intros p r p' out [= <- <- <-]. apply R_refl. Qed.

Lemma respects_gets {A} (f : Listener.Page → A) : respects R (Listener.gets f).
Proof. intros p r p' out [= <- <- <-]. apply R_refl. Qed.

Lemma respects_emit out : respects R (Listener.emit out).
Proof. intros p r p' out' [= <- <- <-]. apply R_refl. Qed.

Lemma respects_modify f : (∀ p, R p (f p)) → respects R (Listener.modify f).
Proof. intros Hf p r p' out [= <- <- <-]. apply Hf. Qed.

Lemma respects_bind {A B} (m : Listener.M A) (k : A → Listener.M B) :
  respects R m → (∀ a, respects R (k a)) → respects R (Listener.bind m k).
Proof.
  intros Hm Hk p r p' out. unfold Listener.bind.
  destruct (m p) as [[[[a | e] p1] out1]|] eqn:Hmp; [| | done].
  - destruct (k a p1) as [[[r2 p2] out2]|] eqn:Hkp; [| done].
    intros [= <- <- <-]. eapply R_trans; [by eapply Hm | by eapply Hk].
  - intros [= <- <- <-]. by eapply Hm.
Qed.

Lemma respects_when b m : respects R m → respects R (Listener.when b m).
Proof. intros Hm. destruct b; [done | apply respects_ret]. Qed.

Lemma respects_rethrow {A} message (m : Listener.M A) :
  respects R m → respects R (Listener.rethrow message m).
Proof.
  intros Hm p r p' out. unfold Listener.rethrow.
  destruct (m p) as [[[[a | e] p1] out1]|] eqn:Hmp; intros [= <- <- <-];
    by eapply Hm.
Qed.

Lemma respects_parse_with_config text : respects R (Listener.parse_with_config text).
Proof.
  apply respects_bind; [apply respects_gets |]. intros [c|]; [| apply respects_throw].
  destruct (parse (codec c) text); [apply respects_ret | apply respects_throw].
Qed.

Lemma respects_property v k : respects R (Listener.property v k).
Proof.
  unfold Listener.property.
  destruct (Coerce.property v k); [apply respects_ret | apply respects_throw].
Qed.

Lemma respects_dispatchEvent handler :
  (∀ i this, respects R (handler i this)) → respects R (Listener.dispatchEvent handler).
Proof.
  intros Hh. apply respects_bind; [apply respects_gets |]. intros instances.
  generalize 0. induction instances as [|this rest IH]; intros i; simpl;
    [apply respects_ret |].
  apply respects_bind; [apply Hh | intros _; apply IH].
Qed.

Lemma respects_acknowledge fr tabInfo : respects R (Listener.acknowledge fr tabInfo).
Proof.
  apply respects_bind; [apply respects_gets |]. intros n.
  destruct n as [| |id name ref]; [apply respects_ret | |];
    (apply respects_bind; [apply respects_gets |]; intros st;
     destruct (config st) as [c|]; [| apply respects_throw];
     destruct (stringify (codec c) _); [apply respects_throw | |];
     (apply respects_bind; [apply respects_property |]; intros flag;
      destruct (Broadcast.sendMessage _ _ _ _ _);
        [apply respects_emit | apply respects_throw])).
Qed.

End Respect.

Lemma parse_with_config_pure text p :
  ∃ r, Listener.parse_with_config text p = Some (r, p, []).
Proof.
  unfold Listener.parse_with_config. rewrite bind_gets.
  destruct (config (Listener.state p)) as [c|]; [| by eexists].
  destruct (parse (codec c) text); by eexists.
Qed.

Lemma property_pure v k p : ∃ r, Listener.property v k p = Some (r, p, []).
Proof. unfold Listener.property. destruct (Coerce.property v k); by eexists. Qed.

Lemma skeleton_mutate obj f (l : list Tab) :
  (∀ t, skeleton (f t) = skeleton t) → skeleton <$> mutate obj f l = skeleton <$> l.
Proof.
  intros Hf. unfold mutate. rewrite <- list_fmap_compose. apply list_fmap_ext.
  intros i t _. simpl. by case_bool_decide.
Qed.

(** Giving the last record an id and a name relabels. *)
Lemma Relabels_rename p l tab id name :
  tabs (Listener.state p) = l ++ [tab] →
  Relabels p
    (Listener.refer_to (Listener.set_id_name id name tab)
       (Listener.mkPage
          (set_tabs (mutate (tab_obj tab) (Listener.set_id_name id name)
                       (tabs (Listener.state p))) (Listener.state p))
          (Listener.newlyIsEmpty p))).
Proof.
  intros Hl. split; [| split; [done |]].
  - cbn. by apply skeleton_mutate.
  - intros Hnd i Hi. cbn. rewrite Hl in *. rewrite (mutate_last _ _ _ Hnd).
    rewrite length_app in Hi. simpl in Hi. rewrite !lookup_app_l by lia. done.
Qed.

Lemma Relabels_reassociate piece : respects Relabels (Listener.reassociate piece).
Proof.
  intros p r p' out. unfold Listener.reassociate.
  destruct (parse_with_config_pure piece p) as [[tabInfo | e] Hparse];
    [| rewrite (bind_throw _ _ _ _ _ _ Hparse); intros [= <- <- <-];
       apply Relabels_refl].
  rewrite (bind_pure _ _ _ _ _ Hparse).
  destruct (property_pure tabInfo "id" p) as [[id | e] Hid];
    [| rewrite (bind_throw _ _ _ _ _ _ Hid); intros [= <- <- <-];
       apply Relabels_refl].
  rewrite (bind_pure _ _ _ _ _ Hid).
  destruct (truthy id); cbn [Listener.when];
    [| rewrite !bind_ret; intros [= <- <- <-]; apply Relabels_refl].
  set (body := Listener.bind (Listener.gets _) _).
  assert (Hbody : respects Relabels body).
  { intros p0 r0 p0' out0. subst body. rewrite bind_gets. unfold tabUtils.getAll.
    destruct (last (tabs (Listener.state p0))) as [tab|] eqn:Hlast;
      [| intros [= <- <- <-]; apply Relabels_refl].
    apply last_Some in Hlast as [l Hl].
    destruct id; try done;
      destruct (if truthy (get tabInfo "name") then _ else _); try done;
      intros [= <- <- <-]; by apply (Relabels_rename p0 l). }
  exact (respects_bind Relabels Relabels_trans body _ Hbody
           (λ _, respects_ret Relabels Relabels_refl tabInfo) p r p' out).
Qed.

Lemma Relabels_onLoad fr data : respects Relabels (Listener._onLoad fr data).
Proof.
  apply (respects_bind _ Relabels_trans).
  - destruct (JS.is_empty _); [apply (respects_ret _ Relabels_refl) |].
    apply respects_rethrow, Relabels_reassociate.
  - intros tabInfo.
    apply respects_rethrow, (respects_acknowledge _ Relabels_refl Relabels_trans).
Qed.

Lemma Relabels_onCustomMessage data type :
  respects Relabels (Listener._onCustomMessage data type).
Proof.
  apply (respects_bind _ Relabels_trans).
  - apply respects_rethrow, (respects_parse_with_config _ Relabels_refl Relabels_trans).
  - intros tabInfo. apply (respects_dispatchEvent _ Relabels_refl Relabels_trans).
    intros i this. apply (respects_bind _ Relabels_trans).
    + by apply respects_modify.
    + intros _. repeat (destruct (_ && _); [apply respects_emit, Relabels_refl |]).
      apply (respects_ret _ Relabels_refl).
Qed.

Lemma Relabels_onBeforeUnload data : respects Relabels (Listener._onBeforeUnload data).
Proof.
  apply (respects_bind _ Relabels_trans).
  - apply respects_rethrow, (respects_parse_with_config _ Relabels_refl Relabels_trans).
  - intros tabInfo.
    apply (respects_bind _ Relabels_trans); [apply respects_gets, Relabels_refl |].
    intros registry. apply (respects_bind _ Relabels_trans).
    + destruct registry as [|t0 l0]; [apply (respects_ret _ Relabels_refl) |].
      apply (respects_bind _ Relabels_trans);
        [apply (respects_property _ Relabels_refl) |].
      intros id. destruct (Coerce.searchByKeyName _ _); by apply respects_modify.
    + intros _. apply (respects_dispatchEvent _ Relabels_refl Relabels_trans).
      intros i this.
      apply (respects_when _ Relabels_refl), (respects_emit _ Relabels_refl).
Qed.

(** X22. Whatever message the parent page receives, and whether handling
    it returns or throws, the registry keeps its records: none is added,
    removed, reordered, closed or reopened, window handles and urls stay,
    and so do the configuration, the timer and the attached instances.
    The only fields of records that a message can rewrite are the id and
    the name of the last record.  This is about the library's own code:
    callbacks are taken to return without touching the library, and a
    re-association is followed when it assigns a text as id and a text or
    [undefined] as name. *)
Theorem message_relabels_at_most fr message p r p' out :
  Listener.receive fr message p = Some (r, p', out) →
  skeleton <$> tabs (Listener.state p') = skeleton <$> tabs (Listener.state p)
  ∧ surroundings (Listener.state p') = surroundings (Listener.state p)
  ∧ (NoDup (tab_obj <$> tabs (Listener.state p)) →
     ∀ i, S i < length (tabs (Listener.state p)) →
          tabs (Listener.state p') !! i = tabs (Listener.state p) !! i).
Proof.
  revert p r p' out. change (respects Relabels (Listener.receive fr message)).
  apply (respects_bind _ Relabels_trans); [apply respects_gets, Relabels_refl |].
  intros [|this rest]; [apply (respects_ret _ Relabels_refl) |].
  apply (respects_bind _ Relabels_trans); [apply respects_gets, Relabels_refl |].
  intros st. destruct (Child.data message) as [| | | |data| |];
    try apply (respects_ret _ Relabels_refl).
  destruct (_ || _); [apply (respects_ret _ Relabels_refl) |].
  destruct (match or_else _ _ with Some _ => _ | None => _ end);
    [apply (respects_ret _ Relabels_refl) |].
  destruct (Child.tagged data _); [apply Relabels_onLoad |].
  destruct (Child.tagged data _); [apply Relabels_onCustomMessage |].
  destruct (Child.tagged data _); [apply Relabels_onCustomMessage |].
  destruct (Child.tagged data _); [apply Relabels_onBeforeUnload |].
  apply (respects_ret _ Relabels_refl).
Qed.

End Relabelling.

(** X22, witness: the text [hi] arrives as a CUSTOM message. *)
Lemma message_relabels_at_most_witness :
  let p := Fixtures.twoInstances in
  let message :=
    Child.mkMessage
      (VStr (PostMessageEventNamesEnum.CUSTOM +:+ Json.quote "hi"))
      "https://kid.example" in
  let p' := enabled p in
  Listener.receive Fixtures.windows message p
  = Some (Ret tt, p',
          callsOf onChildCommunication (ChildCommunication (VStr "hi"))
            (attached (Listener.state p)))
  ∧ skeleton <$> tabs (Listener.state p') = skeleton <$> tabs (Listener.state p)
  ∧ surroundings (Listener.state p') = surroundings (Listener.state p)
  ∧ (NoDup (tab_obj <$> tabs (Listener.state p)) →
     ∀ i, S i < length (tabs (Listener.state p)) →
          tabs (Listener.state p') !! i = tabs (Listener.state p) !! i).
Proof.
  intros p message p'.
  assert (H1 : attached (Listener.state p) ≠ []) by discriminate.
  assert (H2 : tabs (Listener.state p) ≠ []) by (vm_compute; discriminate).
  assert (H3 : config (Listener.state p) = Some Sample.parent) by reflexivity.
  assert (H4 : origin_ok (origin Sample.parent) "https://kid.example" = true)
    by reflexivity.
  assert (H5 : Child.tagged (PostMessageEventNamesEnum.CUSTOM +:+ Json.quote "hi")
                 PostMessageEventNamesEnum.LOADED = false)
    by (vm_compute; reflexivity).
  assert (H6 : JS.indexOf (Json.quote "hi") PostMessageEventNamesEnum.CUSTOM = (-1)%Z)
    by (vm_compute; reflexivity).
  assert (H7 : parse (codec Sample.parent) (Json.quote "hi") = Some (VStr "hi"))
    by (vm_compute; reflexivity).
  pose proof (custom_envelope_dispatch Fixtures.windows p Sample.parent
                "https://kid.example" (Json.quote "hi") (VStr "hi")
                H1 H2 H3 H4 H5 H6 H7) as H.
  exact (conj H (message_relabels_at_most Fixtures.windows message p (Ret tt) p'
                   _ H)).
Defined.

(** ** The child page across a reload *)

Section ChildReload.

Implicit Types (q p : Child.Page) (o : Child.Options) (this : Child.Config).

(** [init] on a page with session storage whose stored text parses. *)
Lemma init_restores this p v s :
  let stored := Child.stored_text
                  (Some (Child.sessionStorage p !! Child.sessionStorageKey)) in
  let info := VObj [("id", and_get v "id"); ("name", and_get v "name");
                    ("parentName", and_get v "parentName");
                    ("isSiteInsideFrame", Child.isSiteInsideFrame this)] in
  Child.hasSessionStorage p = true →
  parse (Child.codec this) stored = Some v →
  stringify (Child.codec this) info = SText s →
  ∃ p1,
    Child.init this p = (Ret tt, p1)
    ∧ Child.tabId p1 = and_get v "id"
    ∧ Child.tabName p1 = and_get v "name"
    ∧ Child.tabParentName p1 = and_get v "parentName"
    ∧ Child.sessionStorage p1 = Child.sessionStorage p
    ∧ Child.posted p1
      = (if Child.hasOpener p
         then Child.posted p
                ++ [(PostMessageEventNamesEnum.LOADED +:+ s, Child.targetOrigin this)]
         else Child.posted p)
    ∧ Child.timeout p1 = Some (S (Child.timersCreated p))
    ∧ bool_decide (S (Child.timersCreated p) ∈ Child.timeouts p1) = true.
Proof.
  intros stored info Hss Hparse Hstr.
  unfold Child.init, Child._isSessionStorage, Child.addListeners,
    Child._restoreData, Child._getData, Child._parseData, Child.getTabInfo,
    Child.sendMessageToParent, Child.setHandshakeExpiry, Child.encode.
  unfold Child.bind, Child.gets, Child.modify, Child.when, Child.ret.
  subst stored info. unfold Child.stored_text in Hparse.
  cbn. rewrite Hss. cbn. rewrite Hparse. cbn. rewrite Hstr.
  destruct (Child.hasOpener p), (Child.onReady this); cbn;
    (eexists; split; [done |]); cbn; repeat (split; [done |]);
    apply bool_decide_eq_true_2; set_solver.
Qed.

(** [init] on a page with session storage whose stored text does not
    parse. *)
Lemma init_aborts this p :
  let stored := Child.stored_text
                  (Some (Child.sessionStorage p !! Child.sessionStorageKey)) in
  Child.hasSessionStorage p = true →
  parse (Child.codec this) stored = None →
  ∃ p1,
    Child.init this p = (Throw WarningTextEnum.INVALID_DATA, p1)
    ∧ Child.posted p1 = Child.posted p
    ∧ Child.timeouts p1 = Child.timeouts p
    ∧ Child.calls p1 = Child.calls p
    ∧ Child.listeners p1
      = filter (λ g, g ≠ Child.functionsCreated p) (Child.listeners p)
          ++ [S (Child.functionsCreated p)]
    ∧ Child.beforeUnloadHook p1 = true.
Proof.
  intros stored Hss Hparse. subst stored. unfold Child.stored_text in Hparse.
  unfold Child.init, Child._isSessionStorage, Child.addListeners,
    Child._restoreData, Child._getData, Child._parseData.
  unfold Child.bind, Child.gets, Child.modify, Child.when, Child.ret.
  cbn. rewrite Hss. cbn. rewrite Hparse. cbn. eexists. split; [done |]. by cbn.
Qed.

(** What the constructor does before [init]. *)
Lemma constructor_inits JSON o p :
  Child.opt_shouldInitImmediately o ≠ Some false →
  ∃ this,
    Child.codec this
    = Serializer (default (parse JSON) (Child.opt_parse o))
        (default (stringify JSON) (Child.opt_stringify o))
    ∧ Child.isSiteInsideFrame this = Child.opt_isSiteInsideFrame o
    ∧ Child.origin this = Child.opt_origin o
    ∧ Child.constructor JSON (Some o) p
      = match Child.init this
                (Child.set_identity VNull (VStr (Child.windowName p)) VNull p) with
        | (Ret _, p1) => (Ret this, p1)
        | (Throw e, p1) => (Throw e, p1)
        end.
Proof.
  intros Hinit. unfold Child.constructor. cbn [default from_option id].
  set (this := Child.mkConfig _ _ _ _ _ _ _ _ _ _). exists this.
  repeat (split; [done |]).
  assert (Hdo : Child.shouldInitImmediately this = true)
    by (subst this; cbn; by destruct (Child.opt_shouldInitImmediately o) as [[|]|]).
  rewrite Hdo. unfold Child.bind, Child.gets, Child.modify, Child.when, Child.ret.
  by destruct (Child.init this _) as [[[]|e] p1].
Qed.

(** X23. The identity survives a reload of the child page: when the page
    has session storage and a text is stored under the fixed key,
    [new Child(options)] on the reloaded page parses that text and adopts
    its [id], [name] and [parentName] before anything is sent; the LOADED
    message that it then posts to the opener carries that identity, so the
    parent can re-associate the tab; and the handshake timer is
    started. *)
Theorem reload_restores_identity JSON o q text v s :
  let parse' := default (parse JSON) (Child.opt_parse o) in
  let stringify' := default (stringify JSON) (Child.opt_stringify o) in
  let info := VObj [("id", and_get v "id"); ("name", and_get v "name");
                    ("parentName", and_get v "parentName");
                    ("isSiteInsideFrame", Child.opt_isSiteInsideFrame o)] in
  Child.hasSessionStorage q = true →
  Child.sessionStorage q !! Child.sessionStorageKey = Some text →
  Child.opt_shouldInitImmediately o ≠ Some false →
  parse' text = Some v →
  stringify' info = SText s →
  ∃ this p1,
    Child.constructor JSON (Some o) (ChildEvents.reload q) = (Ret this, p1)
    ∧ Child.tabId p1 = and_get v "id"
    ∧ Child.tabName p1 = and_get v "name"
    ∧ Child.tabParentName p1 = and_get v "parentName"
    ∧ Child.sessionStorage p1 = Child.sessionStorage q
    ∧ Child.posted p1
      = (if Child.hasOpener q
         then [(PostMessageEventNamesEnum.LOADED +:+ s, Child.targetOrigin this)]
         else [])
    ∧ Child.timeout p1 = Some 1
    ∧ bool_decide (1 ∈ Child.timeouts p1) = true.
Proof.
  intros parse' stringify' info Hss Hkey Hinit Hparse Hstr.
  destruct (constructor_inits JSON o (ChildEvents.reload q) Hinit)
    as (this & Hcodec & Hflag & _ & ->).
  set (p0 := Child.set_identity _ _ _ _).
  assert (Hss0 : Child.hasSessionStorage p0 = true)
    by (subst p0; cbn; by rewrite Hss).
  assert (Hst0 : Child.sessionStorage p0 = Child.sessionStorage q)
    by (subst p0; cbn; by rewrite Hss).
  destruct (init_restores this p0 v s Hss0) as (p1 & -> & H1 & H2 & H3 & H4 & H5 & H6 & H7).
  - by rewrite Hcodec, Hst0, Hkey.
  - by rewrite Hcodec, Hflag.
  - exists this, p1. rewrite H4, Hst0, H5. by repeat split.
Qed.

(** X24. A stored identity that does not parse aborts the start of the
    child: [new Child(options)] throws the INVALID_DATA error before it
    sends the LOADED message, so the parent is never told and no handshake
    timer is started, and [onReady] is not called; yet the message
    listener and the unload hook are already installed. *)
Theorem malformed_stored_identity_aborts JSON o q text :
  let parse' := default (parse JSON) (Child.opt_parse o) in
  Child.hasSessionStorage q = true →
  Child.sessionStorage q !! Child.sessionStorageKey = Some text →
  Child.opt_shouldInitImmediately o ≠ Some false →
  parse' text = None →
  ∃ p1,
    Child.constructor JSON (Some o) (ChildEvents.reload q)
    = (Throw WarningTextEnum.INVALID_DATA, p1)
    ∧ Child.posted p1 = []
    ∧ Child.timeouts p1 = ∅
    ∧ Child.calls p1 = []
    ∧ Child.listeners p1 = [1]
    ∧ Child.beforeUnloadHook p1 = true.
Proof.
  intros parse' Hss Hkey Hinit Hparse.
  destruct (constructor_inits JSON o (ChildEvents.reload q) Hinit)
    as (this & Hcodec & _ & _ & ->).
  set (p0 := Child.set_identity _ _ _ _).
  assert (Hss0 : Child.hasSessionStorage p0 = true)
    by (subst p0; cbn; by rewrite Hss).
  assert (Hst0 : Child.sessionStorage p0 = Child.sessionStorage q)
    by (subst p0; cbn; by rewrite Hss).
  destruct (init_aborts this p0 Hss0) as (p1 & -> & H1 & H2 & H3 & H4 & H5).
  - by rewrite Hcodec, Hst0, Hkey.
  - by exists p1.
Qed.

End ChildReload.

(** X23, witness: the page that completed the handshake is reloaded. *)
Lemma reload_restores_identity_witness :
  Child.hasSessionStorage Fixtures.acquainted = true
  ∧ Child.sessionStorage Fixtures.acquainted !! Child.sessionStorageKey
    = Some Sample.identityText
  ∧ parse Json.JSON Sample.identityText = Some Sample.identity
  ∧ ∃ this p1,
      Child.constructor Json.JSON (Some Sample.childOptions)
        (ChildEvents.reload Fixtures.acquainted) = (Ret this, p1)
      ∧ Child.tabId p1 = VStr "abc"
      ∧ Child.tabName p1 = VStr "n"
      ∧ Child.tabParentName p1 = VStr "p"
      ∧ Child.sessionStorage p1 = Child.sessionStorage Fixtures.acquainted
      ∧ Child.posted p1
        = (if Child.hasOpener Fixtures.acquainted
           then [(PostMessageEventNamesEnum.LOADED +:+ Sample.identityText,
                  Child.targetOrigin this)]
           else [])
      ∧ Child.timeout p1 = Some 1
      ∧ bool_decide (1 ∈ Child.timeouts p1) = true.
Proof.
  assert (H1 : Child.hasSessionStorage Fixtures.acquainted = true)
    by (vm_compute; reflexivity).
  assert (H2 : Child.sessionStorage Fixtures.acquainted !! Child.sessionStorageKey
               = Some Sample.identityText) by (vm_compute; reflexivity).
  assert (H3 : Child.opt_shouldInitImmediately Sample.childOptions ≠ Some false)
    by discriminate.
  assert (H4 : parse Json.JSON Sample.identityText = Some Sample.identity)
    by (vm_compute; reflexivity).
  assert (H5 : stringify Json.JSON
                 (VObj [("id", and_get Sample.identity "id");
                        ("name", and_get Sample.identity "name");
                        ("parentName", and_get Sample.identity "parentName");
                        ("isSiteInsideFrame",
                         Child.opt_isSiteInsideFrame Sample.childOptions)])
               = SText Sample.identityText) by (vm_compute; reflexivity).
  exact (conj H1 (conj H2 (conj H4
           (reload_restores_identity Json.JSON Sample.childOptions
              Fixtures.acquainted Sample.identityText Sample.identity
              Sample.identityText H1 H2 H3 H4 H5)))).
Defined.

(** X24, witness. *)
Lemma malformed_stored_identity_aborts_witness :
  Child.hasSessionStorage Fixtures.garbled = true
  ∧ Child.sessionStorage Fixtures.garbled !! Child.sessionStorageKey = Some "{oops"
  ∧ parse Json.JSON "{oops" = None
  ∧ ∃ p1,
      Child.constructor Json.JSON (Some Sample.childOptions)
        (ChildEvents.reload Fixtures.garbled)
      = (Throw WarningTextEnum.INVALID_DATA, p1)
      ∧ Child.posted p1 = []
      ∧ Child.timeouts p1 = ∅
      ∧ Child.calls p1 = []
      ∧ Child.listeners p1 = [1]
      ∧ Child.beforeUnloadHook p1 = true.
Proof.
  assert (H1 : Child.hasSessionStorage Fixtures.garbled = true)
    by (vm_compute; reflexivity).
  assert (H2 : Child.sessionStorage Fixtures.garbled !! Child.sessionStorageKey
               = Some "{oops") by (vm_compute; reflexivity).
  assert (H3 : Child.opt_shouldInitImmediately Sample.childOptions ≠ Some false)
    by discriminate.
  assert (H4 : parse Json.JSON "{oops" = None) by (vm_compute; reflexivity).
  exact (conj H1 (conj H2 (conj H4
           (malformed_stored_identity_aborts Json.JSON Sample.childOptions
              Fixtures.garbled "{oops" H1 H2 H3 H4)))).
Defined.

(** ** The parent page unloads *)

Section ParentUnload.

Implicit Types (st : State) (fr : Frames) (p : Child.Page) (this : Child.Config).

(** X25. When the parent page unloads, with the standard JSON serializer
    on both sides: the parent posts the JSON text of the
    PARENT_DISCONNECTED tag, framed as a broadcast, to the top window of
    every OPEN tab; a child that accepts this message calls
    [onParentDisconnect] and then also [onParentCommunication], with the
    tag as the data -- the message carries both tags and the tests of
    [onCommunication] are not exclusive. *)
Theorem parent_unload_reaches_child fr st c this message p :
  attached st ≠ [] →
  config st = Some c →
  stringify (codec c) = Json.json_stringify →
  Child.data message = VStr farewell →
  Child.accepted this message = true →
  parse (Child.codec this) = Json.json_parse →
  Broadcast.onbeforeunload fr st
  = (Ret tt, omap (topPost fr st (Some farewell)) (tabUtils.getOpened st))
  ∧ Child.calls (Child.onCommunication this message p).2
    = Child.calls p
      ++ (if Child.onParentDisconnect this then [Child.ParentDisconnect] else [])
      ++ (if Child.onParentCommunication this
          then [Child.ParentCommunication
                  (VStr PostMessageEventNamesEnum.PARENT_DISCONNECTED)]
          else []).
Proof.
  intros Hatt Hc Hs Hd Hacc Hp. split.
  - unfold Broadcast.onbeforeunload. destruct (attached st); [done |].
    unfold Broadcast.Parent_broadCastAll, Broadcast.broadCastAll.
    assert (Hpre : tabUtils._preProcessMessage
                     (VStr PostMessageEventNamesEnum.PARENT_DISCONNECTED) st
                   = Ret (Some farewell)).
    { unfold tabUtils._preProcessMessage. by rewrite Hc, Hs. }
    rewrite Hpre. by apply sendAll_unframed.
  - destruct (onCommunication_accepted this message p Hacc) as (d & Hd' & ->).
    rewrite Hd in Hd'. injection Hd' as <-.
    assert (Hdec : Child.decode this farewell
                     PostMessageEventNamesEnum.PARENT_COMMUNICATED
                   = Some (VStr PostMessageEventNamesEnum.PARENT_DISCONNECTED)).
    { unfold Child.decode. rewrite Hp. by vm_compute. }
    unfold Child.dispatch.
    change (Child.tagged farewell PostMessageEventNamesEnum.PARENT_DISCONNECTED)
      with true.
    change (Child.tagged farewell PostMessageEventNamesEnum.HANDSHAKE_WITH_PARENT)
      with false.
    change (Child.tagged farewell PostMessageEventNamesEnum.PARENT_COMMUNICATED)
      with true.
    unfold Child.onParentCommunicated. rewrite Hdec.
    unfold Child.onParentDisconnected, Child.bind, Child.when, Child.modify, Child.ret.
    destruct (Child.onParentDisconnect this), (Child.onParentCommunication this),
      (Child.timeout p); cbn; by rewrite ?app_nil_r, <- ?List.app_assoc.
Qed.

End ParentUnload.

(** X25, witness: the parent of [Sample.twoTabs] unloads. *)
Lemma parent_unload_reaches_child_witness :
  let message := Child.mkMessage (VStr farewell) "https://parent.example" in
  attached Sample.twoTabs ≠ []
  ∧ config Sample.twoTabs = Some Sample.parent
  ∧ Child.accepted Sample.child message = true
  ∧ Broadcast.onbeforeunload Fixtures.windows Sample.twoTabs
    = (Ret tt,
       omap (topPost Fixtures.windows Sample.twoTabs (Some farewell))
         (tabUtils.getOpened Sample.twoTabs))
  ∧ Child.calls (Child.onCommunication Sample.child message Sample.childPage).2
    = Child.calls Sample.childPage
      ++ (if Child.onParentDisconnect Sample.child
          then [Child.ParentDisconnect] else [])
      ++ (if Child.onParentCommunication Sample.child
          then [Child.ParentCommunication
                  (VStr PostMessageEventNamesEnum.PARENT_DISCONNECTED)]
          else []).
Proof.
  intros message.
  assert (H1 : attached Sample.twoTabs ≠ []) by discriminate.
  assert (H2 : config Sample.twoTabs = Some Sample.parent) by reflexivity.
  assert (H3 : stringify (codec Sample.parent) = Json.json_stringify) by reflexivity.
  assert (H4 : Child.data message = VStr farewell) by reflexivity.
  assert (H5 : Child.accepted Sample.child message = true) by reflexivity.
  assert (H6 : parse (Child.codec Sample.child) = Json.json_parse) by reflexivity.
  exact (conj H1 (conj H2 (conj H5
           (parent_unload_reaches_child Fixtures.windows Sample.twoTabs
              Sample.parent Sample.child message Sample.childPage
              H1 H2 H3 H4 H5 H6)))).
Defined.

(** ** Creating a tab again *)

Section CreateAgain.

Implicit Types (st : State) (t : Tab).

(** X26. Calling [create] again on a [Tab] that is in the registry -- for
    instance on the object that [openNewTab] returned -- opens a window
    but adds no new tab: the record is overwritten in place with a new id,
    the status OPEN (also when it was CLOSE) and the new window handle,
    the same object is pushed once more, so that the registry lists it
    twice, and the window it referred to before is not closed. *)
Theorem create_again_lists_twice this options random opened st n :
  tabs st !! n = Some this →
  NoDup (tab_obj <$> tabs st) →
  let t' := (TabObject.create this options random opened st).1 in
  let st' := (TabObject.create this options random opened st).2 in
  tabs st' = <[n := t']> (tabs st) ++ [t']
  ∧ tab_obj t' = tab_obj this
  ∧ tab_id t' = UUID.generate random
  ∧ tab_status t' = TabStatusEnum.OPEN
  ∧ tab_ref t' = opened
  ∧ closedWindows st' = closedWindows st
  ∧ ¬ NoDup (tab_obj <$> tabs st').
Proof.
  intros Hn Hnd t' st'. subst t' st'. unfold TabObject.create.
  rewrite generate_nonempty. cbn [fst snd]. unfold tabUtils.addNew.
  cbn [tabs set_tabs closedWindows tab_obj tab_id tab_status tab_ref
       TabObject.assign].
  set (t' := mkTab _ _ _ _ _ _ _ _).
  rewrite (mutate_insert _ n this (λ _, t')) by done.
  repeat (split; [done |]). intros Hdup.
  assert (Hlt : n < length (tabs st)) by by eapply lookup_lt_Some.
  assert (H1 : (tab_obj <$> <[n := t']> (tabs st) ++ [t']) !! n = Some (tab_obj t')).
  { rewrite list_lookup_fmap, lookup_app_l by (rewrite length_insert; lia).
    by rewrite list_lookup_insert_eq. }
  assert (H2 : (tab_obj <$> <[n := t']> (tabs st) ++ [t']) !! length (tabs st)
               = Some (tab_obj t')).
  { rewrite list_lookup_fmap, lookup_app_r by (rewrite length_insert; lia).
    by rewrite length_insert, Nat.sub_diag. }
  pose proof (NoDup_lookup _ _ _ _ Hdup H1 H2). lia.
Qed.

End CreateAgain.

(** X26, witness: the tab that [closeTab] closed is created again. *)
Lemma create_again_lists_twice_witness :
  let st := run Json.JSON (initialState "") Sample.openThenClose in
  let t' := (TabObject.create Sample.closedTab None Sample.draws2 (Some 9) st).1 in
  let st' := (TabObject.create Sample.closedTab None Sample.draws2 (Some 9) st).2 in
  tabs st !! 0 = Some Sample.closedTab
  ∧ tab_status Sample.closedTab = TabStatusEnum.CLOSE
  ∧ tabs st' = <[0 := t']> (tabs st) ++ [t']
  ∧ tab_obj t' = tab_obj Sample.closedTab
  ∧ tab_id t' = UUID.generate Sample.draws2
  ∧ tab_status t' = TabStatusEnum.OPEN
  ∧ tab_ref t' = Some 9
  ∧ closedWindows st' = closedWindows st
  ∧ ¬ NoDup (tab_obj <$> tabs st').
Proof.
  intros st t' st'.
  assert (H1 : tabs st !! 0 = Some Sample.closedTab) by (vm_compute; reflexivity).
  assert (H2 : NoDup (tab_obj <$> tabs st)) by apply (NoDup_reachable Json.JSON "").
  assert (H3 : tab_status Sample.closedTab = TabStatusEnum.CLOSE) by reflexivity.
  exact (conj H1 (conj H3
           (create_again_lists_twice Sample.closedTab None Sample.draws2 (Some 9)
              st 0 H1 H2))).
Defined.
